(** * IAJ Management Hub: the monitoring pipeline of [src/main.py]

    A shallow embedding of the probe executor ([retry_with_backoff],
    [check_system_health]), the result cache ([cached]), the fan-out runner
    ([run_health_checks]), the retention sweep ([cleanup_old_data]), the
    statistics of [generate_recommendations] and [get_performance_metrics],
    and the parsing of the generator's reply, with the properties the
    specification states about them.

    Conventions.  Python dictionaries used as maps are [gmap string _];
    [None] is [option]'s [None]; an exception is a value of [exn] carried on
    the left of a sum; numbers that Python holds as floats are exact
    rationals ([Q]) and [round(_, 2)] is a parameter; wall-clock readings of
    [time.time()] are integers; a [str] is the string of the bytes of its
    UTF-8 encoding, so that searching for an ASCII character is the same
    on bytes and on characters, while [len] and slices count characters. *)

From Stdlib Require Import ZArith QArith Lqa String Ascii List Lia Permutation Sorted.
From stdpp Require Import gmap strings list pretty.

Local Open Scope string_scope.
Local Open Scope Z_scope.
Local Open Scope list_scope.

(** ** Exceptions and the effect monad shared by the modelled coroutines *)

(** The two handlers of [check_system_health] tell [httpx.TimeoutException]
    from every other subclass of [Exception]. *)
Inductive exn : Type :=
| TimeoutException (msg : string)
| OtherException (msg : string).

(** [str(e)]. *)
Definition str (e : exn) : string :=
  match e with
  | TimeoutException m => m
  | OtherException m => m
  end.

Definition is_timeout (e : exn) : bool :=
  match e with
  | TimeoutException _ => true
  | OtherException _ => false
  end.

(** [repr(s)] of a [str], which is what [str(KeyError(s))] gives: the
    text between single quotes, or between double quotes when it holds a
    single quote and no double quote, with the backslash, the quote in
    use and the control characters escaped.  The bytes of a non-ASCII
    character are copied (Python escapes those it does not hold to be
    printable). *)
Definition double_quote : ascii := ascii_of_nat 34.

Definition backslash : ascii := ascii_of_nat 92.

Definition hex_digit (n : nat) : ascii :=
  default "0"%char (String.get n "0123456789abcdef").

Definition repr_char (quote c : ascii) : string :=
  let n := nat_of_ascii c in
  if Ascii.eqb c quote || Ascii.eqb c backslash then String backslash (String c EmptyString)
  else if (n =? 9)%nat then String backslash "t"
  else if (n =? 10)%nat then String backslash "n"
  else if (n =? 13)%nat then String backslash "r"
  else if (n <? 32)%nat || (n =? 127)%nat then
    String backslash
      (String "x"%char
         (String (hex_digit (n / 16)%nat)
            (String (hex_digit (n mod 16)%nat) EmptyString)))
  else String c EmptyString.

Definition repr (s : string) : string :=
  let has q := existsb (Ascii.eqb q) (list_ascii_of_string s) in
  let quote := if has "'"%char && negb (has double_quote) then double_quote else "'"%char in
  String quote
    (String.concat EmptyString (List.map (repr_char quote) (list_ascii_of_string s))
     +:+ String quote EmptyString).

(** What a probe does to the outside world, oldest event first. *)
Inductive event : Type :=
| Get (url : string)      (* [await client.get(url)] *)
| Sleep (delay : Z).      (* [await asyncio.sleep(delay)], in seconds *)

Definition world : Type := list event.

(** A coroutine: it reads and extends the history and returns or raises. *)
Definition M (A : Type) : Type := world -> (exn + A) * world.

Definition ret {A} (a : A) : M A := fun w => (inr a, w).

Definition raise {A} (e : exn) : M A := fun w => (inl e, w).

Definition bind {A B} (m : M A) (k : A -> M B) : M B :=
  fun w =>
    match m w with
    | (inl e, w') => (inl e, w')
    | (inr a, w') => k a w'
    end.

(** [try: body except Exception as e: handler(e)]. *)
Definition try_except {A} (body : M A) (handler : exn -> M A) : M A :=
  fun w =>
    match body w with
    | (inl e, w') => handler e w'
    | (inr a, w') => (inr a, w')
    end.

Definition emit (e : event) : M unit := fun w => (inr tt, (w ++ [e])%list).

Declare Scope probe_scope.
Delimit Scope probe_scope with probe.
Notation "'let*' x := m 'in' k" := (bind m (fun x => k))
  (at level 10, x name, m at level 100, k at level 200) : probe_scope.

(** Number of requests issued and the delays slept, read off a history. *)
Definition gets (w : world) : nat :=
  List.length (List.filter (fun e => match e with Get _ => true | Sleep _ => false end) w).

Fixpoint delays (w : world) : list Z :=
  match w with
  | [] => []
  | Get _ :: w' => delays w'
  | Sleep d :: w' => d :: delays w'
  end.

(** ** Probe executor *)

Module Probe.

(** One entry of [SYSTEMS].  ["url"] comes from [os.getenv] and may be
    [None]; ["endpoint"] is read with [.get(..., '/api/status')]. *)
Record system_info : Type := {
  name : string;
  url : option string;
  endpoint : option string;
  description : string;
  check_interval : Z;
  priority : string
}.

(** An [httpx] response: its status code and what [response.json()] does. *)
Record response : Type := {
  status_code : Z;
  json : exn + string
}.

Inductive metadata : Type :=
| MetaBody (data : string)        (* the decoded body of a 200 reply *)
| MetaStatus (code : Z)           (* [{"status_code": code}] *)
| MetaEmpty.                      (* [{}] *)

(** The dictionary [check_system_health] returns. *)
Record health_data : Type := {
  system_name : string;
  status : string;
  response_time_ms : option Q;
  last_check : Q;
  error_message : option string;
  meta : metadata
}.

(** [s.rstrip('/')]. *)
Fixpoint rstrip_slash (s : string) : string :=
  match s with
  | EmptyString => EmptyString
  | String c s' =>
      match rstrip_slash s' with
      | EmptyString => if Ascii.eqb c "/" then EmptyString else String c EmptyString
      | r => String c r
      end
  end.

Section Executor.

(** The network: what the [k]-th request of a probe (counting from 0) to
    [url] does.  The clock: [datetime.now(timezone.utc)] in seconds, as a
    function of the history so far.  [round2] is Python's [round(_, 2)]. *)
Variable net : string -> nat -> exn + response.
Variable now : world -> Q.
Variable round2 : Q -> Q.

Local Open Scope probe_scope.

Definition read_clock : M Q := fun w => (inr (now w), w).

Definition client_get (u : string) : M response :=
  fun w =>
    match net u (gets w) with
    | inl e => (inl e, (w ++ [Get u])%list)
    | inr r => (inr r, (w ++ [Get u])%list)
    end.

(** The body of [for attempt in range(max_retries)], from iteration
    [attempt] on, with [todo] iterations left.  Falling off the end of the
    loop returns [None]. *)
Fixpoint retry_from {A} (func : M A) (max_retries : nat) (base_delay : Z)
    (todo attempt : nat) : M (option A) :=
  match todo with
  | O => ret None
  | S todo' =>
      try_except
        (let* x := func in ret (Some x))
        (fun e =>
           if Nat.eqb attempt (max_retries - 1) then raise e
           else
             let* _ := emit (Sleep (base_delay * 2 ^ Z.of_nat attempt)) in
             retry_from func max_retries base_delay todo' (S attempt))
  end.

Definition retry_with_backoff {A} (func : M A) (max_retries : nat) (base_delay : Z)
    : M (option A) :=
  retry_from func max_retries base_delay max_retries 0.

Definition attempt_check (info : system_info) : M response :=
  match url info with
  | None => raise (OtherException "'NoneType' object has no attribute 'rstrip'")
  | Some u =>
      let base_url := rstrip_slash u in
      let ep := match endpoint info with Some e => e | None => "/api/status" end in
      client_get (base_url +:+ ep)
  end.

Definition timeout_result (system_key : string) (t : Q) : health_data :=
  {| system_name := system_key; status := "timeout"; response_time_ms := None;
     last_check := t; error_message := Some "Request timeout after retries";
     meta := MetaEmpty |}.

Definition error_result (system_key : string) (t : Q) (e : exn) : health_data :=
  {| system_name := system_key; status := "error"; response_time_ms := None;
     last_check := t; error_message := Some (str e); meta := MetaEmpty |}.

Definition check_system_health (system_key : string) (info : system_info)
    : M health_data :=
  let* start_time := read_clock in
  try_except
    (let* o := retry_with_backoff (attempt_check info) 2 1 in
     match o with
     | None => raise (OtherException "'NoneType' object has no attribute 'status_code'")
     | Some resp =>
         let* t1 := read_clock in
         let response_time := ((t1 - start_time) * 1000)%Q in
         if status_code resp =? 200 then
           match json resp with
           | inl e => raise e
           | inr data =>
               let* t2 := read_clock in
               ret {| system_name := system_key; status := "healthy";
                      response_time_ms := Some (round2 response_time);
                      last_check := t2; error_message := None;
                      meta := MetaBody data |}
           end
         else
           let* t2 := read_clock in
           ret {| system_name := system_key; status := "unhealthy";
                  response_time_ms := Some (round2 response_time);
                  last_check := t2;
                  error_message := Some ("HTTP " +:+ pretty (status_code resp));
                  meta := MetaStatus (status_code resp) |}
     end)
    (fun e =>
       let* t := read_clock in
       match e with
       | TimeoutException _ => ret (timeout_result system_key t)
       | OtherException _ => ret (error_result system_key t e)
       end).

(** *** Views of a probe used to state its properties *)

(** The address a probe of [info] requests, when it has one. *)
Definition probe_url (info : system_info) : option string :=
  match url info with
  | Some u =>
      Some (rstrip_slash u +:+ match endpoint info with Some e => e | None => "/api/status" end)
  | None => None
  end.

(** What the [try] block does with a response that arrived on history [w]. *)
Definition on_response (system_key : string) (start : Q) (resp : response) (w : world)
    : health_data :=
  if status_code resp =? 200 then
    match json resp with
    | inr body =>
        {| system_name := system_key; status := "healthy";
           response_time_ms := Some (round2 ((now w - start) * 1000)%Q);
           last_check := now w; error_message := None; meta := MetaBody body |}
    | inl (TimeoutException _) => timeout_result system_key (now w)
    | inl e => error_result system_key (now w) e
    end
  else
    {| system_name := system_key; status := "unhealthy";
       response_time_ms := Some (round2 ((now w - start) * 1000)%Q);
       last_check := now w;
       error_message := Some ("HTTP " +:+ pretty (status_code resp));
       meta := MetaStatus (status_code resp) |}.

(** What the handlers do with the exception that ends the probe. *)
Definition on_exception (system_key : string) (e : exn) (w : world) : health_data :=
  match e with
  | TimeoutException _ => timeout_result system_key (now w)
  | OtherException _ => error_result system_key (now w) e
  end.

(** The history of a call of [retry_with_backoff] on a request to [u]
    that fails [k] times from iteration [attempt] on and is then answered. *)
Fixpoint backoff (u : string) (base_delay : Z) (attempt k : nat) : world :=
  match k with
  | O => [Get u]
  | S k' =>
      Get u :: Sleep (base_delay * 2 ^ Z.of_nat attempt)
        :: backoff u base_delay (S attempt) k'
  end.

End Executor.

(** *** Scenarios *)

(** A target whose address ends in a slash and that names no endpoint. *)
Definition svc : system_info :=
  {| name := "Service"; url := Some "http://svc/"; endpoint := None;
     description := "a monitored service"; check_interval := 300;
     priority := "high" |}.

Definition ok_response : response := {| status_code := 200; json := inr "{}" |}.

(** Connection refused twice, then HTTP 200. *)
Definition net_refused_twice (u : string) (k : nat) : exn + response :=
  if (k <? 2)%nat then inl (OtherException "connection refused") else inr ok_response.

(** Connection refused once, then HTTP 200. *)
Definition net_refused_once (u : string) (k : nat) : exn + response :=
  if (k <? 1)%nat then inl (OtherException "connection refused") else inr ok_response.

(** A timeout, then HTTP 200. *)
Definition net_timeout_once (u : string) (k : nat) : exn + response :=
  if (k <? 1)%nat then inl (TimeoutException "timed out") else inr ok_response.

(** Every request times out. *)
Definition net_timeout_always (u : string) (k : nat) : exn + response :=
  inl (TimeoutException "timed out").

(** Connection refused, then timeouts. *)
Definition net_refused_then_timeout (u : string) (k : nat) : exn + response :=
  if (k <? 1)%nat then inl (OtherException "connection refused")
  else inl (TimeoutException "timed out").

(** A clock that advances by one second per event, and a rounding that
    leaves its argument alone. *)
Definition tick (w : world) : Q := inject_Z (Z.of_nat (List.length w)).

Definition keep (q : Q) : Q := q.

End Probe.

(** ** Target registry *)

Module Registry.

Import Probe.

(** [SYSTEMS], in the order the dictionary literal lists its keys; [env]
    is [os.getenv]. *)
Definition SYSTEMS (env : string -> option string) : list (string * system_info) :=
  [ ("story_grid_pro",
     {| name := "Story Grid Pro"; url := env "STORY_GRID_PRO_URL";
        endpoint := Some "/api/status";
        description := "Production planning and module hub";
        check_interval := 300; priority := "high" |});
    ("iaj_social_main",
     {| name := "IAJ Social Main"; url := env "IAJ_SOCIAL_BASE_URL";
        endpoint := Some "/api/status";
        description := "Main IAJ Social application";
        check_interval := 300; priority := "high" |});
    ("agent_training",
     {| name := "Agent Training"; url := env "IAJ_SOCIAL_BASE_URL";
        endpoint := Some "/api/agent-training/status";
        description := "AI agent training module";
        check_interval := 600; priority := "medium" |});
    ("video_processor",
     {| name := "Video Processor"; url := env "IAJ_SOCIAL_BASE_URL";
        endpoint := Some "/api/video-processor/status";
        description := "Video processing module";
        check_interval := 600; priority := "medium" |});
    ("social_studio",
     {| name := "Social Studio"; url := env "IAJ_SOCIAL_BASE_URL";
        endpoint := Some "/api/social-studio/status";
        description := "AI content creation module";
        check_interval := 600; priority := "medium" |});
    ("batch_studio",
     {| name := "Batch Studio"; url := env "IAJ_SOCIAL_BASE_URL";
        endpoint := Some "/api/social-studio/batch/status";
        description := "Batch content processing module";
        check_interval := 600; priority := "medium" |}) ].

Definition keys (env : string -> option string) : list string :=
  List.map fst (SYSTEMS env).

Definition with_priority (p : string) (systems : list (string * system_info))
    : list (string * system_info) :=
  List.filter (fun kv => String.eqb (priority (snd kv)) p) systems.

End Registry.

(** ** Result cache: the [cached] decorator and the in-place invalidation *)

Module Cache.

Section Cached.

(** The type of the values the decorated functions return when they do
    not return [None]. *)
Variable V : Type.

(** One entry of [CACHE]: [{"data": ..., "timestamp": ..., "ttl": ...}]. *)
Record cache_entry : Type := {
  data : option V;
  timestamp : option Z;
  ttl : Z
}.

(** [CACHE] together with the number of times the decorated function has
    been awaited. *)
Record state : Type := {
  CACHE : gmap string cache_entry;
  calls : nat
}.

(** Truthiness of [cache_entry["timestamp"]]: neither [None] nor zero. *)
Definition truthy_time (t : option Z) : bool :=
  match t with
  | Some ts => negb (ts =? 0)
  | None => false
  end.

(** The two nested [if]s of [wrapper]: the value to return on a hit. *)
Definition cache_hit (c : gmap string cache_entry) (cache_key : string)
    (ttl_arg now : Z) : option V :=
  match c !! cache_key with
  | Some e =>
      match data e with
      | Some d =>
          if truthy_time (timestamp e)
             && (now - default 0 (timestamp e) <? ttl_arg)
          then Some d else None
      | None => None
      end
  | None => None
  end.

(** [wrapper], for the decorator arguments [cache_key] and [ttl_arg].
    [func k] is what the [k]-th await of the decorated function does;
    [now] is the reading of [time.time()] at entry. *)
Definition wrapper (cache_key : string) (ttl_arg : Z)
    (func : nat -> exn + option V) (now : Z) (s : state)
    : (exn + option V) * state :=
  match cache_hit (CACHE s) cache_key ttl_arg now with
  | Some d => (inr (Some d), s)
  | None =>
      match func (calls s) with
      | inl e => (inl e, {| CACHE := CACHE s; calls := S (calls s) |})
      | inr result =>
          (inr result,
           {| CACHE := <[cache_key :=
                           {| data := result; timestamp := Some now;
                              ttl := ttl_arg |}]> (CACHE s);
              calls := S (calls s) |})
      end
  end.

(** [CACHE[key]["data"] = None]; a missing key is a [KeyError], whose
    text is the [repr] of the key. *)
Definition clear_data (cache_key : string) (c : gmap string cache_entry)
    : exn + gmap string cache_entry :=
  match c !! cache_key with
  | Some e =>
      inr (<[cache_key := {| data := None; timestamp := timestamp e;
                              ttl := ttl e |}]> c)
  | None => inl (OtherException (repr cache_key))
  end.

Definition invalidate (cache_key : string) (s : state) : exn + state :=
  match clear_data cache_key (CACHE s) with
  | inr c => inr {| CACHE := c; calls := calls s |}
  | inl e => inl e
  end.

(** The module-level [CACHE] literal. *)
Definition initial_CACHE : gmap string cache_entry :=
  <["health_overview" := {| data := None; timestamp := None; ttl := 60 |}]>
    (<["recommendations" := {| data := None; timestamp := None; ttl := 300 |}]> ∅).

End Cached.

(** *** Scenario *)

(** A decorated function that returns the number of times it has been
    awaited before, and a cache that has not been filled yet. *)
Definition count_calls (k : nat) : exn + option nat := inr (Some k).

Definition fresh_state : state nat :=
  {| CACHE := initial_CACHE nat; calls := 0 |}.

(** A cache whose overview entry was filled at time 1000. *)
Definition filled_CACHE : gmap string (cache_entry nat) :=
  <["health_overview" := {| data := Some 7%nat; timestamp := Some 1000; ttl := 60 |}]>
    (initial_CACHE nat).

Arguments data {V} _.
Arguments timestamp {V} _.
Arguments ttl {V} _.
Arguments CACHE {V} _.
Arguments calls {V} _.
Arguments cache_hit {V} _ _ _ _.
Arguments wrapper {V} _ _ _ _ _.
Arguments clear_data {V} _ _.
Arguments invalidate {V} _ _.

End Cache.

(** ** Fan-out runner *)

Module Fanout.

Import Probe.

(** The row [run_health_checks] writes to [workflow_events] for a result
    that is not healthy. *)
Record workflow_event : Type := {
  event_type : string;
  source_system : string;
  target_system : string;
  wf_status : string;
  payload : health_data;
  created_at : Q
}.

(** The two tables the runner appends to, and the number of requests sent
    to the store so far. *)
Record store : Type := {
  system_health : list health_data;
  workflow_events : list workflow_event;
  requests : nat
}.

Section Runner.

Variable V : Type.
Variable net : string -> nat -> exn + response.
Variable now : world -> Q.
Variable round2 : Q -> Q.

(** Whether the [k]-th request to the store goes through; a request that
    does not raises (store unreachable, or [supabase] is [None]).
    [clock k] is [datetime.now(timezone.utc)] read after [k] requests. *)
Variable store_up : nat -> bool.
Variable clock : nat -> Q.

Record state : Type := {
  cache : gmap string (Cache.cache_entry V);
  db : store
}.

Definition insert_health (h : health_data) (d : store) : exn + store :=
  if store_up (requests d)
  then inr {| system_health := (system_health d ++ [h])%list;
              workflow_events := workflow_events d;
              requests := S (requests d) |}
  else inl (OtherException "insert failed").

Definition insert_event (e : workflow_event) (d : store) : exn + store :=
  if store_up (requests d)
  then inr {| system_health := system_health d;
              workflow_events := (workflow_events d ++ [e])%list;
              requests := S (requests d) |}
  else inl (OtherException "insert failed").

(** A request that raised was still sent. *)
Definition failed_request (d : store) : store :=
  {| system_health := system_health d;
     workflow_events := workflow_events d;
     requests := S (requests d) |}.

(** [asyncio.gather] with [return_exceptions=True]: every probe runs on
    a history of its own; the results keep the order of the targets. *)
Definition gather (systems : list (string * system_info))
    : list (exn + health_data) :=
  List.map (fun kv => fst (check_system_health net now round2 (fst kv) (snd kv) []))
           systems.

(** One iteration of [for health_data in results]. *)
Definition store_result (st : state) (r : exn + health_data) : state :=
  match r with
  | inl _ => st
  | inr h =>
      match insert_health h (db st) with
      | inl _ => {| cache := cache st; db := failed_request (db st) |}
      | inr d1 =>
          match Cache.clear_data "health_overview" (cache st) with
          | inl _ => {| cache := cache st; db := d1 |}
          | inr c1 =>
              if String.eqb (status h) "healthy"
              then {| cache := c1; db := d1 |}
              else
                let ev := {| event_type := "system_health_alert";
                             source_system := "management_hub";
                             target_system := system_name h;
                             wf_status := "completed";
                             payload := h;
                             created_at := clock (requests d1) |} in
                match insert_event ev d1 with
                | inl _ => {| cache := c1; db := failed_request d1 |}
                | inr d2 => {| cache := c1; db := d2 |}
                end
          end
      end
  end.

Definition store_results (results : list (exn + health_data)) (st : state) : state :=
  fold_left store_result results st.

Definition run_health_checks (systems : list (string * system_info)) (st : state)
    : state :=
  store_results (gather systems) st.

Definition check_high_priority_systems (env : string -> option string) :=
  run_health_checks (Registry.with_priority "high" (Registry.SYSTEMS env)).

Definition check_medium_priority_systems (env : string -> option string) :=
  run_health_checks (Registry.with_priority "medium" (Registry.SYSTEMS env)).

Definition check_all_systems (env : string -> option string) :=
  run_health_checks (Registry.SYSTEMS env).

End Runner.

Arguments cache {V} _.
Arguments db {V} _.

(** The number of results written to [system_health] so far. *)
Definition stored {V} (st : state V) : nat := List.length (system_health (db st)).

(** The overview entry holds no value. *)
Definition overview_cleared {V} (c : gmap string (Cache.cache_entry V)) : Prop :=
  exists e, c !! "health_overview" = Some e /\ Cache.data e = None.

(** *** Scenarios *)

Definition net_ok (u : string) (k : nat) : exn + response := inr ok_response.

Definition store_always_up (k : nat) : bool := true.

Definition store_down (k : nat) : bool := false.

Definition midnight (k : nat) : Q := 0%Q.

Definition empty_store : store :=
  {| system_health := []; workflow_events := []; requests := 0 |}.

(** The overview is cached and nothing has been stored yet. *)
Definition cached_overview : state nat :=
  {| cache := Cache.filled_CACHE; db := empty_store |}.

End Fanout.

(** ** Retention sweep *)

Module Retention.

(** The columns of [system_health] that [cleanup_old_data] reads. *)
Record row : Type := {
  id : Z;
  system_name : string;
  created_at : Z
}.

(** [.eq("system_name", system_key)]. *)
Definition select_eq (system_key : string) (t : list row) : list row :=
  List.filter (fun r => String.eqb (system_name r) system_key) t.

(** [.delete().eq("system_name", system_key).lt("id", cutoff_id)]. *)
Definition delete_lt (system_key : string) (cutoff_id : Z) (t : list row) : list row :=
  List.filter
    (fun r => negb (String.eqb (system_name r) system_key && (id r <? cutoff_id)))
    t.

(** A stable insertion sort by [created_at], newest first: one ordering
    that [.order("created_at", desc=True)] may return. *)
Fixpoint insert_desc (r : row) (l : list row) : list row :=
  match l with
  | [] => [r]
  | x :: l' =>
      if created_at x <? created_at r then r :: x :: l'
      else x :: insert_desc r l'
  end.

Fixpoint sort_created_at_desc (l : list row) : list row :=
  match l with
  | [] => []
  | r :: l' => insert_desc r (sort_created_at_desc l')
  end.

Section Sweep.

(** [.order("created_at", desc=True)] as the store evaluates it.  The
    store fixes the order of rows with equal [created_at]; the program
    does not. *)
Variable order : list row -> list row.

(** The body of [for system_key in SYSTEMS.keys()]. *)
Definition cleanup_system (system_key : string) (t : list row) : list row :=
  let total_count := Z.of_nat (List.length (select_eq system_key t)) in
  if total_count >? 1000 then
    (* [.limit(1).range(999, 999)]: the row at offset 999, if any *)
    match nth_error (order (select_eq system_key t)) 999 with
    | Some r => delete_lt system_key (id r) t
    | None => t
    end
  else t.

Definition cleanup_old_data (env : string -> option string) (t : list row) : list row :=
  fold_left (fun t' k => cleanup_system k t') (Registry.keys env) t.

End Sweep.

(** The rows of [before] that are gone in [after]. *)
Definition deleted (before after : list row) (r : row) : Prop :=
  In r before /\ ~ In r after.

(** What [ORDER BY created_at DESC] guarantees of its result. *)
Definition newest_first (l : list row) : Prop :=
  StronglySorted (fun a b => created_at b <= created_at a) l.

(** Identities were handed out in the order of the creation times: a row
    with a smaller [id] has a strictly earlier [created_at]. *)
Definition ids_follow_creation (l : list row) : Prop :=
  forall a b, In a l -> In b l -> id a < id b -> created_at a < created_at b.

(** *** Scenarios *)

Definition probe_row (i : nat) : row :=
  {| id := Z.of_nat i; system_name := "svc"; created_at := Z.of_nat i |}.

(** 1500 results of one target, identities 1 to 1500, each created one
    tick after the one before. *)
Definition steady_history : list row := List.map probe_row (List.seq 1 1500).

(** The same, but the rows with identities 500 and 501 were created at
    the same time. *)
Definition tied_history : list row :=
  List.map probe_row (List.seq 1 500)
    ++ {| id := 501; system_name := "svc"; created_at := 500 |}
    :: List.map probe_row (List.seq 502 999).

(** Another ordering that [ORDER BY created_at DESC] may return: among
    rows created at the same time the one with the smaller identity comes
    first when the table is listed by identity. *)
Definition ties_oldest_first (l : list row) : list row :=
  sort_created_at_desc (List.rev l).

(** The steady history, but the row with identity 1 carries the latest
    creation time of all (the clock was set back after it was written). *)
Definition skewed_history : list row :=
  {| id := 1; system_name := "svc"; created_at := 5000 |}
    :: List.map probe_row (List.seq 2 1499).

End Retention.

(** ** Statistics *)

Module Stats.

(** The columns of a [system_health] row that the statistics read. *)
Record record : Type := {
  system_name : string;
  status : string;
  error_message : option string;
  response_time_ms : option Q
}.

(** Truthiness of [record.get('error_message')] and of
    [record.get('response_time_ms')]. *)
Definition truthy_str (o : option string) : bool :=
  match o with
  | Some s => negb (String.eqb s "")
  | None => false
  end.

Definition truthy_num (o : option Q) : bool :=
  match o with
  | Some q => negb (Qeq_bool q 0)
  | None => false
  end.

Definition is_healthy (r : record) : bool := String.eqb (status r) "healthy".

Definition sum (l : list Q) : Q := fold_left Qplus l 0%Q.

Definition len {A} (l : list A) : Q := inject_Z (Z.of_nat (List.length l)).

(** Python's [min] and [max] of a list: the first least, the first
    greatest element; [None] stands for the [ValueError] on an empty list. *)
Definition min (l : list Q) : option Q :=
  match l with
  | [] => None
  | x :: l' => Some (fold_left (fun m y => if Qle_bool m y then m else y) l' x)
  end.

Definition max (l : list Q) : option Q :=
  match l with
  | [] => None
  | x :: l' => Some (fold_left (fun m y => if Qle_bool y m then m else y) l' x)
  end.

(** *** The summary of [generate_recommendations] *)

(** One value of [system_stats]. *)
Record sys_stats : Type := {
  total : Z;
  healthy : Z;
  unhealthy : Z;
  errors : list string;
  response_times : list Q
}.

Definition new_stats : sys_stats :=
  {| total := 0; healthy := 0; unhealthy := 0; errors := []; response_times := [] |}.

(** The body of [for record in health_data.data]. *)
Definition add_record (system_stats : gmap string sys_stats) (r : record)
    : gmap string sys_stats :=
  let st := default new_stats (system_stats !! system_name r) in
  let healthy' := if is_healthy r then healthy st + 1 else healthy st in
  let unhealthy' := if is_healthy r then unhealthy st else unhealthy st + 1 in
  let errors' :=
    if is_healthy r then errors st
    else if truthy_str (error_message r)
         then (errors st ++ [default "" (error_message r)])%list
         else errors st in
  let response_times' :=
    if truthy_num (response_time_ms r)
    then (response_times st ++ [default 0%Q (response_time_ms r)])%list
    else response_times st in
  <[system_name r :=
      {| total := total st + 1; healthy := healthy'; unhealthy := unhealthy';
         errors := errors'; response_times := response_times' |}]> system_stats.

Definition system_stats (window : list record) : gmap string sys_stats :=
  fold_left add_record window ∅.

(** [uptime], [avg_response] and the argument of [', '.join] in the
    summary loop.  [recent_errors] is [None] when the line is not written. *)
Definition uptime (st : sys_stats) : Q :=
  if total st >? 0
  then (inject_Z (healthy st) / inject_Z (total st) * 100)%Q
  else 0%Q.

Definition avg_response (st : sys_stats) : Q :=
  match response_times st with
  | [] => 0%Q
  | _ => (sum (response_times st) / len (response_times st))%Q
  end.

Definition recent_errors (st : sys_stats) : option (gset string) :=
  match errors st with
  | [] => None
  | _ => Some (list_to_set (take 3 (errors st)))
  end.

(** *** The figures of [get_performance_metrics] *)

Record metrics : Type := {
  total_checks : Z;
  healthy_checks : Z;
  uptime_24h : Q;
  avg_response_time : option Q;
  min_response_time : option Q;
  max_response_time : option Q
}.

Section Metrics.

Variable round2 : Q -> Q.

(** [[r["response_time_ms"] for r in data if r.get("response_time_ms")]]. *)
Definition latencies (data : list record) : list Q :=
  List.map (fun r => default 0%Q (response_time_ms r))
           (List.filter (fun r => truthy_num (response_time_ms r)) data).

Definition healthy_count (data : list record) : Z :=
  Z.of_nat (List.length (List.filter is_healthy data)).

(** The entry written for one system; [None] when [response.data] is
    empty and the system is left out of the answer. *)
Definition performance_metrics (data : list record) : option metrics :=
  match data with
  | [] => None
  | _ =>
      let response_times := latencies data in
      Some {| total_checks := Z.of_nat (List.length data);
              healthy_checks := healthy_count data;
              uptime_24h :=
                round2 (inject_Z (healthy_count data) / len data * 100)%Q;
              avg_response_time :=
                match response_times with
                | [] => None
                | _ => Some (round2 (sum response_times / len response_times)%Q)
                end;
              min_response_time := option_map round2 (min response_times);
              max_response_time := option_map round2 (max response_times) |}
  end.

End Metrics.

(** *** Views used to state the properties *)

(** The records of the window that belong to system [s]. *)
Definition of_system (s : string) (window : list record) : list record :=
  List.filter (fun r => String.eqb (system_name r) s) window.

(** The non-empty error messages of the records that are not healthy. *)
Definition error_messages (l : list record) : list string :=
  List.map (fun r => default "" (error_message r))
    (List.filter (fun r => negb (is_healthy r) && truthy_str (error_message r)) l).

(** The counters of a list of records, written without the loop. *)
Definition summary_of (l : list record) : sys_stats :=
  {| total := Z.of_nat (List.length l);
     healthy := Z.of_nat (List.length (List.filter is_healthy l));
     unhealthy := Z.of_nat (List.length (List.filter (fun r => negb (is_healthy r)) l));
     errors := error_messages l;
     response_times := latencies l |}.

(** The entry of [system_stats] for a system with records [l]: none when
    the system does not occur in the window. *)
Definition entry_of (l : list record) : option sys_stats :=
  match l with
  | [] => None
  | _ => Some (summary_of l)
  end.

(** The same record with [response_time_ms] set to [None]. *)
Definition without_latency (r : record) : record :=
  {| system_name := system_name r; status := status r;
     error_message := error_message r; response_time_ms := None |}.

(** *** Scenarios *)

Definition healthy_in (ms : Q) : record :=
  {| system_name := "svc"; status := "healthy"; error_message := None;
     response_time_ms := Some ms |}.

Definition failed_with (msg : string) : record :=
  {| system_name := "svc"; status := "error"; error_message := Some msg;
     response_time_ms := None |}.

Definition timed_out : record :=
  {| system_name := "svc"; status := "timeout";
     error_message := Some "Request timeout after retries";
     response_time_ms := None |}.

(** The window of the specification's example. *)
Definition example_window : list record :=
  [healthy_in 100; healthy_in 200; failed_with "x"].

(** A window in which no request was answered. *)
Definition unanswered_window : list record := [timed_out].

(** A window with a sample that took 0 ms. *)
Definition zero_window : list record := [healthy_in 0; healthy_in 100].

(** Three failures with one message, then an older one with another. *)
Definition repeated_window : list record :=
  [failed_with "x"; failed_with "x"; failed_with "x"; failed_with "y"].

(** *** The aggregate as the specification words it *)

(** The results of the window that have a latency. *)
Definition spec_defined_latencies (window : list record) : list Q :=
  omap response_time_ms window.

(** Average over the results with a defined latency; none when there is
    no such result. *)
Definition spec_avg_latency (window : list record) : option Q :=
  match spec_defined_latencies window with
  | [] => None
  | l => Some (sum l / len l)%Q
  end.

(** Keep the first occurrence of every string. *)
Fixpoint distinct (l : list string) : list string :=
  match l with
  | [] => []
  | x :: l' => x :: List.filter (fun y => negb (String.eqb y x)) (distinct l')
  end.

(** Up to 3 distinct non-null error messages of the window, most recent
    first (the window is ordered newest first). *)
Definition spec_distinct_recent_errors (window : list record) : list string :=
  take 3 (distinct (omap error_message window)).

End Stats.

(** ** The generator's reply *)

Module Reply.

(** A decoded JSON value. *)
#[local] Unset Elimination Schemes.
Inductive jval : Type :=
| JNull
| JBool (b : bool)
| JNum (q : Q)
| JStr (s : string)
| JArr (items : list jval)
| JObj (fields : list (string * jval)).
#[local] Set Elimination Schemes.

(** [rec.get(key, default)] on a decoded object. *)
Fixpoint assoc (key : string) (fields : list (string * jval)) : option jval :=
  match fields with
  | [] => None
  | (k, v) :: fields' => if String.eqb k key then Some v else assoc key fields'
  end.

Definition get (fields : list (string * jval)) (key : string) (dflt : jval) : jval :=
  default dflt (assoc key fields).

(** [metadata] of a recommendation: the fallback record carries the
    source only. *)
Record rec_metadata : Type := {
  source : string;
  action : option jval;
  generated_at : option Q
}.

(** One dictionary of the list [generate_recommendations] returns. *)
Record recommendation : Type := {
  recommendation_type : jval;
  priority : jval;
  title : jval;
  description : jval;
  system_name : jval;
  actionable : bool;
  action_url : option string;
  status : string;
  metadata : rec_metadata;
  created_at : Q
}.

(** The suffix of [s] that starts at its first ["["]. *)
Fixpoint from_open_bracket (s : string) : option string :=
  match s with
  | EmptyString => None
  | String c s' => if Ascii.eqb c "[" then Some s else from_open_bracket s'
  end.

(** The longest prefix of [s] that ends in ["]"]. *)
Fixpoint upto_last_close (s : string) : option string :=
  match s with
  | EmptyString => None
  | String c s' =>
      match upto_last_close s' with
      | Some p => Some (String c p)
      | None => if Ascii.eqb c "]" then Some (String c EmptyString) else None
      end
  end.

(** [re.search(r'\[[\s\S]*\]', text)] and [.group()]: the leftmost ["["]
    up to the last ["]"] after it. *)
Definition re_search (text : string) : option string :=
  match from_open_bracket text with
  | Some (String c rest) =>
      match upto_last_close rest with
      | Some p => Some (String c p)
      | None => None
      end
  | _ => None
  end.

(** A [str] is held as the bytes of its UTF-8 encoding, and Python counts
    its characters, not its bytes.  A byte [10xxxxxx] continues the
    character begun before it; every other byte begins one. *)
Definition is_continuation (c : ascii) : bool :=
  ((128 <=? nat_of_ascii c) && (nat_of_ascii c <? 192))%nat.

(** [len(s)]. *)
Fixpoint codepoints (s : string) : nat :=
  match s with
  | EmptyString => O
  | String c s' => if is_continuation c then codepoints s' else S (codepoints s')
  end.

(** [s[:n]]: the first [n] characters of [s], each with all its bytes. *)
Fixpoint prefix (n : nat) (s : string) : string :=
  match s with
  | EmptyString => EmptyString
  | String c s' =>
      if is_continuation c then String c (prefix n s')
      else
        match n with
        | O => EmptyString
        | S n' => String c (prefix n' s')
        end
  end.

(** What [json.loads] does with a text: it returns the decoded value,
    raises [json.JSONDecodeError], or raises another exception (a
    [RecursionError] when brackets are nested too deeply). *)
Inductive loads : Type :=
| Decoded (v : jval)
| JSONDecodeError
| Raised (e : exn).

Section Parse.

(** [json.loads], and the reading [t] of the clock used for the time
    stamps. *)
Variable json_loads : string -> loads.
Variable t : Q.

Definition format_rec (r : jval) : option recommendation :=
  match r with
  | JObj fields =>
      Some {| recommendation_type := get fields "recommendation_type" (JStr "general");
              priority := get fields "priority" (JStr "medium");
              title := get fields "title" (JStr "System Recommendation");
              description := get fields "description" (JStr "");
              system_name := get fields "system_name" (JStr "all");
              actionable := true;
              action_url := None;
              status := "active";
              metadata := {| source := "claude_sonnet_4";
                             action := Some (get fields "action" (JStr ""));
                             generated_at := Some t |};
              created_at := t |}
  | _ => None        (* no [.get]: [AttributeError] *)
  end.

(** [for rec in parsed_recs: formatted_recs.append(...)]; [None] when an
    item raises. *)
Fixpoint format_recs (items : list jval) : option (list recommendation) :=
  match items with
  | [] => Some []
  | r :: items' =>
      match format_rec r with
      | Some f =>
          match format_recs items' with
          | Some fs => Some (f :: fs)
          | None => None
          end
      | None => None
      end
  end.

Definition fallback (recommendations_text : string) : recommendation :=
  {| recommendation_type := JStr "analysis";
     priority := JStr "medium";
     title := JStr "System Analysis Complete";
     description := JStr (prefix 1000 recommendations_text);
     system_name := JStr "all";
     actionable := true;
     action_url := None;
     status := "active";
     metadata := {| source := "claude_sonnet_4"; action := None;
                    generated_at := None |};
     created_at := t |}.

(** What [generate_recommendations] returns once the generator has
    answered [recommendations_text].  The inner handler catches
    [json.JSONDecodeError] only; every other exception raised in the
    inner [try], by [json.loads] or by the loop over the decoded value,
    reaches the outer handler, which returns [[]]. *)
Definition parse_reply (recommendations_text : string) : list recommendation :=
  match re_search recommendations_text with
  | Some m =>
      match json_loads m with
      | Decoded (JArr items) =>
          match format_recs items with
          | Some recs => recs
          | None => []
          end
      | Decoded _ => []
      | JSONDecodeError => [fallback recommendations_text]
      | Raised _ => []
      end
  | None => [fallback recommendations_text]
  end.

(** The two ways to the fallback record: no bracketed text, or bracketed
    text on which [json.loads] raises [json.JSONDecodeError]. *)
Definition extraction_fails (recommendations_text : string) : Prop :=
  match re_search recommendations_text with
  | Some m => json_loads m = JSONDecodeError
  | None => True
  end.

End Parse.

(** *** Scenarios *)

(** A reply of 1001 characters without a bracket. *)
Definition long_reply : string := string_of_list_ascii (List.repeat "a"%char 1001).

(** A reply of 600 characters of two bytes each (U+00E9), without a
    bracket. *)
Definition accented_reply : string :=
  string_of_list_ascii
    (List.concat (List.repeat [ascii_of_nat 195; ascii_of_nat 169] 600)).

(** A reply of 1100 opening brackets and one closing bracket. *)
Definition nested_reply : string :=
  string_of_list_ascii (List.repeat "["%char 1100 ++ ["]"%char]).

(** A decoder that rejects every text, and one that knows the text
    ["[1]"], as [json.loads] decodes it. *)
Definition rejects_all (s : string) : loads := JSONDecodeError.

Definition decodes_one (s : string) : loads :=
  if String.eqb s "[1]" then Decoded (JArr [JNum 1]) else JSONDecodeError.

(** A decoder that exceeds its recursion limit on the nested reply and
    rejects every other text. *)
Definition recursion_limit (s : string) : loads :=
  if String.eqb s nested_reply
  then Raised (OtherException "maximum recursion depth exceeded")
  else JSONDecodeError.

End Reply.

(** ** Further views *)

Module Url.

(** A run of [n] slashes. *)
Fixpoint slashes (n : nat) : string :=
  match n with
  | O => EmptyString
  | S n' => String "/" (slashes n')
  end.

(** Whether the character [c] occurs in a string. *)
Fixpoint has (c : ascii) (s : string) : bool :=
  match s with
  | EmptyString => false
  | String c' s' => Ascii.eqb c' c || has c s'
  end.

(** The last character of a string, if it has one. *)
Fixpoint last_char (s : string) : option ascii :=
  match s with
  | EmptyString => None
  | String c EmptyString => Some c
  | String _ s' => last_char s'
  end.

End Url.

Module Batch.

Import Probe.

(** The results of a batch that are not exceptions, in order. *)
Definition oks (results : list (exn + health_data)) : list health_data :=
  omap (fun r => match r with inr h => Some h | inl _ => None end) results.

(** The results whose status is not ["healthy"]. *)
Definition alerting (l : list health_data) : list health_data :=
  List.filter (fun h => negb (String.eqb (status h) "healthy")) l.

(** The delays [base_delay * 2 ^ attempt] of the attempts [0] to [k - 1]. *)
Definition geometric (base_delay : Z) (k : nat) : list Z :=
  List.map (fun i => base_delay * 2 ^ Z.of_nat i) (List.seq 0 k).

(** [ev] is the alert that [run_health_checks] writes for [h]. *)
Definition alert_for (h : health_data) (ev : Fanout.workflow_event) : Prop :=
  Fanout.event_type ev = "system_health_alert"
  /\ Fanout.source_system ev = "management_hub"
  /\ Fanout.target_system ev = system_name h
  /\ Fanout.wf_status ev = "completed"
  /\ Fanout.payload ev = h.

(** On the network [net], the last request of a probe of [u] that starts
    on history [w] is answered with [resp]: at once, or after one failed
    attempt. *)
Definition answered_with (net : string -> nat -> exn + response) (u : string)
    (w : world) (resp : response) : Prop :=
  net u (gets w) = inr resp
  \/ (exists e, net u (gets w) = inl e /\ net u (S (gets w)) = inr resp).

End Batch.

Module Reads.

(** A sequence of calls of one decorated function, at the given times. *)
Fixpoint reads {V} (cache_key : string) (ttl_arg : Z)
    (func : nat -> exn + option V) (times : list Z) (s : Cache.state V)
    : list (exn + option V) * Cache.state V :=
  match times with
  | [] => ([], s)
  | t :: times' =>
      let r := Cache.wrapper cache_key ttl_arg func t s in
      let rs := reads cache_key ttl_arg func times' (snd r) in
      (fst r :: fst rs, snd rs)
  end.

(** A decorated function that raises, and one that returns [None]. *)
Definition always_raises (k : nat) : exn + option nat :=
  inl (OtherException "store unreachable").

Definition returns_none (k : nat) : exn + option nat := inr None.

End Reads.

(** ** Storing the recommendations *)

Module Synthesis.

Import Reply.

(** The table [ai_recommendations] and the number of requests sent to the
    store. *)
Record store : Type := {
  ai_recommendations : list recommendation;
  requests : nat
}.

(** [HTTPException(status_code=..., detail=...)]. *)
Inductive http_error : Type :=
| HTTPException (status_code : Z) (detail : string).

(** The dictionary [trigger_recommendations] returns. *)
Record generated : Type := {
  message : string;
  count : Z;
  recommendations : list recommendation
}.

Section Jobs.

Variable V : Type.

(** Whether the [k]-th request to the store goes through. *)
Variable store_up : nat -> bool.

Record state : Type := {
  cache : gmap string (Cache.cache_entry V);
  db : store
}.

(** [supabase.table("ai_recommendations").insert(rec).execute()]. *)
Definition insert_recommendation (r : recommendation) (d : store) : exn + store :=
  if store_up (requests d)
  then inr {| ai_recommendations := ai_recommendations d ++ [r];
              requests := S (requests d) |}
  else inl (OtherException "insert failed").

Definition failed_request (d : store) : store :=
  {| ai_recommendations := ai_recommendations d; requests := S (requests d) |}.

(** One iteration of the loop of [generate_daily_recommendations]: a
    failed insert is logged and the loop goes on. *)
Definition store_quietly (st : state) (r : recommendation) : state :=
  match insert_recommendation r (db st) with
  | inr d => {| cache := cache st; db := d |}
  | inl _ => {| cache := cache st; db := failed_request (db st) |}
  end.

(** [generate_daily_recommendations], from the list that
    [generate_recommendations] returned on.  The assignment to the cache
    follows the loop, outside every [try]. *)
Definition generate_daily_recommendations (recs : list recommendation) (st : state)
    : (exn + unit) * state :=
  let st1 := fold_left store_quietly recs st in
  match Cache.clear_data "recommendations" (cache st1) with
  | inr c => (inr tt, {| cache := c; db := db st1 |})
  | inl e => (inl e, st1)
  end.

(** The loop of [trigger_recommendations]: the first insert that raises
    ends it. *)
Fixpoint store_all (recs : list recommendation) (st : state) : (exn + unit) * state :=
  match recs with
  | [] => (inr tt, st)
  | r :: recs' =>
      match insert_recommendation r (db st) with
      | inr d => store_all recs' {| cache := cache st; db := d |}
      | inl e => (inl e, {| cache := cache st; db := failed_request (db st) |})
      end
  end.

(** [trigger_recommendations], from the list that
    [generate_recommendations] returned on.  Every exception of the body
    becomes an [HTTPException] with status 500. *)
Definition trigger_recommendations (recs : list recommendation) (st : state)
    : (http_error + generated) * state :=
  match store_all recs st with
  | (inl e, st1) => (inl (HTTPException 500 (str e)), st1)
  | (inr _, st1) =>
      match Cache.clear_data "recommendations" (cache st1) with
      | inl e => (inl (HTTPException 500 (str e)), st1)
      | inr c =>
          (inr {| message := "Recommendations generated";
                  count := Z.of_nat (List.length recs);
                  recommendations := recs |},
           {| cache := c; db := db st1 |})
      end
  end.

End Jobs.

Arguments cache {V} _.
Arguments db {V} _.

(** The recommendations entry holds no value. *)
Definition recommendations_cleared {V} (c : gmap string (Cache.cache_entry V)) : Prop :=
  exists e, c !! "recommendations" = Some e /\ Cache.data e = None.

End Synthesis.

(** ** The read endpoints *)

Module Endpoints.

(** The columns of [system_health] that the two health endpoints read. *)
Record row : Type := {
  system_name : string;
  created_at : Z;
  status : string;
  response_time_ms : option Q;
  last_check : string
}.

(** One value of [results] in [get_health_overview]; [details] is [None]
    for the entry of a system without rows, which has neither
    ["response_time_ms"] nor ["last_check"]. *)
Record overview_entry : Type := {
  o_name : string;
  o_status : string;
  o_details : option (option Q * string);
  o_priority : string
}.

(** What [get_health_overview] returns when the store answers. *)
Record overview : Type := {
  overall_health : string;
  systems : list (string * overview_entry);
  timestamp : Q;
  cached : bool
}.

(** One value of [results] in [get_health_detailed]. *)
Record detailed_entry : Type := {
  d_name : string;
  d_description : string;
  d_priority : string;
  d_check_interval : Z;
  current_status : row;
  recent_history : list row;
  uptime_percentage : Q
}.

(** What [get_health_detailed] returns when the store answers. *)
Record detailed : Type := {
  d_systems : list (string * detailed_entry);
  d_timestamp : Q
}.

Definition is_healthy (r : row) : bool := String.eqb (status r) "healthy".

Section Queries.

(** [.order("created_at", desc=True)] as the store evaluates it, Python's
    [round(_, 1)], and the reading of the clock for the time stamp of the
    answer.  The table is the store's answer: a store that raises turns
    either endpoint into an [HTTPException] with status 500. *)
Variable order : list row -> list row.
Variable round1 : Q -> Q.
Variable now : Q.

(** [.eq("system_name", system_key).order("created_at", desc=True).limit(n)]. *)
Definition latest (n : nat) (system_key : string) (t : list row) : list row :=
  firstn n (order (List.filter (fun r => String.eqb (system_name r) system_key) t)).

(** The body of the loop of [get_health_overview]. *)
Definition overview_of (system_key : string) (info : Probe.system_info)
    (t : list row) : overview_entry :=
  match latest 1 system_key t with
  | latest_row :: _ =>
      {| o_name := Probe.name info; o_status := status latest_row;
         o_details := Some (response_time_ms latest_row, last_check latest_row);
         o_priority := Probe.priority info |}
  | [] =>
      {| o_name := Probe.name info; o_status := "unknown"; o_details := None;
         o_priority := Probe.priority info |}
  end.

Definition get_health_overview (env : string -> option string) (t : list row)
    : overview :=
  let results :=
    List.map (fun kv => (fst kv, overview_of (fst kv) (snd kv) t))
             (Registry.SYSTEMS env) in
  let overall_healthy :=
    List.length (List.filter (fun kv => String.eqb (o_status (snd kv)) "healthy")
                   results) in
  {| overall_health :=
       pretty (Z.of_nat overall_healthy) +:+ "/"
         +:+ pretty (Z.of_nat (List.length (Registry.SYSTEMS env)));
     systems := results;
     timestamp := now;
     cached := true |}.

(** The body of the loop of [get_health_detailed]; [None] when the system
    has no rows and gets no entry. *)
Definition detailed_of (system_key : string) (info : Probe.system_info)
    (t : list row) : option detailed_entry :=
  match latest 10 system_key t with
  | [] => None
  | first :: rest =>
      let data := first :: rest in
      let healthy_count := Z.of_nat (List.length (List.filter is_healthy data)) in
      let uptime :=
        (inject_Z healthy_count / inject_Z (Z.of_nat (List.length data)) * 100)%Q in
      Some {| d_name := Probe.name info;
              d_description := Probe.description info;
              d_priority := Probe.priority info;
              d_check_interval := Probe.check_interval info;
              current_status := first;
              recent_history := data;
              uptime_percentage := round1 uptime |}
  end.

Definition get_health_detailed (env : string -> option string) (t : list row)
    : detailed :=
  {| d_systems :=
       omap (fun kv => option_map (pair (fst kv)) (detailed_of (fst kv) (snd kv) t))
            (Registry.SYSTEMS env);
     d_timestamp := now |}.

End Queries.

(** What [ORDER BY created_at DESC] guarantees of its result. *)
Definition newest_first (l : list row) : Prop :=
  StronglySorted (fun a b => created_at b <= created_at a) l.

(** The rows of a system. *)
Definition rows_of (system_key : string) (t : list row) : list row :=
  List.filter (fun r => String.eqb (system_name r) system_key) t.

(** *** Scenario *)

(** An ordering for a table that is already listed newest first. *)
Definition as_listed (l : list row) : list row := l.

Definition recent_rows : list row :=
  [ {| system_name := "story_grid_pro"; created_at := 20; status := "healthy";
       response_time_ms := Some 12%Q; last_check := "t20" |};
    {| system_name := "story_grid_pro"; created_at := 10; status := "error";
       response_time_ms := None; last_check := "t10" |} ].

End Endpoints.

(** ** Further scenarios *)

Module Scenario.

Import Probe.

(** A target whose address was not configured. *)
Definition unset : system_info :=
  {| name := "Service"; url := None; endpoint := Some "/api/status";
     description := "a monitored service"; check_interval := 300;
     priority := "high" |}.

(** Always HTTP 503; always HTTP 200 with a body that is not JSON. *)
Definition net_503 (u : string) (k : nat) : exn + response :=
  inr {| status_code := 503; json := inr "{}" |}.

Definition net_bad_body (u : string) (k : nat) : exn + response :=
  inr {| status_code := 200; json := inl (OtherException "Expecting value") |}.

(** Refused [n] times, then HTTP 200. *)
Definition net_refused (n : nat) (u : string) (k : nat) : exn + response :=
  if (k <? n)%nat then inl (OtherException "connection refused") else inr ok_response.

(** Always refused; the message tells the attempts apart. *)
Definition net_down (u : string) (k : nat) : exn + response :=
  inl (OtherException ("connection refused #" +:+ pretty k)).

(** HTTP 200 from one address, HTTP 503 from every other. *)
Definition net_mixed (u : string) (k : nat) : exn + response :=
  if String.eqb u "http://svc/api/status" then inr ok_response
  else inr {| status_code := 503; json := inr "{}" |}.

Definition other : system_info :=
  {| name := "Other"; url := Some "http://other"; endpoint := Some "/health";
     description := "another monitored service"; check_interval := 600;
     priority := "medium" |}.

(** A decoder that knows the text of two empty objects, as [json.loads]
    decodes it. *)
Definition decodes_two_objects (s : string) : Reply.loads :=
  if String.eqb s "[{}, {}]"
  then Reply.Decoded (Reply.JArr [Reply.JObj []; Reply.JObj []])
  else Reply.JSONDecodeError.

(** A cache whose recommendations entry was filled at time 1000, and a
    state with that cache and an empty table. *)
Definition recommendations_cached : gmap string (Cache.cache_entry nat) :=
  <["recommendations" :=
      {| Cache.data := Some 3%nat; Cache.timestamp := Some 1000; Cache.ttl := 300 |}]>
    (Cache.initial_CACHE nat).

Definition before_synthesis : Synthesis.state nat :=
  {| Synthesis.cache := recommendations_cached;
     Synthesis.db := {| Synthesis.ai_recommendations := [];
                        Synthesis.requests := 0 |} |}.

(** A table with 1500 rows of a registered system, three rows of another
    and one row of a system that is not registered; no environment
    variable is set. *)
Definition row_of (k : string) (i : nat) : Retention.row :=
  {| Retention.id := Z.of_nat i; Retention.system_name := k;
     Retention.created_at := Z.of_nat i |}.

Definition registered_history : list Retention.row :=
  List.map (row_of "story_grid_pro") (List.seq 1 1500)
    ++ List.map (row_of "iaj_social_main") (List.seq 1501 3)
    ++ [row_of "legacy" 1504].

Definition no_env (name : string) : option string := None.

(** The store rejects its first request and accepts the later ones. *)
Definition store_recovers (k : nat) : bool := negb (k =? 0)%nat.

(** The store accepts its first request and rejects the later ones. *)
Definition store_breaks (k : nat) : bool := (k =? 0)%nat.

End Scenario.

(** * Properties *)

(** ** Histories *)

Lemma gets_app (w1 w2 : world) : gets (w1 ++ w2) = (gets w1 + gets w2)%nat.
Proof. unfold gets. now rewrite List.filter_app, List.length_app. Qed.

Lemma gets_snoc_get (w : world) (u : string) : gets (w ++ [Get u]) = S (gets w).
Proof. rewrite gets_app. cbn. lia. Qed.

Lemma gets_snoc_sleep (w : world) (d : Z) : gets (w ++ [Sleep d]) = gets w.
Proof. rewrite gets_app. cbn. lia. Qed.

Lemma delays_app (w1 w2 : world) : delays (w1 ++ w2) = (delays w1 ++ delays w2)%list.
Proof.
  induction w1 as [|e w1 IH]; [reflexivity|].
  destruct e; cbn; now rewrite IH.
Qed.

(** ** Probe executor *)

Section ProbeFacts.

Import Probe.

Variable net : string -> nat -> exn + response.
Variable now : world -> Q.
Variable round2 : Q -> Q.

Abbreviation probe := (check_system_health net now round2).
Abbreviation on_response := (Probe.on_response now round2).
Abbreviation on_exception := (Probe.on_exception now).

Lemma probe_first_attempt_answers system_key info u resp w :
  probe_url info = Some u ->
  net u (gets w) = inr resp ->
  probe system_key info w
  = (inr (on_response system_key (now w) resp (w ++ [Get u])), (w ++ [Get u])%list).
Proof.
  unfold probe_url, check_system_health, retry_with_backoff, attempt_check,
    Probe.on_response.
  destruct (url info) as [u0|]; [|discriminate].
  intros [= <-] Hnet.
  cbn. unfold bind, try_except, read_clock, client_get, ret, raise. cbn.
  rewrite Hnet.
  destruct (status_code resp =? 200); [|reflexivity].
  destruct (json resp) as [[m|m]|body]; reflexivity.
Qed.

Lemma probe_second_attempt_answers system_key info u e resp w :
  probe_url info = Some u ->
  net u (gets w) = inl e ->
  net u (S (gets w)) = inr resp ->
  probe system_key info w
  = (inr (on_response system_key (now w) resp (w ++ [Get u; Sleep 1; Get u])),
     (w ++ [Get u; Sleep 1; Get u])%list).
Proof.
  unfold probe_url, check_system_health, retry_with_backoff, attempt_check,
    Probe.on_response.
  destruct (url info) as [u0|]; [|discriminate].
  intros [= <-] Hnet0 Hnet1.
  cbn. unfold bind, try_except, read_clock, client_get, ret, raise, emit. cbn.
  rewrite Hnet0. cbn.
  rewrite gets_snoc_sleep, gets_snoc_get, Hnet1.
  rewrite <- !List.app_assoc. cbn.
  destruct (status_code resp =? 200); [|reflexivity].
  destruct (json resp) as [[m|m]|body]; reflexivity.
Qed.

Lemma probe_both_attempts_fail system_key info u e e' w :
  probe_url info = Some u ->
  net u (gets w) = inl e ->
  net u (S (gets w)) = inl e' ->
  probe system_key info w
  = (inr (on_exception system_key e' (w ++ [Get u; Sleep 1; Get u])),
     (w ++ [Get u; Sleep 1; Get u])%list).
Proof.
  unfold probe_url, check_system_health, retry_with_backoff, attempt_check,
    Probe.on_exception.
  destruct (url info) as [u0|]; [|discriminate].
  intros [= <-] Hnet0 Hnet1.
  cbn. unfold bind, try_except, read_clock, client_get, ret, raise, emit. cbn.
  rewrite Hnet0. cbn.
  rewrite gets_snoc_sleep, gets_snoc_get, Hnet1.
  rewrite <- !List.app_assoc. cbn.
  destruct e'; reflexivity.
Qed.

Lemma probe_without_url system_key info w :
  probe_url info = None ->
  probe system_key info w
  = (inr (error_result system_key (now (w ++ [Sleep 1]))
            (OtherException "'NoneType' object has no attribute 'rstrip'")),
     (w ++ [Sleep 1])%list).
Proof.
  unfold probe_url, check_system_health, retry_with_backoff, attempt_check.
  destruct (url info) as [u0|]; [discriminate|].
  intros _. reflexivity.
Qed.

End ProbeFacts.

Section RetryFacts.

Import Probe.

Variable net : string -> nat -> exn + response.

Lemma delays_backoff u base_delay k : forall attempt,
  delays (backoff u base_delay attempt k)
  = List.map (fun i => base_delay * 2 ^ Z.of_nat i) (List.seq attempt k).
Proof.
  induction k as [|k IH]; intros attempt; cbn; [reflexivity|].
  now rewrite IH.
Qed.

Lemma gets_backoff u base_delay k : forall attempt,
  gets (backoff u base_delay attempt k) = S k.
Proof.
  induction k as [|k IH]; intros attempt; [reflexivity|].
  change (gets (backoff u base_delay attempt (S k)))
    with (S (gets (backoff u base_delay (S attempt) k))).
  now rewrite IH.
Qed.

(** [retry_with_backoff] on a request that is refused [k] times and then
    answered, with [k] below the number of iterations: it returns the
    answer after [k] sleeps of [base_delay * 2 ^ attempt]. *)
Lemma retry_from_answered u max_retries base_delay resp : forall k todo attempt w,
  (forall i, (i < k)%nat -> exists e, net u (gets w + i) = inl e) ->
  net u (gets w + k) = inr resp ->
  (k < todo)%nat ->
  (attempt + k < max_retries)%nat ->
  retry_from (client_get net u) max_retries base_delay todo attempt w
  = (inr (Some resp), w ++ backoff u base_delay attempt k).
Proof.
  induction k as [|k IH]; intros todo attempt w Hfail Hok Htodo Hmax.
  - destruct todo as [|todo]; [lia|]. cbn.
    unfold try_except, bind, client_get, ret.
    rewrite Nat.add_0_r in Hok. now rewrite Hok.
  - destruct todo as [|todo]; [lia|]. cbn.
    unfold try_except at 1. unfold bind at 1. unfold client_get at 1.
    destruct (Hfail 0%nat ltac:(lia)) as [e He].
    rewrite Nat.add_0_r in He. rewrite He.
    replace (attempt =? max_retries - 1)%nat with false
      by (symmetry; apply Nat.eqb_neq; lia).
    unfold bind at 1. unfold emit at 1.
    rewrite (IH todo (S attempt) ((w ++ [Get u]) ++ [Sleep (base_delay * 2 ^ Z.of_nat attempt)])).
    + now rewrite <- !List.app_assoc.
    + intros i Hi. rewrite gets_snoc_sleep, gets_snoc_get.
      destruct (Hfail (S i) ltac:(lia)) as [e' He'].
      exists e'. now rewrite <- He', Nat.add_succ_r.
    + rewrite gets_snoc_sleep, gets_snoc_get. now rewrite <- Hok, Nat.add_succ_r.
    + lia.
    + lia.
Qed.

(** With the default [max_retries=3, base_delay=1], two refusals and an
    answer cost three requests and the delays 1s and 2s. *)
Lemma retry_with_default_arguments u resp e0 e1 :
  net u 0%nat = inl e0 -> net u 1%nat = inl e1 -> net u 2%nat = inr resp ->
  retry_with_backoff (client_get net u) 3 1 []
  = (inr (Some resp), [Get u; Sleep 1; Get u; Sleep 2; Get u]).
Proof.
  intros H0 H1 H2. unfold retry_with_backoff.
  rewrite (retry_from_answered u 3 1 resp 2); [reflexivity| | assumption | lia | lia].
  intros [|[|i]] Hi; [eauto | eauto | lia].
Qed.

End RetryFacts.

Section ProbeClaims.

Import Probe.

Variable net : string -> nat -> exn + response.
Variable now : world -> Q.
Variable round2 : Q -> Q.

Abbreviation probe' := (check_system_health net now round2).

(** C1 (as the code has it): [check_system_health] passes [max_retries=2],
    which bounds the number of attempts.  A target whose first attempt
    fails and whose second attempt is answered with HTTP 200 and a
    decodable body is requested twice, with one sleep of exactly 1s
    ([base_delay * 2 ^ attempt] for [base_delay = 1], [attempt = 0]) in
    between, and the result is [healthy].  When the second attempt fails
    too, the probe ends there: the history has two requests and the single
    delay 1s, whatever a third request would have met, and the result is
    [timeout] or [error]. *)
Theorem retry_once_after_one_second system_key info u e w :
  probe_url info = Some u ->
  net u (gets w) = inl e ->
  (forall resp body,
     net u (S (gets w)) = inr resp ->
     status_code resp = 200 ->
     json resp = inr body ->
     exists h,
       probe' system_key info w = (inr h, w ++ [Get u; Sleep 1; Get u])
       /\ status h = "healthy"
       /\ meta h = MetaBody body)
  /\ (forall e',
        net u (S (gets w)) = inl e' ->
        exists h,
          probe' system_key info w = (inr h, w ++ [Get u; Sleep 1; Get u])
          /\ (status h = "timeout" \/ status h = "error"))
  /\ gets (snd (probe' system_key info w)) = (gets w + 2)%nat
  /\ delays (snd (probe' system_key info w)) = delays w ++ [1].
Proof.
  intros Hu H0.
  assert (Hw : snd (probe' system_key info w) = w ++ [Get u; Sleep 1; Get u]).
  { destruct (net u (S (gets w))) as [e'|resp] eqn:H1.
    - now rewrite (probe_both_attempts_fail net now round2 _ _ _ _ _ _ Hu H0 H1).
    - now rewrite (probe_second_attempt_answers net now round2 _ _ _ _ _ _ Hu H0 H1). }
  repeat split.
  - intros resp body H1 Hcode Hbody.
    rewrite (probe_second_attempt_answers net now round2 _ _ _ _ _ _ Hu H0 H1).
    eexists; split; [reflexivity|].
    unfold Probe.on_response. rewrite Hcode, Hbody. cbn. auto.
  - intros e' H1.
    rewrite (probe_both_attempts_fail net now round2 _ _ _ _ _ _ Hu H0 H1).
    eexists; split; [reflexivity|].
    destruct e'; cbn; auto.
  - rewrite Hw, gets_app. cbn. lia.
  - rewrite Hw, delays_app. reflexivity.
Qed.

(** C2: for every target and every behaviour of the network,
    [check_system_health] returns one result and raises nothing.  The
    result carries the target's key and one of the four statuses, and the
    status is the outcome of the last request the probe sent: that request
    is the first one when it is answered and the second one otherwise, no
    request follows it, and
    - an answer with HTTP 200 and a decodable body gives [healthy] with
      the body and a latency;
    - an answer with another code gives [unhealthy] with ["HTTP <code>"]
      and a latency;
    - an answer with HTTP 200 whose body cannot be decoded gives [error]
      with the decoder's message (or [timeout], should the decoder raise
      a timeout) and no latency;
    - a failure of the second request gives [timeout] with the fixed
      message when it is a timeout and [error] with the exception's text
      otherwise, and no latency.
    A target without an address gives [error] and is sent no request. *)
Theorem probe_never_raises system_key info w :
  exists h w',
    probe' system_key info w = (inr h, w')
    /\ system_name h = system_key
    /\ ((status h = "healthy" /\ error_message h = None /\ is_Some (response_time_ms h))
        \/ (status h = "unhealthy" /\ is_Some (error_message h)
            /\ is_Some (response_time_ms h))
        \/ (status h = "timeout"
            /\ error_message h = Some "Request timeout after retries"
            /\ response_time_ms h = None)
        \/ (status h = "error" /\ is_Some (error_message h)
            /\ response_time_ms h = None))
    /\ (gets w' <= gets w + 2)%nat
    /\ match probe_url info with
       | None =>
           w' = w ++ [Sleep 1]
           /\ status h = "error"
           /\ error_message h = Some "'NoneType' object has no attribute 'rstrip'"
       | Some u =>
           exists k,
             (k < 2)%nat
             /\ w' = w ++ backoff u 1 0 k
             /\ (forall i, (i < k)%nat -> exists e, net u (gets w + i)%nat = inl e)
             /\ match net u (gets w + k)%nat with
                | inr resp =>
                    if status_code resp =? 200 then
                      match json resp with
                      | inr body =>
                          status h = "healthy" /\ meta h = MetaBody body
                          /\ error_message h = None
                          /\ is_Some (response_time_ms h)
                      | inl e =>
                          status h = (if is_timeout e then "timeout" else "error")
                          /\ error_message h
                             = Some (if is_timeout e then "Request timeout after retries"
                                     else str e)
                          /\ response_time_ms h = None
                      end
                    else
                      status h = "unhealthy"
                      /\ error_message h = Some ("HTTP " +:+ pretty (status_code resp))
                      /\ meta h = MetaStatus (status_code resp)
                      /\ is_Some (response_time_ms h)
                | inl e =>
                    k = 1%nat
                    /\ status h = (if is_timeout e then "timeout" else "error")
                    /\ error_message h
                       = Some (if is_timeout e then "Request timeout after retries"
                               else str e)
                    /\ response_time_ms h = None
                end
       end.
Proof.
  assert (Hresp : forall start resp w1,
    let h := Probe.on_response now round2 system_key start resp w1 in
    system_name h = system_key
    /\ ((status h = "healthy" /\ error_message h = None /\ is_Some (response_time_ms h))
        \/ (status h = "unhealthy" /\ is_Some (error_message h)
            /\ is_Some (response_time_ms h))
        \/ (status h = "timeout"
            /\ error_message h = Some "Request timeout after retries"
            /\ response_time_ms h = None)
        \/ (status h = "error" /\ is_Some (error_message h)
            /\ response_time_ms h = None))
    /\ if status_code resp =? 200 then
         match json resp with
         | inr body =>
             status h = "healthy" /\ meta h = MetaBody body
             /\ error_message h = None
             /\ is_Some (response_time_ms h)
         | inl e =>
             status h = (if is_timeout e then "timeout" else "error")
             /\ error_message h
                = Some (if is_timeout e then "Request timeout after retries" else str e)
             /\ response_time_ms h = None
         end
       else
         status h = "unhealthy"
         /\ error_message h = Some ("HTTP " +:+ pretty (status_code resp))
         /\ meta h = MetaStatus (status_code resp)
         /\ is_Some (response_time_ms h)).
  { intros start resp w1. unfold Probe.on_response.
    destruct (status_code resp =? 200).
    - destruct (json resp) as [[m|m]|body]; cbn; repeat split; eauto 10.
    - cbn; repeat split; eauto 10. }
  assert (Hexn : forall e w1,
    let h := Probe.on_exception now system_key e w1 in
    system_name h = system_key
    /\ ((status h = "timeout"
         /\ error_message h = Some "Request timeout after retries"
         /\ response_time_ms h = None)
        \/ (status h = "error" /\ is_Some (error_message h)
            /\ response_time_ms h = None))
    /\ status h = (if is_timeout e then "timeout" else "error")
    /\ error_message h
       = Some (if is_timeout e then "Request timeout after retries" else str e)
    /\ response_time_ms h = None).
  { intros [m|m] w1; cbn; repeat split; eauto 10. }
  destruct (probe_url info) as [u|] eqn:Hu.
  - destruct (net u (gets w)) as [e|resp] eqn:H0.
    + destruct (net u (S (gets w))) as [e'|resp] eqn:H1.
      * rewrite (probe_both_attempts_fail net now round2 _ _ _ _ _ _ Hu H0 H1).
        do 2 eexists. split; [reflexivity|].
        destruct (Hexn e' (w ++ [Get u; Sleep 1; Get u])) as (Hn & Hs & Hlast).
        split; [exact Hn|]. split; [tauto|].
        split; [rewrite gets_app; cbn; lia|].
        exists 1%nat. split; [lia|]. split; [reflexivity|]. split.
        -- intros i Hi. assert (i = 0%nat) as -> by lia.
           rewrite Nat.add_0_r. eauto.
        -- rewrite Nat.add_1_r, H1. split; [reflexivity|exact Hlast].
      * rewrite (probe_second_attempt_answers net now round2 _ _ _ _ _ _ Hu H0 H1).
        do 2 eexists. split; [reflexivity|].
        destruct (Hresp (now w) resp (w ++ [Get u; Sleep 1; Get u])) as (Hn & Hs & Hlast).
        split; [exact Hn|]. split; [exact Hs|].
        split; [rewrite gets_app; cbn; lia|].
        exists 1%nat. split; [lia|]. split; [reflexivity|]. split.
        -- intros i Hi. assert (i = 0%nat) as -> by lia.
           rewrite Nat.add_0_r. eauto.
        -- rewrite Nat.add_1_r, H1. exact Hlast.
    + rewrite (probe_first_attempt_answers net now round2 _ _ _ _ _ Hu H0).
      do 2 eexists. split; [reflexivity|].
      destruct (Hresp (now w) resp (w ++ [Get u])) as (Hn & Hs & Hlast).
      split; [exact Hn|]. split; [exact Hs|].
      split; [rewrite gets_snoc_get; lia|].
      exists 0%nat. split; [lia|]. split; [reflexivity|]. split.
      * intros i Hi. lia.
      * rewrite Nat.add_0_r, H0. exact Hlast.
  - rewrite (probe_without_url net now round2 _ _ _ Hu).
    do 2 eexists. split; [reflexivity|]. cbn.
    split; [reflexivity|]. split; [eauto 10|].
    split; [rewrite gets_snoc_sleep; lia|]. auto.
Qed.

(** C3 (as the code has it): [retry_with_backoff] catches every
    [Exception], a timeout included.  After a first attempt that times out
    the probe sleeps 1s and sends a second request, whose outcome decides
    the result.  A timeout on the final (second) attempt, whatever made the
    first attempt fail, gives [status = timeout], no [response_time_ms]
    and the fixed message. *)
Theorem timeout_is_retried system_key info u w :
  probe_url info = Some u ->
  (forall m,
     net u (gets w) = inl (TimeoutException m) ->
     snd (probe' system_key info w) = w ++ [Get u; Sleep 1; Get u]
     /\ gets (snd (probe' system_key info w)) = (gets w + 2)%nat
     /\ delays (snd (probe' system_key info w)) = delays w ++ [1])
  /\ (forall e m',
        net u (gets w) = inl e ->
        net u (S (gets w)) = inl (TimeoutException m') ->
        exists h,
          probe' system_key info w = (inr h, w ++ [Get u; Sleep 1; Get u])
          /\ status h = "timeout"
          /\ response_time_ms h = None
          /\ error_message h = Some "Request timeout after retries").
Proof.
  intros Hu. split.
  - intros m H0.
    assert (Hw : snd (probe' system_key info w) = w ++ [Get u; Sleep 1; Get u]).
    { destruct (net u (S (gets w))) as [e'|resp] eqn:H1.
      - now rewrite (probe_both_attempts_fail net now round2 _ _ _ _ _ _ Hu H0 H1).
      - now rewrite (probe_second_attempt_answers net now round2 _ _ _ _ _ _ Hu H0 H1). }
    rewrite Hw. split; [reflexivity|]. split.
    + rewrite gets_app. cbn. lia.
    + rewrite delays_app. reflexivity.
  - intros e m' H0 H1.
    rewrite (probe_both_attempts_fail net now round2 _ _ _ _ _ _ Hu H0 H1).
    eexists; split; [reflexivity|]. cbn. auto.
Qed.

End ProbeClaims.

(** C1, witness: one refusal, then HTTP 200. *)
Lemma retry_once_after_one_second_witness :
  Probe.probe_url Probe.svc = Some "http://svc/api/status"
  /\ Probe.net_refused_once "http://svc/api/status" (gets [])
     = inl (OtherException "connection refused")
  /\ exists h,
       Probe.check_system_health Probe.net_refused_once Probe.tick Probe.keep
         "svc" Probe.svc []
       = (inr h, [] ++ [Get "http://svc/api/status"; Sleep 1;
                        Get "http://svc/api/status"])
       /\ Probe.status h = "healthy"
       /\ Probe.meta h = Probe.MetaBody "{}".
Proof.
  split; [reflexivity|]. split; [reflexivity|].
  exact (proj1 (retry_once_after_one_second Probe.net_refused_once Probe.tick
                  Probe.keep "svc" Probe.svc "http://svc/api/status"
                  (OtherException "connection refused") [] eq_refl eq_refl)
           Probe.ok_response "{}" eq_refl eq_refl eq_refl).
Defined.

(** C1, counterexample to the claim as stated: the transport is refused
    on the first two attempts and would answer HTTP 200 on a third.  The
    probe sends two requests, sleeps 1s once (never 2s), and returns
    [error], not [healthy]. *)
Lemma refused_twice_gets_no_third_attempt :
  Probe.net_refused_twice "http://svc/api/status" 0
  = inl (OtherException "connection refused")
  /\ Probe.net_refused_twice "http://svc/api/status" 1
     = inl (OtherException "connection refused")
  /\ Probe.net_refused_twice "http://svc/api/status" 2 = inr Probe.ok_response
  /\ Probe.check_system_health Probe.net_refused_twice Probe.tick Probe.keep
       "svc" Probe.svc []
     = (inr (Probe.error_result "svc" (inject_Z 3)
               (OtherException "connection refused")),
        [Get "http://svc/api/status"; Sleep 1; Get "http://svc/api/status"])
  /\ gets (snd (Probe.check_system_health Probe.net_refused_twice Probe.tick
                  Probe.keep "svc" Probe.svc [])) = 2%nat
  /\ delays (snd (Probe.check_system_health Probe.net_refused_twice Probe.tick
                    Probe.keep "svc" Probe.svc [])) = [1]
  /\ Probe.status (Probe.error_result "svc" (inject_Z 3)
                     (OtherException "connection refused")) = "error".
Proof. repeat split. Qed.

(** C3, witness: on a network on which every request times out the
    first timeout is followed by the delay and a second request; on a
    network that refuses the first request and times out on the second the
    result is [timeout]. *)
Lemma timeout_is_retried_witness :
  Probe.probe_url Probe.svc = Some "http://svc/api/status"
  /\ Probe.net_timeout_always "http://svc/api/status" (gets [])
     = inl (TimeoutException "timed out")
  /\ snd (Probe.check_system_health Probe.net_timeout_always Probe.tick
            Probe.keep "svc" Probe.svc [])
     = [] ++ [Get "http://svc/api/status"; Sleep 1; Get "http://svc/api/status"]
  /\ Probe.net_refused_then_timeout "http://svc/api/status" (gets [])
     = inl (OtherException "connection refused")
  /\ Probe.net_refused_then_timeout "http://svc/api/status" (S (gets []))
     = inl (TimeoutException "timed out")
  /\ exists h,
       Probe.check_system_health Probe.net_refused_then_timeout Probe.tick
         Probe.keep "svc" Probe.svc []
       = (inr h, [] ++ [Get "http://svc/api/status"; Sleep 1;
                        Get "http://svc/api/status"])
       /\ Probe.status h = "timeout"
       /\ Probe.response_time_ms h = None
       /\ Probe.error_message h = Some "Request timeout after retries".
Proof.
  split; [reflexivity|]. split; [reflexivity|].
  split.
  { exact (proj1 (proj1 (timeout_is_retried Probe.net_timeout_always Probe.tick
                           Probe.keep "svc" Probe.svc "http://svc/api/status" []
                           eq_refl)
                    "timed out" eq_refl)). }
  split; [reflexivity|]. split; [reflexivity|].
  exact (proj2 (timeout_is_retried Probe.net_refused_then_timeout Probe.tick
                  Probe.keep "svc" Probe.svc "http://svc/api/status" [] eq_refl)
           (OtherException "connection refused") "timed out" eq_refl eq_refl).
Defined.

(** C3, counterexample to the claim as stated: the first attempt times
    out and a further attempt is made all the same; it is answered, and
    the result is [healthy] with a latency. *)
Lemma timeout_is_followed_by_another_attempt :
  Probe.net_timeout_once "http://svc/api/status" 0
  = inl (TimeoutException "timed out")
  /\ snd (Probe.check_system_health Probe.net_timeout_once Probe.tick Probe.keep
            "svc" Probe.svc [])
     = [Get "http://svc/api/status"; Sleep 1; Get "http://svc/api/status"]
  /\ gets (snd (Probe.check_system_health Probe.net_timeout_once Probe.tick
                  Probe.keep "svc" Probe.svc [])) = 2%nat
  /\ fst (Probe.check_system_health Probe.net_timeout_once Probe.tick Probe.keep
            "svc" Probe.svc [])
     = inr {| Probe.system_name := "svc"; Probe.status := "healthy";
              Probe.response_time_ms := Some (inject_Z 3 * 1000)%Q;
              Probe.last_check := inject_Z 3; Probe.error_message := None;
              Probe.meta := Probe.MetaBody "{}" |}.
Proof. repeat split. Qed.

(** ** Result cache *)

Section CacheFacts.

Import Cache.

Context {V : Type}.

Implicit Types (c : gmap string (cache_entry V)) (s : state V)
  (func : nat -> exn + option V).

Lemma cache_hit_fresh c key ttl_arg now e d ts :
  c !! key = Some e -> data e = Some d -> timestamp e = Some ts ->
  ts <> 0 -> now - ts < ttl_arg ->
  cache_hit c key ttl_arg now = Some d.
Proof.
  intros He Hd Hts Hnz Hage. unfold cache_hit.
  rewrite He, Hd, Hts. cbn.
  destruct (Z.eqb_spec ts 0) as [|_]; [contradiction|].
  destruct (Z.ltb_spec (now - ts) ttl_arg) as [_|]; [reflexivity|lia].
Qed.

Lemma cache_hit_expired c key ttl_arg now e ts :
  c !! key = Some e -> timestamp e = Some ts -> ttl_arg <= now - ts ->
  cache_hit c key ttl_arg now = None.
Proof.
  intros He Hts Hage. unfold cache_hit. rewrite He, Hts. cbn.
  destruct (data e); [|reflexivity].
  destruct (Z.ltb_spec (now - ts) ttl_arg) as [|_]; [lia|].
  now rewrite andb_false_r.
Qed.

Lemma cache_hit_cleared c key ttl_arg now e :
  c !! key = Some e -> data e = None ->
  cache_hit c key ttl_arg now = None.
Proof. intros He Hd. unfold cache_hit. now rewrite He, Hd. Qed.

Lemma wrapper_miss key ttl_arg func now s r :
  cache_hit (CACHE s) key ttl_arg now = None ->
  func (calls s) = inr r ->
  wrapper key ttl_arg func now s
  = (inr r,
     {| CACHE := <[key := {| data := r; timestamp := Some now; ttl := ttl_arg |}]>
                   (CACHE s);
        calls := S (calls s) |}).
Proof. intros Hmiss Hf. unfold wrapper. now rewrite Hmiss, Hf. Qed.

(** On a miss the decorated function is awaited once; what it returns or
    raises is what the call returns or raises, and a returned value is
    stored with the time read at entry. *)
Lemma wrapper_miss_awaits key ttl_arg func now s :
  cache_hit (CACHE s) key ttl_arg now = None ->
  fst (wrapper key ttl_arg func now s) = func (calls s)
  /\ calls (snd (wrapper key ttl_arg func now s)) = S (calls s)
  /\ forall r,
       func (calls s) = inr r ->
       CACHE (snd (wrapper key ttl_arg func now s))
       = <[key := {| data := r; timestamp := Some now; ttl := ttl_arg |}]> (CACHE s).
Proof.
  intros Hmiss. unfold wrapper. rewrite Hmiss.
  destruct (func (calls s)) as [e|r]; cbn; repeat split; congruence.
Qed.

Lemma wrapper_hit key ttl_arg func now s d :
  cache_hit (CACHE s) key ttl_arg now = Some d ->
  wrapper key ttl_arg func now s = (inr (Some d), s).
Proof. intros Hhit. unfold wrapper. now rewrite Hhit. Qed.

(** C4: the contract of the cache, for every key, ttl and decorated
    function.  (1) While the entry holds a value stored less than [ttl]
    ago, [wrapper] returns it and leaves the state, the call count
    included, as it was.  (2) Two calls less than [ttl] apart, the first
    of them a miss that computes a value, await the function exactly once
    and return the same value.  (3) A call [ttl] or more after the entry
    was stored awaits the function again, returns or raises what it does,
    and stores a returned result with the current time.  (4) After
    [CACHE[key]["data"] = None] the next call awaits the function whatever
    the time, and stores a returned result.  Clock readings are those of
    [time.time()], which is never zero. *)
Theorem get_or_compute_contract (key : string) (ttl_arg : Z) func :
  (forall now s e d ts,
     CACHE s !! key = Some e -> data e = Some d -> timestamp e = Some ts ->
     ts <> 0 -> now - ts < ttl_arg ->
     wrapper key ttl_arg func now s = (inr (Some d), s))
  /\ (forall t1 t2 s v,
        cache_hit (CACHE s) key ttl_arg t1 = None ->
        func (calls s) = inr (Some v) ->
        t1 <> 0 -> t2 - t1 < ttl_arg ->
        fst (wrapper key ttl_arg func t1 s) = inr (Some v)
        /\ fst (wrapper key ttl_arg func t2 (snd (wrapper key ttl_arg func t1 s)))
           = inr (Some v)
        /\ calls (snd (wrapper key ttl_arg func t2
                         (snd (wrapper key ttl_arg func t1 s))))
           = S (calls s))
  /\ (forall now s e ts,
        CACHE s !! key = Some e -> timestamp e = Some ts ->
        ttl_arg <= now - ts ->
        fst (wrapper key ttl_arg func now s) = func (calls s)
        /\ calls (snd (wrapper key ttl_arg func now s)) = S (calls s)
        /\ forall r,
             func (calls s) = inr r ->
             CACHE (snd (wrapper key ttl_arg func now s))
             = <[key := {| data := r; timestamp := Some now; ttl := ttl_arg |}]>
                 (CACHE s))
  /\ (forall now s e,
        CACHE s !! key = Some e ->
        exists s',
          invalidate key s = inr s'
          /\ calls s' = calls s
          /\ fst (wrapper key ttl_arg func now s') = func (calls s)
          /\ calls (snd (wrapper key ttl_arg func now s')) = S (calls s)
          /\ forall r,
               func (calls s) = inr r ->
               CACHE (snd (wrapper key ttl_arg func now s'))
               = <[key := {| data := r; timestamp := Some now; ttl := ttl_arg |}]>
                   (CACHE s)).
Proof.
  split; [|split; [|split]].
  - intros now s e d ts He Hd Hts Hnz Hage.
    apply wrapper_hit. eauto using cache_hit_fresh.
  - intros t1 t2 s v Hmiss Hf Hnz Hage.
    rewrite (wrapper_miss _ _ _ _ _ _ Hmiss Hf). cbn [fst snd].
    assert (Hhit : cache_hit
                     (<[key := {| data := Some v; timestamp := Some t1;
                                  ttl := ttl_arg |}]> (CACHE s))
                     key ttl_arg t2 = Some v).
    { eapply cache_hit_fresh;
        [apply lookup_insert_eq|reflexivity|reflexivity|exact Hnz|exact Hage]. }
    rewrite (wrapper_hit key ttl_arg func t2 _ v) by exact Hhit.
    auto.
  - intros now s e ts He Hts Hage.
    apply wrapper_miss_awaits. eauto using cache_hit_expired.
  - intros now s e He.
    unfold invalidate, clear_data. rewrite He.
    eexists. split; [reflexivity|]. split; [reflexivity|].
    match goal with
    | |- context [wrapper key ttl_arg func now ?s'] =>
        destruct (wrapper_miss_awaits key ttl_arg func now s') as (Hr & Hc & Hs)
    end.
    { eapply cache_hit_cleared; [apply lookup_insert_eq|reflexivity]. }
    split; [exact Hr|]. split; [exact Hc|].
    intros r Hf. rewrite (Hs r Hf). cbn. apply insert_insert_eq.
Qed.

End CacheFacts.

(** C4, witness: two reads of the overview 59 seconds apart on a cache
    that starts empty. *)
Lemma get_or_compute_contract_witness :
  Cache.cache_hit (Cache.CACHE Cache.fresh_state) "health_overview" 60 1000 = None
  /\ Cache.count_calls (Cache.calls Cache.fresh_state) = inr (Some 0%nat)
  /\ fst (Cache.wrapper "health_overview" 60 Cache.count_calls 1000 Cache.fresh_state)
     = inr (Some 0%nat)
  /\ fst (Cache.wrapper "health_overview" 60 Cache.count_calls 1059
            (snd (Cache.wrapper "health_overview" 60 Cache.count_calls 1000
                    Cache.fresh_state)))
     = inr (Some 0%nat)
  /\ Cache.calls
       (snd (Cache.wrapper "health_overview" 60 Cache.count_calls 1059
               (snd (Cache.wrapper "health_overview" 60 Cache.count_calls 1000
                       Cache.fresh_state))))
     = 1%nat.
Proof.
  split; [reflexivity|]. split; [reflexivity|].
  apply (proj1 (proj2 (get_or_compute_contract "health_overview" 60 Cache.count_calls))
           1000 1059 Cache.fresh_state 0%nat).
  - reflexivity.
  - reflexivity.
  - discriminate.
  - reflexivity.
Defined.

(** The specification's test of the cache, run on the model: two reads
    within 60 seconds await the function once, a read 61 seconds after
    the first awaits it a second time, and a read right after an
    invalidation awaits it a third time. *)
Example cache_reads_and_invalidation :
  (let s1 := snd (Cache.wrapper "k" 60 Cache.count_calls 1000 Cache.fresh_state) in
   let s2 := snd (Cache.wrapper "k" 60 Cache.count_calls 1059 s1) in
   let s3 := snd (Cache.wrapper "k" 60 Cache.count_calls 1061 s2) in
   let s4 := snd (Cache.wrapper "k" 60 Cache.count_calls 1062 s3) in
   match Cache.invalidate "k" s4 with
   | inr s5 =>
       [Cache.calls s1; Cache.calls s2; Cache.calls s3; Cache.calls s4;
        Cache.calls (snd (Cache.wrapper "k" 60 Cache.count_calls 1063 s5))]
   | inl _ => []
   end) = [1; 1; 2; 2; 3]%nat.
Proof. vm_compute. reflexivity. Qed.

(** Clearing a key that was never cached raises [KeyError], whose text is
    the key between quotes. *)
Example missing_key_is_a_key_error :
  Cache.invalidate "performance" Cache.fresh_state
  = inl (OtherException "'performance'").
Proof. reflexivity. Qed.

(** ** Fan-out runner *)

Section FanoutFacts.

Import Probe Fanout.

Context {V : Type}.
Variable net : string -> nat -> exn + response.
Variable now : world -> Q.
Variable round2 : Q -> Q.
Variable store_up : nat -> bool.
Variable clock : nat -> Q.

Abbreviation store_result' := (store_result V store_up clock).
Abbreviation store_results' := (store_results V store_up clock).
Abbreviation run := (run_health_checks V net now round2 store_up clock).

Lemma clear_data_present (c : gmap string (Cache.cache_entry V)) e :
  c !! "health_overview" = Some e ->
  exists c', Cache.clear_data "health_overview" c = inr c'
             /\ overview_cleared c'.
Proof.
  intros He. unfold Cache.clear_data. rewrite He.
  eexists. split; [reflexivity|].
  eexists. split; [apply lookup_insert_eq|reflexivity].
Qed.

(** One iteration either stores nothing and leaves the cache alone, or
    stores the result and clears the overview entry (when there is one). *)
Lemma store_result_cases (st : state V) r :
  (stored (store_result' st r) = stored st
   /\ cache (store_result' st r) = cache st)
  \/ (stored (store_result' st r) = S (stored st)
      /\ (is_Some (cache st !! "health_overview") ->
          overview_cleared (cache (store_result' st r)))).
Proof.
  unfold store_result, stored, insert_health, insert_event.
  destruct r as [e|h]; [left; auto|].
  destruct (store_up (requests (db st))); cbn; [|left; auto].
  right.
  destruct (cache st !! "health_overview") as [e|] eqn:He.
  - destruct (clear_data_present _ _ He) as (c' & -> & Hc').
    split.
    + destruct (String.eqb (status h) "healthy"); cbn;
        [|destruct (store_up _); cbn]; rewrite List.length_app; cbn; lia.
    + intros _.
      destruct (String.eqb (status h) "healthy"); cbn;
        [|destruct (store_up _); cbn]; exact Hc'.
  - unfold Cache.clear_data. rewrite He. cbn.
    split; [rewrite List.length_app; cbn; lia|].
    intros [? [=]].
Qed.

Lemma store_result_keeps_cleared (st : state V) r :
  overview_cleared (cache st) -> overview_cleared (cache (store_result' st r)).
Proof.
  intros Hc.
  destruct (store_result_cases st r) as [[_ ->]|[_ H]]; [exact Hc|].
  apply H. destruct Hc as (e & -> & _). eauto.
Qed.

Lemma store_result_keeps_entry (st : state V) r :
  is_Some (cache st !! "health_overview") ->
  is_Some (cache (store_result' st r) !! "health_overview").
Proof.
  intros Hp.
  destruct (store_result_cases st r) as [[_ ->]|[_ H]]; [exact Hp|].
  destruct (H Hp) as (e & -> & _). eauto.
Qed.

Lemma store_results_cons r results (st : state V) :
  store_results' (r :: results) st = store_results' results (store_result' st r).
Proof. reflexivity. Qed.

Lemma store_results_keep_cleared results : forall st : state V,
  overview_cleared (cache st) -> overview_cleared (cache (store_results' results st)).
Proof.
  induction results as [|r results IH]; intros st Hc; [exact Hc|].
  rewrite store_results_cons. apply IH, store_result_keeps_cleared, Hc.
Qed.

Lemma stored_monotone results : forall st : state V,
  (stored st <= stored (store_results' results st))%nat.
Proof.
  induction results as [|r results IH]; intros st; [reflexivity|].
  rewrite store_results_cons. specialize (IH (store_result' st r)).
  destruct (store_result_cases st r) as [[H _]|[H _]]; lia.
Qed.

Lemma store_results_clear results : forall st : state V,
  is_Some (cache st !! "health_overview") ->
  (stored st < stored (store_results' results st))%nat ->
  overview_cleared (cache (store_results' results st)).
Proof.
  induction results as [|r results IH]; intros st Hp Hlt; [cbn in Hlt; lia|].
  rewrite store_results_cons in *.
  destruct (store_result_cases st r) as [[Hs Hc]|[Hs Hc]].
  - apply IH; [now apply store_result_keeps_entry|lia].
  - apply store_results_keep_cleared, Hc, Hp.
Qed.

Lemma store_results_idle results : forall st : state V,
  stored (store_results' results st) = stored st ->
  cache (store_results' results st) = cache st.
Proof.
  induction results as [|r results IH]; intros st Heq; [reflexivity|].
  rewrite store_results_cons in *.
  pose proof (stored_monotone results (store_result' st r)) as Hmono.
  destruct (store_result_cases st r) as [[Hs Hc]|[Hs Hc]]; [|lia].
  rewrite IH; [exact Hc|lia].
Qed.

(** C8 (as the code has it): the assignment that clears the overview
    entry sits in the loop over the results, after the insert.  A run
    during which at least one result is written to [system_health] leaves
    the entry with [data = None], whatever the statuses of the batch, so
    that the next read of the overview is a miss for every ttl and time;
    a run that writes no result leaves the cache as it was. *)
Theorem run_clears_overview_when_it_stores systems (st : state V) :
  is_Some (cache st !! "health_overview") ->
  ((stored st < stored (run systems st))%nat ->
   overview_cleared (cache (run systems st))
   /\ forall ttl_arg t,
        Cache.cache_hit (cache (run systems st)) "health_overview" ttl_arg t = None)
  /\ (stored (run systems st) = stored st ->
      cache (run systems st) = cache st).
Proof.
  intros Hp. split.
  - intros Hlt.
    pose proof (store_results_clear _ st Hp Hlt) as Hc.
    split; [exact Hc|].
    intros ttl_arg t. destruct Hc as (e & He & Hd).
    exact (cache_hit_cleared _ _ _ _ _ He Hd).
  - apply store_results_idle.
Qed.

End FanoutFacts.

(** C8, witness: one target that answers HTTP 200, a store that is up,
    and a cached overview.  The batch is all healthy and the entry is
    cleared. *)
Lemma run_clears_overview_when_it_stores_witness :
  is_Some (Fanout.cache Fanout.cached_overview !! "health_overview")
  /\ (Fanout.stored Fanout.cached_overview
      < Fanout.stored
          (Fanout.run_health_checks nat Fanout.net_ok Probe.tick Probe.keep
             Fanout.store_always_up Fanout.midnight [("svc", Probe.svc)]
             Fanout.cached_overview))%nat
  /\ List.map Probe.status
       (Fanout.system_health
          (Fanout.db
             (Fanout.run_health_checks nat Fanout.net_ok Probe.tick Probe.keep
                Fanout.store_always_up Fanout.midnight [("svc", Probe.svc)]
                Fanout.cached_overview)))
     = ["healthy"]
  /\ Fanout.overview_cleared
       (Fanout.cache
          (Fanout.run_health_checks nat Fanout.net_ok Probe.tick Probe.keep
             Fanout.store_always_up Fanout.midnight [("svc", Probe.svc)]
             Fanout.cached_overview))
  /\ forall ttl_arg t,
       Cache.cache_hit
         (Fanout.cache
            (Fanout.run_health_checks nat Fanout.net_ok Probe.tick Probe.keep
               Fanout.store_always_up Fanout.midnight [("svc", Probe.svc)]
               Fanout.cached_overview))
         "health_overview" ttl_arg t = None.
Proof.
  assert (Hp : is_Some (Fanout.cache Fanout.cached_overview !! "health_overview"))
    by (eexists; reflexivity).
  assert (Hlt : (Fanout.stored Fanout.cached_overview
      < Fanout.stored
          (Fanout.run_health_checks nat Fanout.net_ok Probe.tick Probe.keep
             Fanout.store_always_up Fanout.midnight [("svc", Probe.svc)]
             Fanout.cached_overview))%nat)
    by (vm_compute; lia).
  split; [exact Hp|]. split; [exact Hlt|]. split; [reflexivity|].
  exact (proj1 (run_clears_overview_when_it_stores Fanout.net_ok Probe.tick
                  Probe.keep Fanout.store_always_up Fanout.midnight
                  [("svc", Probe.svc)] Fanout.cached_overview Hp) Hlt).
Defined.

(** C8, counterexample to the claim as stated: a run over the empty set
    of targets, and a run whose write to the store fails, both leave the
    cached overview in place; a read of the overview ten seconds after it
    was cached is still a hit. *)
Lemma run_without_a_write_keeps_overview :
  Fanout.run_health_checks nat Fanout.net_ok Probe.tick Probe.keep
    Fanout.store_always_up Fanout.midnight [] Fanout.cached_overview
  = Fanout.cached_overview
  /\ Fanout.cache
       (Fanout.run_health_checks nat Fanout.net_ok Probe.tick Probe.keep
          Fanout.store_down Fanout.midnight [("svc", Probe.svc)]
          Fanout.cached_overview)
     = Cache.filled_CACHE
  /\ Cache.cache_hit Cache.filled_CACHE "health_overview" 60 1010 = Some 7%nat.
Proof. repeat split. Qed.

(** ** Retention sweep *)

Lemma filter_Permutation' {A} (f : A -> bool) (l l' : list A) :
  Permutation l l' -> Permutation (List.filter f l) (List.filter f l').
Proof.
  induction 1 as [|x l l' _ IH|x y l|l l' l'' _ IH1 _ IH2]; cbn.
  - constructor.
  - destruct (f x); [now constructor|exact IH].
  - destruct (f x), (f y); try reflexivity. apply perm_swap.
  - now transitivity (List.filter f l').
Qed.

Lemma StronglySorted_middle {A} (R : A -> A -> Prop) (l1 l2 : list A) x :
  StronglySorted R (l1 ++ x :: l2) ->
  Forall (fun a => R a x) l1 /\ Forall (R x) l2.
Proof.
  induction l1 as [|a l1 IH]; cbn; intros Hs.
  - apply StronglySorted_inv in Hs as [_ Hx]. split; [constructor|exact Hx].
  - apply StronglySorted_inv in Hs as [Hs Ha].
    destruct (IH Hs) as [H1 H2]. split; [|exact H2].
    constructor; [|exact H1].
    rewrite List.Forall_forall in Ha. apply Ha, List.in_elt.
Qed.

Section RetentionFacts.

Import Retention.

Lemma insert_desc_Permutation r l : Permutation (insert_desc r l) (r :: l).
Proof.
  induction l as [|x l IH]; cbn; [reflexivity|].
  destruct (created_at x <? created_at r); [reflexivity|].
  rewrite IH. apply perm_swap.
Qed.

Lemma sort_created_at_desc_Permutation l : Permutation (sort_created_at_desc l) l.
Proof.
  induction l as [|r l IH]; cbn; [reflexivity|].
  rewrite insert_desc_Permutation. now constructor.
Qed.

Lemma insert_desc_newest_first r l :
  newest_first l -> newest_first (insert_desc r l).
Proof.
  unfold newest_first.
  induction l as [|x l IH]; cbn; intros Hs.
  - repeat constructor.
  - apply StronglySorted_inv in Hs as [Hs Hx].
    destruct (Z.ltb_spec (created_at x) (created_at r)) as [Hlt|Hge].
    + constructor; [now constructor|].
      constructor; [lia|].
      eapply List.Forall_impl; [|exact Hx]. cbn. intros; lia.
    + constructor; [now apply IH|].
      eapply Permutation_Forall; [symmetry; apply insert_desc_Permutation|].
      constructor; [lia|exact Hx].
Qed.

Lemma sort_created_at_desc_newest_first l : newest_first (sort_created_at_desc l).
Proof.
  induction l as [|r l IH]; cbn; [constructor|].
  now apply insert_desc_newest_first.
Qed.

Lemma select_eq_delete_lt system_key cutoff_id t :
  select_eq system_key (delete_lt system_key cutoff_id t)
  = List.filter (fun r => negb (id r <? cutoff_id)) (select_eq system_key t).
Proof.
  unfold select_eq, delete_lt.
  induction t as [|r t IH]; [reflexivity|]. cbn.
  destruct (String.eqb (system_name r) system_key) eqn:Hk;
    destruct (id r <? cutoff_id) eqn:Hc; cbn; rewrite ?Hk, ?Hc; cbn;
    now rewrite IH.
Qed.

(** Where identities follow creation times and no two rows share one, a
    listing that is newest first is also strictly decreasing in [id]. *)
Lemma newest_first_by_id l :
  List.NoDup (List.map id l) -> ids_follow_creation l -> newest_first l ->
  StronglySorted (fun a b => id b < id a) l.
Proof.
  unfold newest_first.
  induction l as [|a l IH]; intros Hnd Hfol Hs; [constructor|].
  apply StronglySorted_inv in Hs as [Hs Ha].
  cbn in Hnd. apply List.NoDup_cons_iff in Hnd as [Hna Hnd].
  constructor.
  - apply IH; [exact Hnd| |exact Hs].
    intros x y Hx Hy. apply Hfol; now right.
  - rewrite List.Forall_forall in *. intros b Hb.
    specialize (Ha b Hb). cbn in Ha.
    destruct (Z.lt_trichotomy (id b) (id a)) as [Hlt|[Heq|Hgt]]; [exact Hlt| |].
    + exfalso. apply Hna. rewrite <- Heq. now apply List.in_map.
    + pose proof (Hfol a b (or_introl eq_refl) (or_intror Hb) Hgt). lia.
Qed.

Lemma filter_from_cutoff (l1 l2 : list row) r :
  Forall (fun a => id r < id a) l1 ->
  Forall (fun b => id b < id r) l2 ->
  List.filter (fun x => negb (id x <? id r)) (l1 ++ r :: l2) = l1 ++ [r].
Proof.
  intros H1 H2. rewrite List.filter_app. cbn.
  rewrite Z.ltb_irrefl. cbn. f_equal.
  - induction H1 as [|a l1 Ha _ IH]; [reflexivity|]. cbn.
    destruct (Z.ltb_spec (id a) (id r)); [lia|]. cbn. now rewrite IH.
  - f_equal. induction H2 as [|b l2 Hb _ IH]; [reflexivity|]. cbn.
    destruct (Z.ltb_spec (id b) (id r)); [exact IH|lia].
Qed.

(** Every row the sweep deletes has a smaller identity than every row of
    the target it keeps; this needs no assumption on the table. *)
Lemma deleted_below_kept order system_key t x y :
  deleted t (cleanup_system order system_key t) x ->
  In y (select_eq system_key (cleanup_system order system_key t)) ->
  id x < id y.
Proof.
  unfold cleanup_system, deleted.
  destruct (Z.of_nat (length (select_eq system_key t)) >? 1000);
    [|intros [Hx Hnx]; contradiction].
  destruct (nth_error _ 999) as [r|]; [|intros [Hx Hnx]; contradiction].
  intros [Hx Hnx] Hy.
  rewrite select_eq_delete_lt in Hy.
  apply List.filter_In in Hy as [_ Hy].
  unfold delete_lt in Hnx. rewrite List.filter_In in Hnx.
  destruct (Z.ltb_spec (id y) (id r)); [discriminate|].
  destruct (Z.ltb_spec (id x) (id r)); [lia|].
  exfalso. apply Hnx. split; [exact Hx|]. now rewrite andb_false_r.
Qed.

Variable order : list row -> list row.
Hypothesis order_Permutation : forall l, Permutation (order l) l.
Hypothesis order_newest_first : forall l, newest_first (order l).

(** Where the sweep does what its docstring says.  It picks the cutoff
    row by creation time (the row at offset 999 of the target's rows,
    newest first) and deletes by identity (the target's rows with a
    smaller [id]).  For a target with more than 1000 stored rows whose
    identities are distinct and follow the creation times, one run keeps
    exactly the 1000 newest rows, every row it deletes has a smaller
    identity than every row it keeps, and a second run changes nothing. *)
Lemma cleanup_keeps_newest_thousand system_key t :
  (1000 < length (select_eq system_key t))%nat ->
  List.NoDup (List.map id (select_eq system_key t)) ->
  ids_follow_creation (select_eq system_key t) ->
  Permutation (select_eq system_key (cleanup_system order system_key t))
              (firstn 1000 (order (select_eq system_key t)))
  /\ length (select_eq system_key (cleanup_system order system_key t)) = 1000%nat
  /\ (forall x y,
        deleted t (cleanup_system order system_key t) x ->
        In y (select_eq system_key (cleanup_system order system_key t)) ->
        id x < id y)
  /\ cleanup_system order system_key (cleanup_system order system_key t)
     = cleanup_system order system_key t.
Proof.
  intros Hlen Hnd Hfol.
  set (L := select_eq system_key t) in *.
  pose proof (order_Permutation L) as Hperm.
  assert (Hsorted : StronglySorted (fun a b => id b < id a) (order L)).
  { apply newest_first_by_id.
    - eapply Permutation_NoDup; [|exact Hnd].
      apply Permutation_map. now symmetry.
    - intros a b Ha Hb. apply Hfol; eapply Permutation_in; eauto.
    - apply order_newest_first. }
  destruct (nth_error (order L) 999) as [r|] eqn:Hr.
  2:{ apply List.nth_error_None in Hr.
      apply Permutation_length in Hperm. lia. }
  destruct (List.nth_error_split _ _ Hr) as (l1 & l2 & HS & Hl1).
  rewrite HS in Hsorted.
  apply StronglySorted_middle in Hsorted as [H1 H2].
  assert (Hkept : List.filter (fun x => negb (id x <? id r)) (order L) = l1 ++ [r]).
  { rewrite HS. now apply filter_from_cutoff. }
  assert (Hrun : cleanup_system order system_key t = delete_lt system_key (id r) t).
  { unfold cleanup_system. fold L. rewrite Hr.
    destruct (Z.gtb_spec (Z.of_nat (length L)) 1000); [reflexivity|lia]. }
  assert (Hsel : Permutation (select_eq system_key (cleanup_system order system_key t))
                             (l1 ++ [r])).
  { rewrite Hrun, select_eq_delete_lt. fold L. rewrite <- Hkept.
    apply filter_Permutation'. now symmetry. }
  assert (Hcount : length (select_eq system_key (cleanup_system order system_key t))
                   = 1000%nat).
  { rewrite (Permutation_length Hsel), List.length_app, Hl1. reflexivity. }
  split; [|split; [exact Hcount|split]].
  - rewrite Hsel, HS.
    replace 1000%nat with (length l1 + 1)%nat by lia.
    now rewrite List.firstn_app_2.
  - intros x y. apply deleted_below_kept.
  - unfold cleanup_system at 1. rewrite Hcount. reflexivity.
Qed.

End RetentionFacts.

Lemma in_step_ids_follow_creation l :
  forallb (fun r => Retention.created_at r =? Retention.id r) l = true ->
  Retention.ids_follow_creation l.
Proof.
  intros Hall a b Ha Hb Hlt.
  rewrite List.forallb_forall in Hall.
  pose proof (Hall a Ha) as Ea. pose proof (Hall b Hb) as Eb.
  cbn in Ea, Eb. lia.
Qed.

(** 1500 rows of one target whose identities and creation times advance
    together, with the insertion sort as the store's ordering: 1000 rows
    are left and a second run changes nothing. *)
Lemma cleanup_keeps_newest_thousand_witness :
  (1000 < length (Retention.select_eq "svc" Retention.steady_history))%nat
  /\ length (Retention.select_eq "svc" Retention.steady_history) = 1500%nat
  /\ length (Retention.select_eq "svc"
               (Retention.cleanup_system Retention.sort_created_at_desc "svc"
                  Retention.steady_history)) = 1000%nat
  /\ Retention.cleanup_system Retention.sort_created_at_desc "svc"
       (Retention.cleanup_system Retention.sort_created_at_desc "svc"
          Retention.steady_history)
     = Retention.cleanup_system Retention.sort_created_at_desc "svc"
         Retention.steady_history.
Proof.
  assert (Hlen : (1000 < length (Retention.select_eq "svc" Retention.steady_history))%nat)
    by (vm_compute; lia).
  assert (Hnd : List.NoDup (List.map Retention.id
                              (Retention.select_eq "svc" Retention.steady_history))).
  { apply NoDup_ListNoDup.
    apply (bool_decide_unpack _). vm_compute. exact I. }
  assert (Hfol : Retention.ids_follow_creation
                   (Retention.select_eq "svc" Retention.steady_history)).
  { apply in_step_ids_follow_creation. vm_compute. reflexivity. }
  pose proof (cleanup_keeps_newest_thousand Retention.sort_created_at_desc
                sort_created_at_desc_Permutation
                sort_created_at_desc_newest_first
                "svc" Retention.steady_history Hlen Hnd Hfol)
    as (_ & Hcount & _ & Hagain).
  split; [exact Hlen|]. split; [vm_compute; reflexivity|].
  split; [exact Hcount|exact Hagain].
Defined.

Lemma ties_oldest_first_Permutation l :
  Permutation (Retention.ties_oldest_first l) l.
Proof.
  unfold Retention.ties_oldest_first.
  rewrite sort_created_at_desc_Permutation. symmetry. apply Permutation_rev.
Qed.

Lemma ties_oldest_first_newest_first l :
  Retention.newest_first (Retention.ties_oldest_first l).
Proof. apply sort_created_at_desc_newest_first. Qed.

(** C5, the sweep at two tables of 1500 rows of one target with
    identities 1 to 1500, where it does not keep the last 1000 checks its
    docstring promises: the cutoff is found by creation time and the
    deletion is by identity.  In the first the row with identity 1 has
    the latest creation time: the cutoff is the row with identity 502, the
    sweep leaves 999 rows, and the row with identity 1 that it deleted is
    the most recently created of all.  In the second the rows 500 and 501
    share a creation time and the store lists 500 before 501: the cutoff
    is the row with identity 500 and the sweep leaves 1001 rows. *)
Lemma cleanup_by_creation_time_misses_1000 :
  length (Retention.select_eq "svc" Retention.skewed_history) = 1500%nat
  /\ List.hd_error (Retention.sort_created_at_desc Retention.skewed_history)
     = Some {| Retention.id := 1; Retention.system_name := "svc";
               Retention.created_at := 5000 |}
  /\ option_map Retention.id
       (nth_error (Retention.sort_created_at_desc
                     (Retention.select_eq "svc" Retention.skewed_history)) 999)
     = Some 502
  /\ length (Retention.select_eq "svc"
               (Retention.cleanup_system Retention.sort_created_at_desc "svc"
                  Retention.skewed_history)) = 999%nat
  /\ existsb (fun r => Retention.id r =? 1)
       (Retention.cleanup_system Retention.sort_created_at_desc "svc"
          Retention.skewed_history) = false
  /\ length (Retention.select_eq "svc" Retention.tied_history) = 1500%nat
  /\ option_map Retention.id
       (nth_error (Retention.ties_oldest_first
                     (Retention.select_eq "svc" Retention.tied_history)) 999)
     = Some 500
  /\ length (Retention.select_eq "svc"
               (Retention.cleanup_system Retention.ties_oldest_first "svc"
                  Retention.tied_history)) = 1001%nat.
Proof. vm_compute. repeat split. Qed.

(** ** Statistics *)

Section StatsFacts.

Import Stats.

Lemma truthy_num_zero q : (q == 0)%Q -> truthy_num (Some q) = false.
Proof.
  intros Hq. cbn. apply negb_false_iff. now apply Qeq_bool_iff.
Qed.

Lemma truthy_num_nonzero q : truthy_num (Some q) = true <-> ~ (q == 0)%Q.
Proof.
  cbn. rewrite negb_true_iff. split.
  - intros Hb Hq. apply Qeq_bool_iff in Hq. congruence.
  - intros Hq. destruct (Qeq_bool q 0) eqn:Hb; [|reflexivity].
    apply Qeq_bool_iff in Hb. contradiction.
Qed.

(** The latency sample set: the latencies that are defined and not zero. *)
Lemma in_latencies data q :
  In q (latencies data)
  <-> exists r, In r data /\ response_time_ms r = Some q /\ ~ (q == 0)%Q.
Proof.
  unfold latencies. rewrite List.in_map_iff. split.
  - intros (r & Hq & Hr). apply List.filter_In in Hr as [Hr Ht].
    destruct (response_time_ms r) as [q'|] eqn:Hl; [|discriminate].
    cbn in Hq. subst q'. exists r. repeat split; [exact Hr|exact Hl|].
    now apply truthy_num_nonzero.
  - intros (r & Hr & Hl & Hq). exists r. rewrite Hl. split; [reflexivity|].
    apply List.filter_In. split; [exact Hr|].
    rewrite Hl. now apply truthy_num_nonzero.
Qed.

Lemma latencies_app l1 l2 : latencies (l1 ++ l2) = latencies l1 ++ latencies l2.
Proof. unfold latencies. now rewrite List.filter_app, List.map_app. Qed.

Lemma error_messages_app l1 l2 :
  error_messages (l1 ++ l2) = error_messages l1 ++ error_messages l2.
Proof. unfold error_messages. now rewrite List.filter_app, List.map_app. Qed.

(** One step of the loop on the counters of [l] gives the counters of
    [l] followed by the record. *)
Lemma summary_of_snoc l r (m : gmap string sys_stats) :
  m !! system_name r = entry_of l ->
  add_record m r = <[system_name r := summary_of (l ++ [r])]> m.
Proof.
  intros Hm. unfold add_record. rewrite Hm.
  replace (default new_stats (entry_of l)) with (summary_of l) by now destruct l.
  f_equal. unfold summary_of.
  rewrite !List.filter_app, !List.length_app, latencies_app, error_messages_app.
  unfold latencies, error_messages. cbn.
  destruct (is_healthy r); destruct (truthy_str (error_message r));
    destruct (truthy_num (response_time_ms r)); cbn;
    rewrite ?List.app_nil_r; f_equal; lia.
Qed.

Lemma of_system_snoc s l r :
  of_system s (l ++ [r])
  = if String.eqb (system_name r) s then of_system s l ++ [r] else of_system s l.
Proof.
  unfold of_system. rewrite List.filter_app. cbn.
  destruct (String.eqb (system_name r) s); [reflexivity|apply List.app_nil_r].
Qed.

(** The dictionary the loop builds holds, for every system that occurs in
    the window, the counters of that system's records. *)
Lemma system_stats_lookup window : forall s,
  system_stats window !! s = entry_of (of_system s window).
Proof.
  induction window as [|r window IH] using List.rev_ind; intros s.
  - reflexivity.
  - unfold system_stats in *. rewrite List.fold_left_app. cbn.
    rewrite (summary_of_snoc (of_system (system_name r) window)) by apply IH.
    rewrite of_system_snoc.
    destruct (String.eqb_spec (system_name r) s) as [<-|Hne].
    + rewrite lookup_insert_eq.
      now destruct (of_system (system_name r) window).
    + rewrite lookup_insert_ne by exact Hne. apply IH.
Qed.

Lemma min_spec l x :
  let m := fold_left (fun m y => if Qle_bool m y then m else y) l x in
  In m (x :: l) /\ Forall (fun y => (m <= y)%Q) (x :: l).
Proof.
  revert x. induction l as [|y l IH]; intros x; cbn.
  - split; [now left|]. constructor; [apply Qle_refl|constructor].
  - destruct (Qle_bool x y) eqn:Hxy.
    + apply Qle_bool_iff in Hxy.
      destruct (IH x) as [Hin Hall]. cbn in Hin, Hall.
      apply List.Forall_cons_iff in Hall as [Hx Hall].
      split; [destruct Hin; auto|].
      constructor; [exact Hx|]. constructor; [|exact Hall].
      now apply Qle_trans with x.
    + assert (Hyx : (y <= x)%Q).
      { apply Qlt_le_weak, Qnot_le_lt. intros H. apply Qle_bool_iff in H. congruence. }
      destruct (IH y) as [Hin Hall]. cbn in Hin, Hall.
      apply List.Forall_cons_iff in Hall as [Hy Hall].
      split; [destruct Hin; auto|].
      constructor; [now apply Qle_trans with y|]. now constructor.
Qed.

Lemma max_spec l x :
  let m := fold_left (fun m y => if Qle_bool y m then m else y) l x in
  In m (x :: l) /\ Forall (fun y => (y <= m)%Q) (x :: l).
Proof.
  revert x. induction l as [|y l IH]; intros x; cbn.
  - split; [now left|]. constructor; [apply Qle_refl|constructor].
  - destruct (Qle_bool y x) eqn:Hyx.
    + apply Qle_bool_iff in Hyx.
      destruct (IH x) as [Hin Hall]. cbn in Hin, Hall.
      apply List.Forall_cons_iff in Hall as [Hx Hall].
      split; [destruct Hin; auto|].
      constructor; [exact Hx|]. constructor; [|exact Hall].
      now apply Qle_trans with x.
    + assert (Hxy : (x <= y)%Q).
      { apply Qlt_le_weak, Qnot_le_lt. intros H. apply Qle_bool_iff in H. congruence. }
      destruct (IH y) as [Hin Hall]. cbn in Hin, Hall.
      apply List.Forall_cons_iff in Hall as [Hy Hall].
      split; [destruct Hin; auto|].
      constructor; [now apply Qle_trans with y|]. now constructor.
Qed.

End StatsFacts.

Section StatsClaims.

Import Stats.

Variable round2 : Q -> Q.

(** C6 (as the code has it).  In the summary of
    [generate_recommendations] the entry of a system holds the counters of
    its records, [uptime] is [healthy / total * 100] (and [0], without a
    division, for counters with [total = 0]), and [avg_response] is the
    mean of the latencies that are defined and not zero, or the number [0]
    when there is none.  [get_performance_metrics] leaves a system with no
    record out, and otherwise reports [uptime_24h] as the rounded
    [healthy / total * 100] and the rounded mean, least and greatest of
    the latencies that are defined and not zero, or [None] for the three
    when there is none. *)
Theorem stats_as_computed (window : list record) :
  (forall s st,
     system_stats window !! s = Some st ->
     st = summary_of (of_system s window)
     /\ 0 < total st
     /\ uptime st = (inject_Z (healthy st) / inject_Z (total st) * 100)%Q
     /\ avg_response st
        = match latencies (of_system s window) with
          | [] => 0%Q
          | _ => (sum (latencies (of_system s window))
                  / len (latencies (of_system s window)))%Q
          end)
  /\ (forall st, total st <= 0 -> uptime st = 0%Q)
  /\ (performance_metrics round2 window = None <-> window = [])
  /\ (forall m,
        performance_metrics round2 window = Some m ->
        total_checks m = Z.of_nat (length window)
        /\ healthy_checks m = healthy_count window
        /\ uptime_24h m
           = round2 (inject_Z (healthy_count window) / len window * 100)%Q
        /\ match latencies window with
           | [] =>
               avg_response_time m = None
               /\ min_response_time m = None
               /\ max_response_time m = None
           | _ =>
               avg_response_time m
               = Some (round2 (sum (latencies window) / len (latencies window))%Q)
               /\ exists lo hi,
                    min_response_time m = Some (round2 lo)
                    /\ max_response_time m = Some (round2 hi)
                    /\ In lo (latencies window)
                    /\ In hi (latencies window)
                    /\ Forall (fun q => (lo <= q)%Q /\ (q <= hi)%Q) (latencies window)
           end)
  /\ (forall q,
        In q (latencies window)
        <-> exists r, In r window /\ response_time_ms r = Some q /\ ~ (q == 0)%Q).
Proof.
  split; [|split; [|split; [|split]]].
  - intros s st Hst. rewrite system_stats_lookup in Hst.
    destruct (of_system s window) as [|r l] eqn:Hl; [discriminate|].
    injection Hst as <-.
    split; [reflexivity|]. split; [cbn; lia|]. split; [|reflexivity].
    unfold uptime. cbn [total summary_of].
    destruct (Z.gtb_spec (Z.of_nat (length (r :: l))) 0) as [_|H];
      [reflexivity|cbn in H; lia].
  - intros st Hst. unfold uptime.
    destruct (Z.gtb_spec (total st) 0); [lia|reflexivity].
  - destruct window; cbn; split; congruence.
  - intros m Hm. destruct window as [|r data]; [discriminate|].
    unfold performance_metrics in Hm. injection Hm as <-. cbn -[latencies healthy_count len].
    repeat (split; [reflexivity|]).
    destruct (latencies (r :: data)) as [|x l] eqn:Hl; [auto|].
    split; [reflexivity|].
    destruct (min_spec l x) as [Hlo_in Hlo]. destruct (max_spec l x) as [Hhi_in Hhi].
    eexists _, _. cbn. repeat (split; [first [reflexivity|eassumption]|]).
    rewrite List.Forall_forall in *. intros q Hq. split; [now apply Hlo|now apply Hhi].
  - apply in_latencies.
Qed.

End StatsClaims.

(** C6, witness: the window of the specification's example, two healthy
    results of 100 ms and 200 ms and one failure: uptime 200/3 (66.7 to
    one decimal) and mean latency 150. *)
Lemma stats_as_computed_witness :
  Stats.system_stats Stats.example_window !! "svc"
  = Some (Stats.summary_of Stats.example_window)
  /\ 0 < Stats.total (Stats.summary_of Stats.example_window)
  /\ (Stats.uptime (Stats.summary_of Stats.example_window) == 200 # 3)%Q
  /\ (Stats.avg_response (Stats.summary_of Stats.example_window) == 150)%Q.
Proof.
  assert (H : Stats.system_stats Stats.example_window !! "svc"
              = Some (Stats.summary_of Stats.example_window))
    by (vm_compute; reflexivity).
  destruct (proj1 (stats_as_computed Probe.keep Stats.example_window) "svc" _ H)
    as (_ & Hpos & Hup & Havg).
  split; [exact H|]. split; [exact Hpos|].
  split; [rewrite Hup|rewrite Havg]; vm_compute; reflexivity.
Defined.

(** C6, counterexample to the claim as stated.  On a window in which no
    result has a latency the summary of [generate_recommendations] gives
    the average [0], where the claim has none.  On a window with a 0 ms
    sample and a 100 ms sample both paths average over the 100 ms sample
    alone and give 100, where the mean over the results with a defined
    latency is 100/2. *)
Lemma unanswered_window_averages_zero :
  Stats.spec_avg_latency Stats.unanswered_window = None
  /\ option_map Stats.avg_response
       (Stats.system_stats Stats.unanswered_window !! "svc") = Some 0%Q
  /\ Stats.spec_avg_latency Stats.zero_window = Some (100 # 2)%Q
  /\ option_map Stats.avg_response
       (Stats.system_stats Stats.zero_window !! "svc") = Some (100 # 1)%Q
  /\ option_map Stats.avg_response_time
       (Stats.performance_metrics Probe.keep Stats.zero_window)
     = Some (Some (100 # 1)%Q).
Proof. vm_compute. repeat split. Qed.

Section ErrorSummary.

Import Stats.

Lemma size_list_to_set_le (l : list string) :
  (size (list_to_set l : gset string) <= length l)%nat.
Proof.
  induction l as [|x l IH]; cbn.
  - now rewrite size_empty.
  - rewrite size_union_alt, size_singleton.
    assert (Hsub : (list_to_set l : gset string) ∖ {[x]} ⊆ list_to_set l)
      by now apply subseteq_difference_l.
    apply subseteq_size in Hsub. lia.
Qed.

Lemma in_error_messages l e :
  In e (error_messages l)
  <-> exists r, In r l /\ status r <> "healthy" /\ error_message r = Some e /\ e <> "".
Proof.
  unfold error_messages. rewrite List.in_map_iff. split.
  - intros (r & He & Hr). apply List.filter_In in Hr as [Hr Hp].
    apply andb_true_iff in Hp as [Hh Ht].
    destruct (error_message r) as [e'|] eqn:Hm; [|discriminate].
    cbn in He. subst e'. exists r.
    split; [exact Hr|]. split; [|split; [exact Hm|]].
    + unfold is_healthy in Hh. apply negb_true_iff in Hh. now apply String.eqb_neq.
    + cbn in Ht. apply negb_true_iff in Ht. now apply String.eqb_neq.
  - intros (r & Hr & Hs & Hm & He). exists r. rewrite Hm. split; [reflexivity|].
    apply List.filter_In. split; [exact Hr|].
    apply andb_true_iff. split.
    + unfold is_healthy. apply negb_true_iff. now apply String.eqb_neq.
    + rewrite Hm. cbn. apply negb_true_iff. now apply String.eqb_neq.
Qed.

(** C7 (as the code has it): the error line of a system is written when
    one of its results that is not healthy has a non-empty message, and
    then holds the set (a Python [set], without an order of its own) of
    the values among the first three such messages of the window, which
    is newest first: at most 3 distinct messages, each the non-empty
    [error_message] of a result of that system in the window that is not
    healthy. *)
Theorem recent_errors_as_computed (window : list record) s st :
  system_stats window !! s = Some st ->
  errors st = error_messages (of_system s window)
  /\ recent_errors st
     = match error_messages (of_system s window) with
       | [] => None
       | _ => Some (list_to_set (take 3 (error_messages (of_system s window))))
       end
  /\ forall S : gset string,
       recent_errors st = Some S ->
       (size S <= 3)%nat
       /\ (forall e, e ∈ S <-> In e (take 3 (errors st)))
       /\ (forall e, e ∈ S ->
             e <> ""
             /\ exists r, In r window /\ system_name r = s
                          /\ status r <> "healthy" /\ error_message r = Some e).
Proof.
  intros Hst. rewrite system_stats_lookup in Hst.
  unfold entry_of in Hst.
  destruct (of_system s window) as [|r0 l] eqn:Hl; [discriminate|].
  injection Hst as <-. rewrite <- Hl. clear r0 l Hl.
  split; [reflexivity|]. split; [reflexivity|].
  intros S HS. unfold recent_errors in HS. cbn [errors summary_of] in *.
  remember (error_messages (of_system s window)) as E eqn:HE.
  destruct E as [|e0 es]; [discriminate|]. injection HS as <-.
  assert (Hmem : forall e,
    e ∈ (list_to_set (take 3 (e0 :: es)) : gset string)
    <-> In e (take 3 (e0 :: es))).
  { intros e. now rewrite elem_of_list_to_set, list_elem_of_In. }
  split; [|split; [exact Hmem|]].
  - etransitivity; [exact (size_list_to_set_le (take 3 (e0 :: es)))|].
    rewrite List.length_firstn. lia.
  - intros e Hin. apply Hmem in Hin.
    apply list_elem_of_In, (subseteq_take 3 (e0 :: es)), list_elem_of_In in Hin.
    rewrite HE in Hin.
    apply in_error_messages in Hin as (r & Hr & Hs & Hm & Hne).
    split; [exact Hne|]. exists r.
    apply List.filter_In in Hr as [Hr Hk].
    apply String.eqb_eq in Hk. auto.
Qed.

(** C10: a stored result whose [response_time_ms] is 0 is read as a
    result without a latency, in both statistics.  Whatever the window
    around it, the latency samples are those of the window without that
    result, and the dictionary of [generate_recommendations] and the
    figures of [get_performance_metrics] (average, least and greatest
    included) are what they would be had the field been [None]. *)
Theorem zero_latency_counts_as_missing (round2 : Q -> Q) l1 r l2 q :
  response_time_ms r = Some q -> (q == 0)%Q ->
  latencies (l1 ++ r :: l2) = latencies (l1 ++ l2)
  /\ ~ In q (latencies (l1 ++ r :: l2))
  /\ system_stats (l1 ++ r :: l2) = system_stats (l1 ++ without_latency r :: l2)
  /\ performance_metrics round2 (l1 ++ r :: l2)
     = performance_metrics round2 (l1 ++ without_latency r :: l2).
Proof.
  intros Hr Hq.
  assert (Ht : truthy_num (response_time_ms r) = false)
    by (rewrite Hr; now apply truthy_num_zero).
  assert (Hlat : forall l, latencies (l1 ++ r :: l) = latencies (l1 ++ l)).
  { intros l. rewrite !latencies_app. f_equal.
    unfold latencies. cbn. now rewrite Ht. }
  assert (Hlat' : latencies (l1 ++ without_latency r :: l2) = latencies (l1 ++ l2)).
  { rewrite !latencies_app. reflexivity. }
  split; [apply Hlat|]. split; [|split].
  - rewrite in_latencies. intros (r' & _ & _ & Hnz). contradiction.
  - unfold system_stats. rewrite !List.fold_left_app. cbn. f_equal.
    unfold add_record. cbn. now rewrite Ht.
  - assert (Hh : healthy_count (l1 ++ r :: l2)
                 = healthy_count (l1 ++ without_latency r :: l2)).
    { unfold healthy_count. rewrite !List.filter_app, !List.length_app. cbn.
      unfold is_healthy. cbn. now destruct (String.eqb (status r) "healthy"). }
    assert (Hn : length (l1 ++ r :: l2) = length (l1 ++ without_latency r :: l2)).
    { rewrite !List.length_app. reflexivity. }
    unfold performance_metrics, len.
    rewrite Hh, Hn, Hlat, Hlat'.
    now destruct l1.
Qed.

End ErrorSummary.

(** C7, witness: the window of the specification's example. *)
Lemma recent_errors_as_computed_witness :
  Stats.system_stats Stats.example_window !! "svc"
  = Some (Stats.summary_of Stats.example_window)
  /\ Stats.errors (Stats.summary_of Stats.example_window)
     = Stats.error_messages (Stats.of_system "svc" Stats.example_window)
  /\ Stats.error_messages (Stats.of_system "svc" Stats.example_window) = ["x"]
  /\ Stats.recent_errors (Stats.summary_of Stats.example_window)
     = Some ({["x"]} : gset string).
Proof.
  assert (H : Stats.system_stats Stats.example_window !! "svc"
              = Some (Stats.summary_of Stats.example_window))
    by (vm_compute; reflexivity).
  destruct (recent_errors_as_computed Stats.example_window "svc" _ H)
    as (He & Hr & _).
  split; [exact H|]. split; [exact He|]. split; [reflexivity|].
  rewrite Hr. vm_compute. reflexivity.
Defined.

(** C7, counterexample to the claim as stated: the three most recent
    failures of the window carry the message ["x"] and an older one the
    message ["y"].  The distinct messages of the window, most recent
    first, are ["x"] and ["y"]; the code cuts the list to three entries
    before it removes the repetitions and is left with ["x"] alone. *)
Lemma repeated_message_hides_older_one :
  Stats.spec_distinct_recent_errors Stats.repeated_window = ["x"; "y"]
  /\ (Stats.system_stats Stats.repeated_window !! "svc") ≫= Stats.recent_errors
     = Some ({["x"]} : gset string)
  /\ "y" ∉ ({["x"]} : gset string).
Proof.
  split; [reflexivity|]. split; [vm_compute; reflexivity|].
  intros H. apply elem_of_singleton in H. discriminate.
Qed.

(** C10, witness: a window with a 0 ms sample and a 100 ms sample. *)
Lemma zero_latency_counts_as_missing_witness :
  Stats.response_time_ms (Stats.healthy_in 0) = Some 0%Q
  /\ (0 == 0)%Q
  /\ Stats.latencies ([] ++ Stats.healthy_in 0 :: [Stats.healthy_in 100])
     = Stats.latencies ([] ++ [Stats.healthy_in 100])
  /\ ~ In 0%Q (Stats.latencies ([] ++ Stats.healthy_in 0 :: [Stats.healthy_in 100]))
  /\ Stats.system_stats ([] ++ Stats.healthy_in 0 :: [Stats.healthy_in 100])
     = Stats.system_stats
         ([] ++ Stats.without_latency (Stats.healthy_in 0) :: [Stats.healthy_in 100])
  /\ Stats.performance_metrics Probe.keep
       ([] ++ Stats.healthy_in 0 :: [Stats.healthy_in 100])
     = Stats.performance_metrics Probe.keep
         ([] ++ Stats.without_latency (Stats.healthy_in 0) :: [Stats.healthy_in 100]).
Proof.
  split; [reflexivity|]. split; [reflexivity|].
  exact (zero_latency_counts_as_missing Probe.keep [] (Stats.healthy_in 0)
           [Stats.healthy_in 100] 0%Q eq_refl (Qeq_refl 0)).
Defined.

(** ** The generator's reply *)

Section ReplyFacts.

Import Reply.

Lemma prefix_all s : forall n, (codepoints s <= n)%nat -> prefix n s = s.
Proof.
  induction s as [|c s IH]; intros n Hlen; [reflexivity|].
  cbn [prefix codepoints] in *.
  destruct (is_continuation c).
  - f_equal. now apply IH.
  - destruct n as [|n]; [lia|]. f_equal. apply IH. lia.
Qed.

Lemma prefix_codepoints s : forall n,
  codepoints (prefix n s) = Nat.min n (codepoints s).
Proof.
  induction s as [|c s IH]; intros n; [now destruct n|].
  cbn [prefix codepoints].
  destruct (is_continuation c) eqn:Hc.
  - cbn [codepoints]. rewrite Hc. apply IH.
  - destruct n as [|n]; [reflexivity|].
    cbn [codepoints]. rewrite Hc, IH. reflexivity.
Qed.

Lemma prefix_is_prefix s : forall n, exists rest, s = prefix n s +:+ rest.
Proof.
  induction s as [|c s IH]; intros n; [now exists EmptyString|].
  cbn [prefix].
  destruct (is_continuation c).
  - destruct (IH n) as [rest Hrest]. exists rest.
    change (String c s = String c (prefix n s +:+ rest)). congruence.
  - destruct n as [|n]; [now exists (String c s)|].
    destruct (IH n) as [rest Hrest]. exists rest.
    change (String c s = String c (prefix n s +:+ rest)). congruence.
Qed.

Lemma prefix_cuts s n : (n < codepoints s)%nat -> prefix n s <> s.
Proof.
  intros Hlen Heq.
  pose proof (prefix_codepoints s n) as H. rewrite Heq in H. lia.
Qed.

Variable json_loads : string -> loads.
Variable t : Q.

(** C9 (as the code has it): when the reply holds no bracketed text, or
    [json.loads] rejects the bracketed text with [json.JSONDecodeError],
    [generate_recommendations] returns one record, the fallback, whose
    description is the first 1000 characters of the reply: the reply
    itself when it has at most 1000 characters, and otherwise a proper
    prefix of it of 1000 characters.  When [json.loads] raises another
    exception, or decodes a value that is not a list of objects, the
    reply is not kept at all: the result is the empty list. *)
Theorem fallback_keeps_first_thousand_characters (recommendations_text : string) :
  (extraction_fails json_loads recommendations_text ->
   parse_reply json_loads t recommendations_text = [fallback t recommendations_text]
   /\ description (fallback t recommendations_text)
      = JStr (prefix 1000 recommendations_text)
   /\ ((codepoints recommendations_text <= 1000)%nat ->
       description (fallback t recommendations_text) = JStr recommendations_text)
   /\ ((1000 < codepoints recommendations_text)%nat ->
       prefix 1000 recommendations_text <> recommendations_text)
   /\ codepoints (prefix 1000 recommendations_text)
      = Nat.min 1000 (codepoints recommendations_text)
   /\ exists rest,
        recommendations_text = prefix 1000 recommendations_text +:+ rest)
  /\ (forall m e,
        re_search recommendations_text = Some m ->
        json_loads m = Raised e ->
        parse_reply json_loads t recommendations_text = [])
  /\ (forall m v,
        re_search recommendations_text = Some m ->
        json_loads m = Decoded v ->
        (forall items, v = JArr items -> format_recs t items = None) ->
        parse_reply json_loads t recommendations_text = []).
Proof.
  unfold extraction_fails, parse_reply.
  split; [|split].
  - intros Hfail.
    split; [|split; [reflexivity|split; [|split; [|split]]]].
    + destruct (re_search recommendations_text) as [m|]; [|reflexivity].
      now rewrite Hfail.
    + intros Hlen.
      change (JStr (prefix 1000 recommendations_text) = JStr recommendations_text).
      now rewrite prefix_all.
    + apply prefix_cuts.
    + apply prefix_codepoints.
    + apply prefix_is_prefix.
  - intros m e -> ->. reflexivity.
  - intros m v -> -> Hv.
    destruct v as [| | | |items|]; try reflexivity.
    now rewrite (Hv items eq_refl).
Qed.

End ReplyFacts.

(** C9, witness: a short reply in prose is kept whole, and so is a reply
    of 600 accented characters, which takes 1200 bytes; a reply whose
    brackets exhaust the decoder's recursion limit is dropped. *)
Lemma fallback_keeps_first_thousand_characters_witness :
  Reply.extraction_fails Reply.rejects_all "All systems nominal."
  /\ Reply.parse_reply Reply.rejects_all 0 "All systems nominal."
     = [Reply.fallback 0 "All systems nominal."]
  /\ Reply.description (Reply.fallback 0 "All systems nominal.")
     = Reply.JStr "All systems nominal."
  /\ Reply.extraction_fails Reply.rejects_all Reply.accented_reply
  /\ String.length Reply.accented_reply = 1200%nat
  /\ Reply.codepoints Reply.accented_reply = 600%nat
  /\ Reply.description (Reply.fallback 0 Reply.accented_reply)
     = Reply.JStr Reply.accented_reply
  /\ Reply.re_search Reply.nested_reply = Some Reply.nested_reply
  /\ Reply.parse_reply Reply.recursion_limit 0 Reply.nested_reply = [].
Proof.
  assert (H : Reply.extraction_fails Reply.rejects_all "All systems nominal.")
    by exact I.
  assert (H' : Reply.extraction_fails Reply.rejects_all Reply.accented_reply)
    by (vm_compute; exact I).
  assert (Hm : Reply.re_search Reply.nested_reply = Some Reply.nested_reply)
    by (vm_compute; reflexivity).
  destruct (proj1 (fallback_keeps_first_thousand_characters Reply.rejects_all 0
                     "All systems nominal.") H) as (Hp & _ & Hd & _).
  destruct (proj1 (fallback_keeps_first_thousand_characters Reply.rejects_all 0
                     Reply.accented_reply) H') as (_ & _ & Hd' & _).
  split; [exact H|]. split; [exact Hp|].
  split; [apply Hd; vm_compute; lia|].
  split; [exact H'|].
  split; [vm_compute; reflexivity|]. split; [vm_compute; reflexivity|].
  split; [apply Hd'; vm_compute; lia|].
  split; [exact Hm|].
  apply (proj1 (proj2 (fallback_keeps_first_thousand_characters
                         Reply.recursion_limit 0 Reply.nested_reply))
           Reply.nested_reply (OtherException "maximum recursion depth exceeded") Hm).
  vm_compute. reflexivity.
Defined.

(** C9, counterexample to the claim as stated.  A reply of 1001
    characters from which nothing can be extracted: the fallback record
    holds 1000 characters of it and the last one is lost.  A reply whose
    brackets exhaust the decoder's recursion limit: no record at all is
    returned. *)
Lemma long_reply_is_truncated :
  Reply.codepoints Reply.long_reply = 1001%nat
  /\ Reply.re_search Reply.long_reply = None
  /\ Reply.parse_reply Reply.rejects_all 0 Reply.long_reply
     = [Reply.fallback 0 Reply.long_reply]
  /\ Reply.description (Reply.fallback 0 Reply.long_reply)
     = Reply.JStr (Reply.prefix 1000 Reply.long_reply)
  /\ Reply.codepoints (Reply.prefix 1000 Reply.long_reply) = 1000%nat
  /\ String.length (Reply.prefix 1000 Reply.long_reply) = 1000%nat
  /\ String.eqb (Reply.prefix 1000 Reply.long_reply) Reply.long_reply = false
  /\ Reply.re_search Reply.nested_reply = Some Reply.nested_reply
  /\ Reply.recursion_limit Reply.nested_reply
     = Reply.Raised (OtherException "maximum recursion depth exceeded")
  /\ Reply.parse_reply Reply.recursion_limit 0 Reply.nested_reply = [].
Proof. vm_compute. repeat split. Qed.

(** A reply whose bracketed text decodes to a list of items that are not
    objects: the loop raises, the outer handler returns the empty list. *)
Example list_of_numbers_gives_nothing :
  Reply.parse_reply Reply.decodes_one 0 "Scores: [1]" = [].
Proof. reflexivity. Qed.

(** * Further properties *)

(** ** Retrying in general *)

Section RetryInGeneral.

Import Probe.

Variable net : string -> nat -> exn + response.

Lemma delays_backoff_geometric u base_delay k :
  delays (backoff u base_delay 0 k) = Batch.geometric base_delay k.
Proof. apply delays_backoff. Qed.

(** X1: when the first [k] requests fail and the next one is answered,
    with [k] below [max_retries], [retry_with_backoff] returns that answer
    after [k + 1] requests, and the delays it slept are
    [base_delay * 2 ^ i] for [i = 0 .. k - 1], in that order. *)
Theorem retry_answered_after_failures u max_retries base_delay resp k w :
  (forall i, (i < k)%nat -> exists e, net u (gets w + i) = inl e) ->
  net u (gets w + k) = inr resp ->
  (k < max_retries)%nat ->
  fst (retry_with_backoff (client_get net u) max_retries base_delay w)
  = inr (Some resp)
  /\ gets (snd (retry_with_backoff (client_get net u) max_retries base_delay w))
     = (gets w + S k)%nat
  /\ delays (snd (retry_with_backoff (client_get net u) max_retries base_delay w))
     = delays w ++ Batch.geometric base_delay k.
Proof.
  intros Hfail Hok Hk. unfold retry_with_backoff.
  rewrite (retry_from_answered net u max_retries base_delay resp k)
    by (assumption || lia).
  cbn [fst snd].
  rewrite gets_app, gets_backoff, delays_app, delays_backoff_geometric. auto.
Qed.

Lemma retry_from_exhausted u max_retries base_delay e : forall k todo attempt w,
  (forall i, (i < k)%nat -> exists e', net u (gets w + i) = inl e') ->
  net u (gets w + k) = inl e ->
  (k < todo)%nat ->
  (attempt + k = max_retries - 1)%nat ->
  retry_from (client_get net u) max_retries base_delay todo attempt w
  = (inl e, w ++ backoff u base_delay attempt k).
Proof.
  induction k as [|k IH]; intros todo attempt w Hfail Hlast Htodo Hmax.
  - destruct todo as [|todo]; [lia|]. cbn.
    unfold try_except, bind, client_get, raise.
    rewrite Nat.add_0_r in Hlast, Hmax. rewrite Hlast.
    now rewrite Hmax, Nat.eqb_refl.
  - destruct todo as [|todo]; [lia|]. cbn.
    unfold try_except at 1. unfold bind at 1. unfold client_get at 1.
    destruct (Hfail 0%nat ltac:(lia)) as [e0 He0].
    rewrite Nat.add_0_r in He0. rewrite He0.
    replace (attempt =? max_retries - 1)%nat with false
      by (symmetry; apply Nat.eqb_neq; lia).
    unfold bind at 1. unfold emit at 1.
    rewrite (IH todo (S attempt)
               ((w ++ [Get u]) ++ [Sleep (base_delay * 2 ^ Z.of_nat attempt)])).
    + now rewrite <- !List.app_assoc.
    + intros i Hi. rewrite gets_snoc_sleep, gets_snoc_get.
      destruct (Hfail (S i) ltac:(lia)) as [e' He'].
      exists e'. now rewrite <- He', Nat.add_succ_r.
    + rewrite gets_snoc_sleep, gets_snoc_get. now rewrite <- Hlast, Nat.add_succ_r.
    + lia.
    + lia.
Qed.

(** X2: when all of the [max_retries = n + 1] requests fail,
    [retry_with_backoff] raises the exception of the last one, after
    [n + 1] requests and the [n] delays [base_delay * 2 ^ i],
    [i = 0 .. n - 1]: it does not sleep after the last failure. *)
Theorem retry_exhausted_raises_last u base_delay n e w :
  (forall i, (i < n)%nat -> exists e', net u (gets w + i) = inl e') ->
  net u (gets w + n) = inl e ->
  fst (retry_with_backoff (client_get net u) (S n) base_delay w) = inl e
  /\ gets (snd (retry_with_backoff (client_get net u) (S n) base_delay w))
     = (gets w + S n)%nat
  /\ delays (snd (retry_with_backoff (client_get net u) (S n) base_delay w))
     = delays w ++ Batch.geometric base_delay n.
Proof.
  intros Hfail Hlast. unfold retry_with_backoff.
  rewrite (retry_from_exhausted u (S n) base_delay e n) by (assumption || lia).
  cbn [fst snd].
  rewrite gets_app, gets_backoff, delays_app, delays_backoff_geometric. auto.
Qed.

Lemma retry_from_shape u max_retries base_delay : forall todo attempt w,
  (attempt + S todo = max_retries)%nat ->
  exists k, (k <= todo)%nat
    /\ snd (retry_from (client_get net u) max_retries base_delay (S todo) attempt w)
       = w ++ backoff u base_delay attempt k.
Proof.
  induction todo as [|todo IH]; intros attempt w Hmax.
  - exists 0%nat. split; [lia|]. cbn.
    unfold try_except, bind, client_get, raise, ret.
    destruct (net u (gets w)); [|reflexivity].
    replace (attempt =? max_retries - 1)%nat with true
      by (symmetry; apply Nat.eqb_eq; lia).
    reflexivity.
  - change (retry_from (client_get net u) max_retries base_delay (S (S todo)) attempt w)
      with (try_except
              (bind (client_get net u) (fun x => ret (Some x)))
              (fun e =>
                 if (attempt =? max_retries - 1)%nat then raise e
                 else bind (emit (Sleep (base_delay * 2 ^ Z.of_nat attempt)))
                        (fun _ => retry_from (client_get net u) max_retries
                                    base_delay (S todo) (S attempt)))
              w).
    unfold try_except at 1. unfold bind at 1. unfold client_get at 1.
    destruct (net u (gets w)) as [e|resp].
    + replace (attempt =? max_retries - 1)%nat with false
        by (symmetry; apply Nat.eqb_neq; lia).
      unfold bind at 1. unfold emit at 1.
      destruct (IH (S attempt)
                  ((w ++ [Get u]) ++ [Sleep (base_delay * 2 ^ Z.of_nat attempt)])
                  ltac:(lia)) as (k & Hk & Hw).
      exists (S k). split; [lia|].
      rewrite Hw. now rewrite <- !List.app_assoc.
    + exists 0%nat. split; [lia|]. reflexivity.
Qed.

(** X3: whatever the network does, [retry_with_backoff] sends at most
    [max_retries] requests, and the delays it sleeps are the first [k]
    terms of [base_delay * 2 ^ i] for some [k] at most [max_retries - 1];
    with [max_retries = 0] it returns [None] and does nothing. *)
Theorem retry_is_bounded u max_retries base_delay w :
  (gets (snd (retry_with_backoff (client_get net u) max_retries base_delay w))
   <= gets w + max_retries)%nat
  /\ (exists k, (k <= max_retries - 1)%nat
        /\ delays (snd (retry_with_backoff (client_get net u) max_retries
                          base_delay w))
           = delays w ++ Batch.geometric base_delay k)
  /\ retry_with_backoff (client_get net u) 0 base_delay w = (inr None, w).
Proof.
  split; [|split; [|reflexivity]].
  - unfold retry_with_backoff. destruct max_retries as [|n].
    { change (gets w <= gets w + 0)%nat. lia. }
    destruct (retry_from_shape u (S n) base_delay n 0%nat w eq_refl) as (k & Hk & ->).
    rewrite gets_app, gets_backoff. lia.
  - unfold retry_with_backoff. destruct max_retries as [|n].
    + exists 0%nat. split; [lia|].
      change (delays w = delays w ++ []). now rewrite List.app_nil_r.
    + destruct (retry_from_shape u (S n) base_delay n 0%nat w eq_refl) as (k & Hk & ->).
      exists k. split; [lia|].
      now rewrite delays_app, delays_backoff_geometric.
Qed.

End RetryInGeneral.

(** X1, witness: refused twice and then answered, with the default
    arguments of [retry_with_backoff]. *)
Lemma retry_answered_after_failures_witness :
  fst (Probe.retry_with_backoff
         (Probe.client_get (Scenario.net_refused 2) "http://svc/api/status") 3 1 [])
  = inr (Some Probe.ok_response)
  /\ gets (snd (Probe.retry_with_backoff
                  (Probe.client_get (Scenario.net_refused 2) "http://svc/api/status")
                  3 1 []))
     = (gets [] + 3)%nat
  /\ delays (snd (Probe.retry_with_backoff
                    (Probe.client_get (Scenario.net_refused 2)
                       "http://svc/api/status") 3 1 []))
     = delays [] ++ Batch.geometric 1 2.
Proof.
  apply (retry_answered_after_failures (Scenario.net_refused 2)
           "http://svc/api/status" 3 1 Probe.ok_response 2 []).
  - intros [|[|i]] Hi; [eexists; reflexivity|eexists; reflexivity|lia].
  - reflexivity.
  - lia.
Defined.

(** X2, witness: a service that refuses every request, tried three times. *)
Lemma retry_exhausted_raises_last_witness :
  fst (Probe.retry_with_backoff
         (Probe.client_get Scenario.net_down "http://svc/api/status") 3 1 [])
  = inl (OtherException "connection refused #2")
  /\ gets (snd (Probe.retry_with_backoff
                  (Probe.client_get Scenario.net_down "http://svc/api/status") 3 1 []))
     = (gets [] + 3)%nat
  /\ delays (snd (Probe.retry_with_backoff
                    (Probe.client_get Scenario.net_down "http://svc/api/status")
                    3 1 []))
     = delays [] ++ Batch.geometric 1 2.
Proof.
  apply (retry_exhausted_raises_last Scenario.net_down "http://svc/api/status" 1 2
           (OtherException "connection refused #2") []).
  - intros i Hi. eexists. reflexivity.
  - reflexivity.
Defined.

(** ** Outcomes of a probe *)

Section ProbeOutcomes.

Import Probe.

Variable net : string -> nat -> exn + response.
Variable now : world -> Q.
Variable round2 : Q -> Q.

Abbreviation answered_with := (Batch.answered_with net).

Lemma probe_answered system_key info u resp w :
  probe_url info = Some u ->
  answered_with u w resp ->
  exists w',
    check_system_health net now round2 system_key info w
    = (inr (Probe.on_response now round2 system_key (now w) resp w'), w')
    /\ (net u (gets w) = inr resp -> w' = w ++ [Get u]).
Proof.
  intros Hu [H0|(e & H0 & H1)].
  - rewrite (probe_first_attempt_answers net now round2 _ _ _ _ _ Hu H0). eauto.
  - rewrite (probe_second_attempt_answers net now round2 _ _ _ _ _ _ Hu H0 H1).
    eexists. split; [reflexivity|]. congruence.
Qed.

(** X4: an answer with a status code other than 200 ends the probe with
    [status = unhealthy], the message ["HTTP <code>"], the code as
    metadata and a latency; when it is the answer to the first request
    the probe sends no second one, so a failing service that answers is
    never retried. *)
Theorem non_200_answer_is_unhealthy system_key info u resp w :
  probe_url info = Some u ->
  answered_with u w resp ->
  status_code resp <> 200 ->
  exists h,
    fst (check_system_health net now round2 system_key info w) = inr h
    /\ status h = "unhealthy"
    /\ error_message h = Some ("HTTP " +:+ pretty (status_code resp))
    /\ meta h = MetaStatus (status_code resp)
    /\ is_Some (response_time_ms h)
    /\ (net u (gets w) = inr resp ->
        snd (check_system_health net now round2 system_key info w) = w ++ [Get u]).
Proof.
  intros Hu Hans Hcode.
  destruct (probe_answered system_key info u resp w Hu Hans) as (w' & -> & Hw').
  eexists. split; [reflexivity|].
  unfold Probe.on_response.
  destruct (Z.eqb_spec (status_code resp) 200) as [|_]; [contradiction|].
  cbn. repeat split; eauto.
Qed.

(** X5: an answer with status 200 whose body does not decode ends the
    probe with [status = error], the decoder's message and no latency,
    although a response was received. *)
Theorem undecodable_body_is_an_error system_key info u resp m w :
  probe_url info = Some u ->
  answered_with u w resp ->
  status_code resp = 200 ->
  json resp = inl (OtherException m) ->
  exists h,
    fst (check_system_health net now round2 system_key info w) = inr h
    /\ status h = "error"
    /\ error_message h = Some m
    /\ response_time_ms h = None
    /\ meta h = MetaEmpty.
Proof.
  intros Hu Hans Hcode Hjson.
  destruct (probe_answered system_key info u resp w Hu Hans) as (w' & -> & _).
  eexists. split; [reflexivity|].
  unfold Probe.on_response. rewrite Hcode, Hjson. cbn. auto.
Qed.

(** X6: a target whose address is [None] is reported with
    [status = error] and the message of the [AttributeError]; no request
    is sent, and the probe still sleeps the 1s backoff between its two
    attempts. *)
Theorem missing_url_is_an_error system_key info w :
  url info = None ->
  exists h,
    fst (check_system_health net now round2 system_key info w) = inr h
    /\ status h = "error"
    /\ error_message h = Some "'NoneType' object has no attribute 'rstrip'"
    /\ response_time_ms h = None
    /\ gets (snd (check_system_health net now round2 system_key info w)) = gets w
    /\ delays (snd (check_system_health net now round2 system_key info w))
       = delays w ++ [1].
Proof.
  intros Hurl.
  assert (Hu : probe_url info = None) by (unfold probe_url; now rewrite Hurl).
  rewrite (probe_without_url net now round2 _ _ _ Hu).
  eexists. split; [reflexivity|]. cbn [fst snd].
  rewrite gets_snoc_sleep, delays_app. cbn. auto.
Qed.

End ProbeOutcomes.

(** X4, witness: a service that answers HTTP 503. *)
Lemma non_200_answer_is_unhealthy_witness :
  exists h,
    fst (Probe.check_system_health Scenario.net_503 Probe.tick Probe.keep
           "svc" Probe.svc []) = inr h
    /\ Probe.status h = "unhealthy"
    /\ Probe.error_message h = Some "HTTP 503"
    /\ snd (Probe.check_system_health Scenario.net_503 Probe.tick Probe.keep
              "svc" Probe.svc []) = [Get "http://svc/api/status"].
Proof.
  destruct (non_200_answer_is_unhealthy Scenario.net_503 Probe.tick Probe.keep
              "svc" Probe.svc "http://svc/api/status"
              {| Probe.status_code := 503; Probe.json := inr "{}" |} []
              eq_refl (or_introl eq_refl) ltac:(discriminate))
    as (h & Hh & Hs & He & _ & _ & Hw).
  exists h. split; [exact Hh|]. split; [exact Hs|]. split; [exact He|].
  exact (Hw eq_refl).
Defined.

(** X5, witness: HTTP 200 with a body that is not JSON. *)
Lemma undecodable_body_is_an_error_witness :
  exists h,
    fst (Probe.check_system_health Scenario.net_bad_body Probe.tick Probe.keep
           "svc" Probe.svc []) = inr h
    /\ Probe.status h = "error"
    /\ Probe.error_message h = Some "Expecting value"
    /\ Probe.response_time_ms h = None
    /\ Probe.meta h = Probe.MetaEmpty.
Proof.
  exact (undecodable_body_is_an_error Scenario.net_bad_body Probe.tick Probe.keep
           "svc" Probe.svc "http://svc/api/status"
           {| Probe.status_code := 200;
              Probe.json := inl (OtherException "Expecting value") |}
           "Expecting value" [] eq_refl (or_introl eq_refl) eq_refl eq_refl).
Defined.

(** X6, witness: the target without an address. *)
Lemma missing_url_is_an_error_witness :
  Probe.url Scenario.unset = None
  /\ exists h,
       fst (Probe.check_system_health Fanout.net_ok Probe.tick Probe.keep
              "svc" Scenario.unset []) = inr h
       /\ Probe.status h = "error"
       /\ gets (snd (Probe.check_system_health Fanout.net_ok Probe.tick Probe.keep
                       "svc" Scenario.unset [])) = gets [].
Proof.
  split; [reflexivity|].
  destruct (missing_url_is_an_error Fanout.net_ok Probe.tick Probe.keep
              "svc" Scenario.unset [] eq_refl) as (h & Hh & Hs & _ & _ & Hg & _).
  exists h. auto.
Defined.

(** ** The requested address *)

Section RequestedAddress.

Import Probe Url.

Lemma rstrip_slash_slashes n : rstrip_slash (slashes n) = EmptyString.
Proof. induction n as [|n IH]; [reflexivity|]. cbn. now rewrite IH. Qed.

Lemma rstrip_slash_decompose u : exists n, u = rstrip_slash u +:+ slashes n.
Proof.
  induction u as [|c s IH]; [now exists 0%nat|].
  destruct IH as [n Hn]. cbn [rstrip_slash].
  destruct (rstrip_slash s) as [|c' r] eqn:Hr.
  - change (s = slashes n) in Hn.
    destruct (Ascii.eqb_spec c "/") as [->|_].
    + exists (S n). change (String "/" s = String "/" (slashes n)). now rewrite <- Hn.
    + exists n. change (String c s = String c (slashes n)). now rewrite <- Hn.
  - exists n. change (String c s = String c (String c' r +:+ slashes n)).
    now rewrite <- Hn.
Qed.

Lemma rstrip_slash_last u : last_char (rstrip_slash u) <> Some "/"%char.
Proof.
  induction u as [|c s IH]; [discriminate|]. cbn.
  destruct (rstrip_slash s) as [|c' r] eqn:Hr.
  - destruct (Ascii.eqb_spec c "/") as [->|Hc]; cbn; congruence.
  - exact IH.
Qed.

Lemma rstrip_slash_fixed s : last_char s <> Some "/"%char -> rstrip_slash s = s.
Proof.
  induction s as [|c s IH]; [reflexivity|]. intros Hlast.
  destruct s as [|c' s'].
  - cbn in *. destruct (Ascii.eqb_spec c "/") as [->|_]; congruence.
  - change (rstrip_slash (String c (String c' s')))
      with (match rstrip_slash (String c' s') with
            | EmptyString => if Ascii.eqb c "/" then EmptyString else String c EmptyString
            | r => String c r
            end).
    rewrite IH by exact Hlast. reflexivity.
Qed.

Lemma rstrip_slash_app_slashes u n : rstrip_slash (u +:+ slashes n) = rstrip_slash u.
Proof.
  induction u as [|c s IH]; [apply rstrip_slash_slashes|].
  change (String c s +:+ slashes n) with (String c (s +:+ slashes n)).
  cbn. now rewrite IH.
Qed.

(** X7: [rstrip('/')] as the probe uses it.  The address is its stripped
    form followed by slashes only; the stripped form does not end in a
    slash and stripping it again changes nothing; and any number of
    slashes at the end of a target's address leaves the requested URL
    the same. *)
Theorem trailing_slashes_never_reach_the_url (u : string) :
  (exists n, u = rstrip_slash u +:+ slashes n)
  /\ last_char (rstrip_slash u) <> Some "/"%char
  /\ rstrip_slash (rstrip_slash u) = rstrip_slash u
  /\ forall n nm ep d ci p,
       probe_url {| name := nm; url := Some (u +:+ slashes n); endpoint := ep;
                    description := d; check_interval := ci; priority := p |}
       = probe_url {| name := nm; url := Some u; endpoint := ep;
                      description := d; check_interval := ci; priority := p |}.
Proof.
  split; [apply rstrip_slash_decompose|].
  split; [apply rstrip_slash_last|].
  split; [apply rstrip_slash_fixed, rstrip_slash_last|].
  intros n nm ep d ci p. unfold probe_url. cbn.
  now rewrite rstrip_slash_app_slashes.
Qed.

End RequestedAddress.

(** ** Storing a batch *)

Section BatchFacts.

Import Probe Fanout Batch.

Context {V : Type}.
Variable net : string -> nat -> exn + response.
Variable now : world -> Q.
Variable round2 : Q -> Q.
Variable store_up : nat -> bool.
Variable clock : nat -> Q.

Abbreviation store1 := (store_result V store_up clock).
Abbreviation storeN := (store_results V store_up clock).
Abbreviation alert_for := Batch.alert_for.

(** What one iteration appends to the two tables. *)
Lemma store_result_appends (st : state V) r :
  exists rows evs,
    system_health (db (store1 st r)) = system_health (db st) ++ rows
    /\ workflow_events (db (store1 st r)) = workflow_events (db st) ++ evs
    /\ (rows = [] \/ exists h, r = inr h /\ rows = [h])
    /\ (evs = []
        \/ exists h ev, r = inr h /\ rows = [h] /\ evs = [ev]
                        /\ status h <> "healthy" /\ alert_for h ev).
Proof.
  unfold store_result, insert_health, insert_event.
  destruct r as [e|h].
  { exists [], []. rewrite !List.app_nil_r. auto. }
  destruct (store_up (requests (db st))); cbn.
  2:{ exists [], []. rewrite !List.app_nil_r. auto. }
  destruct (Cache.clear_data "health_overview" (cache st)) as [e|c]; cbn.
  { exists [h], []. rewrite List.app_nil_r. eauto 10. }
  destruct (String.eqb_spec (status h) "healthy") as [Hh|Hh]; cbn.
  { exists [h], []. rewrite List.app_nil_r. eauto 10. }
  destruct (store_up (S (requests (db st)))); cbn.
  - eexists [h], [_]. split; [reflexivity|]. split; [reflexivity|].
    split; [eauto|]. right. eexists _, _.
    repeat split; first [reflexivity|assumption].
  - exists [h], []. rewrite List.app_nil_r. eauto 10.
Qed.

(** With the store up and the overview entry in place, an iteration on a
    result stores it, and writes the alert exactly when it is not healthy. *)
Lemma store_result_up (st : state V) h :
  (forall k, store_up k = true) ->
  is_Some (cache st !! "health_overview") ->
  system_health (db (store1 st (inr h))) = system_health (db st) ++ [h]
  /\ List.map payload (workflow_events (db (store1 st (inr h))))
     = List.map payload (workflow_events (db st)) ++ alerting [h].
Proof.
  intros Hup [e He].
  unfold store_result, insert_health, insert_event, alerting.
  rewrite Hup. cbn.
  unfold Cache.clear_data. rewrite He. cbn.
  destruct (String.eqb (status h) "healthy"); cbn.
  - split; [reflexivity|]. now rewrite List.app_nil_r.
  - rewrite Hup. cbn. split; [reflexivity|]. now rewrite List.map_app.
Qed.

(** X8: with the store up and the overview entry in place, a batch
    appends to [system_health] every result that is not an exception, in
    the order of the batch, and to [workflow_events] one alert for each
    of them that is not healthy, in the same order, with the result as
    its payload. *)
Theorem batch_is_stored_in_order results : forall st : state V,
  (forall k, store_up k = true) ->
  is_Some (cache st !! "health_overview") ->
  system_health (db (storeN results st))
  = system_health (db st) ++ oks results
  /\ List.map payload (workflow_events (db (storeN results st)))
     = List.map payload (workflow_events (db st)) ++ alerting (oks results).
Proof.
  induction results as [|r results IH]; intros st Hup Hp.
  - cbn. now rewrite !List.app_nil_r.
  - rewrite store_results_cons.
    pose proof (store_result_keeps_entry store_up clock st r Hp) as Hp'.
    destruct (IH (store1 st r) Hup Hp') as [Hrows Hevs].
    rewrite Hrows, Hevs. destruct r as [e|h].
    + auto.
    + destruct (store_result_up st h Hup Hp) as [-> ->].
      unfold oks, alerting. cbn.
      rewrite <- !List.app_assoc. cbn.
      destruct (String.eqb (status h) "healthy"); auto.
Qed.

Lemma store_results_append results : forall st : state V,
  exists rows evs,
    system_health (db (storeN results st)) = system_health (db st) ++ rows
    /\ workflow_events (db (storeN results st)) = workflow_events (db st) ++ evs
    /\ rows `sublist_of` oks results
    /\ Forall (fun ev => status (payload ev) <> "healthy"
                         /\ alert_for (payload ev) ev
                         /\ In (payload ev) rows) evs.
Proof.
  induction results as [|r results IH]; intros st.
  - exists [], []. cbn. rewrite !List.app_nil_r. repeat split; constructor.
  - rewrite store_results_cons.
    destruct (IH (store1 st r)) as (rows & evs & Hrows & Hevs & Hsub & Hall).
    destruct (store_result_appends st r) as (rows0 & evs0 & Hrows0 & Hevs0 & Hr & He).
    exists (rows0 ++ rows), (evs0 ++ evs).
    rewrite Hrows, Hevs, Hrows0, Hevs0, <- !List.app_assoc.
    split; [reflexivity|]. split; [reflexivity|]. split.
    + destruct Hr as [->|(h & -> & ->)]; cbn.
      * destruct r as [e|h]; [exact Hsub|]. unfold oks. cbn. now apply sublist_cons.
      * unfold oks. cbn. now apply sublist_skip.
    + apply List.Forall_app. split.
      * destruct He as [->|(h & ev & -> & -> & -> & Hh & Ha)]; [constructor|].
        assert (Hp : payload ev = h) by apply Ha.
        constructor; [|constructor]. rewrite Hp.
        split; [exact Hh|]. split; [exact Ha|]. now left.
      * eapply List.Forall_impl; [|exact Hall]. cbn.
        intros ev (H1 & H2 & H3). repeat split; try assumption; try apply H2.
        apply List.in_or_app. now right.
Qed.

Lemma store_result_accepted (st : state V) h :
  store_up (requests (db st)) = true ->
  system_health (db (store1 st (inr h))) = system_health (db st) ++ [h].
Proof.
  intros Hup. unfold store_result, insert_health, insert_event.
  rewrite Hup. cbn.
  destruct (Cache.clear_data "health_overview" (cache st)); cbn; [reflexivity|].
  destruct (String.eqb (status h) "healthy"); cbn; [reflexivity|].
  destruct (store_up (S (requests (db st)))); reflexivity.
Qed.

(** X9: rows are only ever appended, and a failed write does not stop the
    batch: a result whose own insert goes through is stored whatever
    happened to the results before it and whatever happens after. *)
Theorem later_results_survive_earlier_failures before h after (st : state V) :
  store_up (requests (db (storeN before st))) = true ->
  In h (system_health (db (storeN (before ++ inr h :: after) st)))
  /\ exists rows,
       system_health (db (storeN (before ++ inr h :: after) st))
       = system_health (db st) ++ rows.
Proof.
  intros Hup. split.
  - unfold store_results. rewrite List.fold_left_app.
    change (fold_left store1 (inr h :: after) (fold_left store1 before st))
      with (storeN after (store1 (storeN before st) (inr h))).
    destruct (store_results_append after (store1 (storeN before st) (inr h)))
      as (rows & _ & Hrows & _).
    rewrite Hrows, (store_result_accepted _ h Hup).
    apply List.in_or_app. left. apply List.in_or_app. right. now left.
  - destruct (store_results_append (before ++ inr h :: after) st)
      as (rows & _ & Hrows & _). eauto.
Qed.

(** X10: whatever the store does, the events a batch writes are alerts
    for results of that batch that are not healthy and that the batch
    itself stored: a healthy result never raises an alert, and neither
    does a result whose insert failed. *)
Theorem alerts_are_for_stored_unhealthy_results results (st : state V) :
  exists rows evs,
    system_health (db (storeN results st)) = system_health (db st) ++ rows
    /\ workflow_events (db (storeN results st)) = workflow_events (db st) ++ evs
    /\ Forall (fun ev =>
                 event_type ev = "system_health_alert"
                 /\ target_system ev = system_name (payload ev)
                 /\ status (payload ev) <> "healthy"
                 /\ In (payload ev) rows
                 /\ In (inr (payload ev)) results) evs.
Proof.
  destruct (store_results_append results st) as (rows & evs & Hrows & Hevs & Hsub & Hall).
  exists rows, evs. split; [exact Hrows|]. split; [exact Hevs|].
  eapply List.Forall_impl; [|exact Hall]. cbn.
  intros ev (Hh & Ha & Hin).
  destruct Ha as (Ht & _ & Htarget & _ & _).
  repeat split; try assumption.
  apply list_elem_of_In in Hin.
  pose proof (elem_of_sublist _ _ _ Hin Hsub) as Hin'.
  unfold oks in Hin'. apply list_elem_of_omap in Hin'.
  destruct Hin' as ([e|h'] & Hin' & Heq); [discriminate|].
  injection Heq as ->. now apply list_elem_of_In.
Qed.

Lemma probe_result_has_key system_key info w :
  exists h,
    fst (check_system_health net now round2 system_key info w) = inr h
    /\ system_name h = system_key.
Proof.
  destruct (probe_url info) as [u|] eqn:Hu.
  - destruct (net u (gets w)) as [e|resp] eqn:H0.
    + destruct (net u (S (gets w))) as [e'|resp] eqn:H1.
      * rewrite (probe_both_attempts_fail net now round2 _ _ _ _ _ _ Hu H0 H1).
        eexists. split; [reflexivity|]. now destruct e'.
      * rewrite (probe_second_attempt_answers net now round2 _ _ _ _ _ _ Hu H0 H1).
        eexists. split; [reflexivity|]. unfold Probe.on_response.
        destruct (status_code resp =? 200); [|reflexivity].
        now destruct (json resp) as [[m|m]|body].
    + rewrite (probe_first_attempt_answers net now round2 _ _ _ _ _ Hu H0).
      eexists. split; [reflexivity|]. unfold Probe.on_response.
      destruct (status_code resp =? 200); [|reflexivity].
      now destruct (json resp) as [[m|m]|body].
  - rewrite (probe_without_url net now round2 _ _ _ Hu). eauto.
Qed.

Lemma gather_keys systems :
  List.map system_name (oks (gather net now round2 systems)) = List.map fst systems
  /\ length (oks (gather net now round2 systems)) = length systems.
Proof.
  induction systems as [|[k info] systems [IH1 IH2]]; [auto|].
  change (gather net now round2 ((k, info) :: systems))
    with (fst (check_system_health net now round2 k info [])
            :: gather net now round2 systems).
  destruct (probe_result_has_key k info []) as (h & -> & Hk).
  change (oks (inr h :: gather net now round2 systems))
    with (h :: oks (gather net now round2 systems)).
  cbn [List.map length fst]. now rewrite IH1, IH2, Hk.
Qed.

(** X11: a run over a list of targets gathers one result per target,
    none of them an exception, each under its target's key and in the
    order of the targets; with the store up and the overview entry in
    place these are the rows it appends to [system_health]. *)
Theorem run_stores_one_row_per_target systems (st : state V) :
  List.map system_name (oks (gather net now round2 systems)) = List.map fst systems
  /\ length (gather net now round2 systems) = length systems
  /\ ((forall k, store_up k = true) ->
      is_Some (cache st !! "health_overview") ->
      List.map system_name
        (system_health (db (run_health_checks V net now round2 store_up clock
                              systems st)))
      = List.map system_name (system_health (db st)) ++ List.map fst systems).
Proof.
  split; [apply gather_keys|]. split; [apply List.length_map|].
  intros Hup Hp. unfold run_health_checks.
  destruct (batch_is_stored_in_order (gather net now round2 systems) st Hup Hp)
    as [-> _].
  rewrite List.map_app. f_equal. apply gather_keys.
Qed.

End BatchFacts.

(** X8, witness: two targets, one answering HTTP 200 and one HTTP 503,
    with the store up: two rows, [healthy] then [unhealthy], and one
    alert. *)
Lemma batch_is_stored_in_order_witness :
  List.map Probe.status
    (Fanout.system_health
       (Fanout.db
          (Fanout.store_results nat Fanout.store_always_up Fanout.midnight
             (Fanout.gather Scenario.net_mixed Probe.tick Probe.keep
                [("svc", Probe.svc); ("other", Scenario.other)])
             Fanout.cached_overview)))
  = ["healthy"; "unhealthy"]
  /\ List.map (fun ev => Probe.system_name (Fanout.payload ev))
       (Fanout.workflow_events
          (Fanout.db
             (Fanout.store_results nat Fanout.store_always_up Fanout.midnight
                (Fanout.gather Scenario.net_mixed Probe.tick Probe.keep
                   [("svc", Probe.svc); ("other", Scenario.other)])
                Fanout.cached_overview)))
     = ["other"].
Proof.
  assert (Hp : is_Some (Fanout.cache Fanout.cached_overview !! "health_overview"))
    by (eexists; reflexivity).
  destruct (batch_is_stored_in_order Fanout.store_always_up Fanout.midnight
              (Fanout.gather Scenario.net_mixed Probe.tick Probe.keep
                 [("svc", Probe.svc); ("other", Scenario.other)])
              Fanout.cached_overview (fun _ => eq_refl) Hp) as [Hrows Hevs].
  split.
  - rewrite Hrows. vm_compute. reflexivity.
  - rewrite <- (List.map_map Fanout.payload Probe.system_name), Hevs.
    vm_compute. reflexivity.
Defined.

(** X9, witness: the store rejects its first request and accepts the
    second; the second result is stored. *)
Lemma later_results_survive_earlier_failures_witness :
  Scenario.store_recovers
    (Fanout.requests
       (Fanout.db
          (Fanout.store_results nat Scenario.store_recovers Fanout.midnight
             [inr (Probe.timeout_result "a" 0)] Fanout.cached_overview))) = true
  /\ In (Probe.timeout_result "b" 0)
       (Fanout.system_health
          (Fanout.db
             (Fanout.store_results nat Scenario.store_recovers Fanout.midnight
                ([inr (Probe.timeout_result "a" 0)]
                   ++ inr (Probe.timeout_result "b" 0) :: [])
                Fanout.cached_overview)))
  /\ ~ In (Probe.timeout_result "a" 0)
       (Fanout.system_health
          (Fanout.db
             (Fanout.store_results nat Scenario.store_recovers Fanout.midnight
                ([inr (Probe.timeout_result "a" 0)]
                   ++ inr (Probe.timeout_result "b" 0) :: [])
                Fanout.cached_overview))).
Proof.
  assert (Hup : Scenario.store_recovers
    (Fanout.requests
       (Fanout.db
          (Fanout.store_results nat Scenario.store_recovers Fanout.midnight
             [inr (Probe.timeout_result "a" 0)] Fanout.cached_overview))) = true)
    by reflexivity.
  split; [exact Hup|]. split.
  - exact (proj1 (later_results_survive_earlier_failures Scenario.store_recovers
                    Fanout.midnight [inr (Probe.timeout_result "a" 0)]
                    (Probe.timeout_result "b" 0) [] Fanout.cached_overview Hup)).
  - vm_compute. intros [H|[]]. discriminate.
Defined.

(** X11, witness: a run over the two targets with the store up. *)
Lemma run_stores_one_row_per_target_witness :
  List.map Probe.system_name
    (Fanout.system_health
       (Fanout.db
          (Fanout.run_health_checks nat Scenario.net_mixed Probe.tick Probe.keep
             Fanout.store_always_up Fanout.midnight
             [("svc", Probe.svc); ("other", Scenario.other)]
             Fanout.cached_overview)))
  = List.map Probe.system_name
      (Fanout.system_health (Fanout.db Fanout.cached_overview))
    ++ List.map fst [("svc", Probe.svc); ("other", Scenario.other)].
Proof.
  assert (Hp : is_Some (Fanout.cache Fanout.cached_overview !! "health_overview"))
    by (eexists; reflexivity).
  exact (proj2 (proj2 (run_stores_one_row_per_target Scenario.net_mixed Probe.tick
                         Probe.keep Fanout.store_always_up Fanout.midnight
                         [("svc", Probe.svc); ("other", Scenario.other)]
                         Fanout.cached_overview))
           (fun _ => eq_refl) Hp).
Defined.

(** ** More on the cache *)

Section CacheInUse.

Import Cache Reads.

Context {V : Type}.

Implicit Types (s : state V) (func : nat -> exn + option V).

Lemma reads_hits key ttl_arg func v t1 times : forall s e,
  CACHE s !! key = Some e -> data e = Some v -> timestamp e = Some t1 ->
  t1 <> 0 ->
  Forall (fun t => t - t1 < ttl_arg) times ->
  reads key ttl_arg func times s
  = (List.repeat (inr (Some v)) (length times), s).
Proof.
  induction times as [|t times IH]; intros s e He Hd Ht Hnz Hall; [reflexivity|].
  apply List.Forall_cons_iff in Hall as [Hage Hall].
  cbn [reads].
  rewrite (wrapper_hit key ttl_arg func t s v)
    by (eapply cache_hit_fresh; eauto).
  cbn [fst snd]. now rewrite (IH s e He Hd Ht Hnz Hall).
Qed.

(** X13: any number of calls made less than [ttl] after a miss that
    computed a value return that value and await the decorated function
    once in all. *)
Theorem reads_within_ttl_await_once key ttl_arg func t1 later s v :
  cache_hit (CACHE s) key ttl_arg t1 = None ->
  func (calls s) = inr (Some v) ->
  t1 <> 0 ->
  Forall (fun t => t - t1 < ttl_arg) later ->
  fst (reads key ttl_arg func (t1 :: later) s)
  = List.repeat (inr (Some v)) (S (length later))
  /\ calls (snd (reads key ttl_arg func (t1 :: later) s)) = S (calls s).
Proof.
  intros Hmiss Hf Hnz Hall. cbn [reads].
  rewrite (wrapper_miss _ _ _ _ _ _ Hmiss Hf). cbn [fst snd].
  erewrite reads_hits;
    [|apply lookup_insert_eq|reflexivity|reflexivity|exact Hnz|exact Hall].
  split; reflexivity.
Qed.

(** X12: a call under one key, hit or miss, and the invalidation of one
    key leave the entries of every other key as they were. *)
Theorem other_keys_are_untouched key key' ttl_arg func now s :
  key' <> key ->
  CACHE (snd (wrapper key ttl_arg func now s)) !! key' = CACHE s !! key'
  /\ forall s', invalidate key s = inr s' -> CACHE s' !! key' = CACHE s !! key'.
Proof.
  intros Hne. split.
  - unfold wrapper.
    destruct (cache_hit (CACHE s) key ttl_arg now); [reflexivity|].
    destruct (func (calls s)); cbn; [reflexivity|].
    now apply lookup_insert_ne.
  - intros s'. unfold invalidate, clear_data.
    destruct (CACHE s !! key); [|discriminate].
    intros [= <-]. cbn. now apply lookup_insert_ne.
Qed.

Lemma cache_hit_stays_missed (c : gmap string (cache_entry V)) key ttl_arg now now' :
  cache_hit c key ttl_arg now = None -> now <= now' ->
  cache_hit c key ttl_arg now' = None.
Proof.
  unfold cache_hit. intros Hmiss Hle.
  destruct (c !! key) as [e|]; [|reflexivity].
  destruct (data e); [|reflexivity].
  destruct (truthy_time (timestamp e)); [|reflexivity]. cbn in *.
  destruct (Z.ltb_spec (now - default 0 (timestamp e)) ttl_arg); [discriminate|].
  destruct (Z.ltb_spec (now' - default 0 (timestamp e)) ttl_arg); [lia|reflexivity].
Qed.

(** X14: a computation that raises or returns [None] is never served
    from the cache: after such a miss every call at the same or a later
    time misses again and awaits the decorated function anew. *)
Theorem failed_computation_is_retried key ttl_arg func now now' s :
  cache_hit (CACHE s) key ttl_arg now = None ->
  (exists e, func (calls s) = inl e) \/ func (calls s) = inr None ->
  now <= now' ->
  cache_hit (CACHE (snd (wrapper key ttl_arg func now s))) key ttl_arg now' = None
  /\ fst (wrapper key ttl_arg func now' (snd (wrapper key ttl_arg func now s)))
     = func (S (calls s))
  /\ calls (snd (wrapper key ttl_arg func now'
                   (snd (wrapper key ttl_arg func now s))))
     = S (S (calls s)).
Proof.
  intros Hmiss Hf Hle.
  assert (Hc : calls (snd (wrapper key ttl_arg func now s)) = S (calls s))
    by apply (wrapper_miss_awaits key ttl_arg func now s Hmiss).
  assert (Hmiss' : cache_hit (CACHE (snd (wrapper key ttl_arg func now s)))
                     key ttl_arg now' = None).
  { unfold wrapper. rewrite Hmiss.
    destruct Hf as [[e ->]| ->]; cbn.
    - eauto using cache_hit_stays_missed.
    - eapply cache_hit_cleared; [apply lookup_insert_eq|reflexivity]. }
  split; [exact Hmiss'|].
  destruct (wrapper_miss_awaits key ttl_arg func now' _ Hmiss') as (Hr & Hc' & _).
  rewrite Hr, Hc', Hc. auto.
Qed.

(** X15: [CACHE[key]["data"] = None].  On a key that is not in the cache
    it raises and changes nothing.  On a key that is, it sets [data] to
    [None], keeps the entry's [timestamp] and [ttl], leaves the call count
    alone, can be repeated without effect, and makes every later read of
    that key a miss. *)
Theorem invalidate_clears_data_only key s :
  (CACHE s !! key = None -> exists e, invalidate key s = inl e)
  /\ (forall e,
        CACHE s !! key = Some e ->
        exists s',
          invalidate key s = inr s'
          /\ CACHE s' !! key
             = Some {| data := None; timestamp := timestamp e; ttl := ttl e |}
          /\ calls s' = calls s
          /\ invalidate key s' = inr s'
          /\ forall ttl_arg now, cache_hit (CACHE s') key ttl_arg now = None).
Proof.
  unfold invalidate, clear_data. split.
  - intros ->. eauto.
  - intros e ->. eexists. split; [reflexivity|]. cbn.
    rewrite lookup_insert_eq. cbn.
    split; [reflexivity|]. split; [reflexivity|]. split.
    + now rewrite insert_insert_eq.
    + intros ttl_arg now.
      eapply cache_hit_cleared; [apply lookup_insert_eq|reflexivity].
Qed.

End CacheInUse.

(** X13, witness: five reads of the overview within a minute. *)
Lemma reads_within_ttl_await_once_witness :
  fst (Reads.reads "health_overview" 60 Cache.count_calls
         (1000 :: [1001; 1010; 1030; 1059]) Cache.fresh_state)
  = List.repeat (inr (Some 0%nat)) 5
  /\ Cache.calls
       (snd (Reads.reads "health_overview" 60 Cache.count_calls
               (1000 :: [1001; 1010; 1030; 1059]) Cache.fresh_state))
     = 1%nat.
Proof.
  apply (reads_within_ttl_await_once "health_overview" 60 Cache.count_calls 1000
           [1001; 1010; 1030; 1059] Cache.fresh_state 0%nat).
  - reflexivity.
  - reflexivity.
  - discriminate.
  - repeat constructor.
Defined.

(** X12, witness: a read of the overview leaves the recommendations
    entry alone. *)
Lemma other_keys_are_untouched_witness :
  Cache.CACHE
    (snd (Cache.wrapper "health_overview" 60 Cache.count_calls 1000 Cache.fresh_state))
    !! "recommendations"
  = Cache.CACHE Cache.fresh_state !! "recommendations".
Proof.
  exact (proj1 (other_keys_are_untouched "health_overview" "recommendations" 60
                  Cache.count_calls 1000 Cache.fresh_state ltac:(discriminate))).
Defined.

(** X14, witness: a decorated function that raises is awaited again by
    the next call. *)
Lemma failed_computation_is_retried_witness :
  Cache.cache_hit (Cache.CACHE Cache.fresh_state) "health_overview" 60 1000 = None
  /\ fst (Cache.wrapper "health_overview" 60 Reads.always_raises 1001
            (snd (Cache.wrapper "health_overview" 60 Reads.always_raises 1000
                    Cache.fresh_state)))
     = Reads.always_raises 1
  /\ Cache.calls
       (snd (Cache.wrapper "health_overview" 60 Reads.always_raises 1001
               (snd (Cache.wrapper "health_overview" 60 Reads.always_raises 1000
                       Cache.fresh_state))))
     = 2%nat.
Proof.
  split; [reflexivity|].
  apply (failed_computation_is_retried "health_overview" 60 Reads.always_raises
           1000 1001 Cache.fresh_state eq_refl).
  - left. eexists. reflexivity.
  - lia.
Defined.

(** ** More on the retention sweep *)

Lemma filter_sublist {A} (f : A -> bool) (l : list A) : List.filter f l `sublist_of` l.
Proof.
  induction l as [|x l IH]; cbn; [constructor|].
  destruct (f x); [now apply sublist_skip|now apply sublist_cons].
Qed.

Lemma filter_filter_comm {A} (f g : A -> bool) (l : list A) :
  List.filter f (List.filter g l) = List.filter g (List.filter f l).
Proof.
  induction l as [|x l IH]; [reflexivity|]. cbn.
  destruct (f x) eqn:Hf, (g x) eqn:Hg; cbn; rewrite ?Hf, ?Hg, IH; reflexivity.
Qed.

Section SweepFacts.

Import Retention.

Variable order : list row -> list row.

(** The sweep of one system is a filter of the table. *)
Lemma cleanup_system_is_filter system_key t :
  exists f, cleanup_system order system_key t = List.filter f t
            /\ forall r, system_name r <> system_key -> f r = true.
Proof.
  unfold cleanup_system.
  assert (Hid : exists f, t = List.filter f t
                          /\ forall r, system_name r <> system_key -> f r = true).
  { exists (fun _ => true). split; [|reflexivity].
    clear. induction t as [|r t IH]; cbn; congruence. }
  destruct (Z.of_nat (length (select_eq system_key t)) >? 1000); [|exact Hid].
  destruct (nth_error _ 999) as [r|]; [|exact Hid].
  eexists. split; [reflexivity|]. cbn. intros r' Hne.
  apply String.eqb_neq in Hne. now rewrite Hne.
Qed.

Lemma select_eq_cleanup_other system_key k t :
  k <> system_key ->
  select_eq k (cleanup_system order system_key t) = select_eq k t.
Proof.
  intros Hne. destruct (cleanup_system_is_filter system_key t) as (f & -> & Hf).
  unfold select_eq. rewrite filter_filter_comm.
  induction t as [|r t IH]; [reflexivity|]. cbn.
  destruct (String.eqb_spec (system_name r) k) as [Hk|Hk]; cbn.
  - rewrite Hf by congruence. now rewrite IH.
  - exact IH.
Qed.

(** X17: the sweep of one system only deletes, and only rows of that
    system: what it returns is the table with some rows left out, in the
    same order; the rows of every other system are all there; and a
    system with at most 1000 rows loses none. *)
Theorem cleanup_only_deletes_rows_of_its_system system_key t :
  cleanup_system order system_key t `sublist_of` t
  /\ (forall k, k <> system_key ->
        select_eq k (cleanup_system order system_key t) = select_eq k t)
  /\ (forall r, In r t -> system_name r <> system_key ->
        In r (cleanup_system order system_key t))
  /\ ((length (select_eq system_key t) <= 1000)%nat ->
      cleanup_system order system_key t = t).
Proof.
  split; [|split; [|split]].
  - destruct (cleanup_system_is_filter system_key t) as (f & -> & _).
    apply filter_sublist.
  - intros k. apply select_eq_cleanup_other.
  - intros r Hr Hne.
    destruct (cleanup_system_is_filter system_key t) as (f & -> & Hf).
    apply List.filter_In. auto.
  - intros Hlen. unfold cleanup_system.
    destruct (Z.gtb_spec (Z.of_nat (length (select_eq system_key t))) 1000);
      [lia|reflexivity].
Qed.

Lemma cleanup_old_data_keys ks : forall t,
  fold_left (fun t' k => cleanup_system order k t') ks t `sublist_of` t
  /\ forall r, In r t -> ~ In (system_name r) ks ->
       In r (fold_left (fun t' k => cleanup_system order k t') ks t).
Proof.
  induction ks as [|k ks IH]; intros t; [split; [reflexivity|auto]|].
  cbn [fold_left].
  destruct (IH (cleanup_system order k t)) as [Hsub Hin].
  destruct (cleanup_only_deletes_rows_of_its_system k t) as (Hsub1 & _ & Hin1 & _).
  split; [now transitivity (cleanup_system order k t)|].
  intros r Hr Hnot. apply Hin.
  - apply Hin1; [exact Hr|]. intros Heq. apply Hnot. now left.
  - intros Hk. apply Hnot. now right.
Qed.

(** X19: the nightly sweep over all registered systems only deletes, and
    it never deletes a row of a system that is not registered in
    [SYSTEMS]. *)
Theorem sweep_spares_unregistered_systems env t :
  cleanup_old_data order env t `sublist_of` t
  /\ forall r, In r t -> ~ In (system_name r) (Registry.keys env) ->
       In r (cleanup_old_data order env t).
Proof. apply cleanup_old_data_keys. Qed.

Hypothesis order_Permutation : forall l, Permutation (order l) l.

(** X18: when a system has more than 1000 rows the sweep keeps the row
    found at offset 999 and, of the system's rows, exactly those whose
    identity is not below that row's: a sweep never empties a system. *)
Theorem cleanup_keeps_the_cutoff_row system_key t :
  (1000 < length (select_eq system_key t))%nat ->
  exists r,
    nth_error (order (select_eq system_key t)) 999 = Some r
    /\ In r (select_eq system_key (cleanup_system order system_key t))
    /\ forall x, In x (select_eq system_key t) ->
         (In x (cleanup_system order system_key t) <-> id r <= id x).
Proof.
  intros Hlen.
  pose proof (order_Permutation (select_eq system_key t)) as Hperm.
  destruct (nth_error (order (select_eq system_key t)) 999) as [r|] eqn:Hr.
  2:{ apply List.nth_error_None in Hr. apply Permutation_length in Hperm. lia. }
  assert (Hrun : cleanup_system order system_key t = delete_lt system_key (id r) t).
  { unfold cleanup_system. rewrite Hr.
    destruct (Z.gtb_spec (Z.of_nat (length (select_eq system_key t))) 1000);
      [reflexivity|lia]. }
  exists r. split; [reflexivity|]. rewrite Hrun. split.
  - rewrite select_eq_delete_lt. apply List.filter_In. split.
    + eapply Permutation_in; [exact Hperm|]. eapply List.nth_error_In; eauto.
    + now rewrite Z.ltb_irrefl.
  - intros x Hx. unfold select_eq in Hx. apply List.filter_In in Hx as [Hx Hk].
    unfold delete_lt. rewrite List.filter_In, Hk. cbn.
    destruct (Z.ltb_spec (id x) (id r)); cbn;
      intuition (try discriminate; try lia).
Qed.

Hypothesis order_newest_first : forall l, newest_first (order l).

Lemma NoDup_map_filter (f : row -> bool) l :
  List.NoDup (List.map id l) -> List.NoDup (List.map id (List.filter f l)).
Proof.
  induction l as [|r l IH]; cbn; [auto|]. intros Hnd.
  apply List.NoDup_cons_iff in Hnd as [Hnot Hnd].
  destruct (f r); cbn; [|auto].
  constructor; [|auto]. intros Hin. apply Hnot.
  apply List.in_map_iff in Hin as (x & Hx & Hin). apply List.filter_In in Hin as [Hin _].
  apply List.in_map_iff. eauto.
Qed.

Lemma ids_follow_creation_filter (f : row -> bool) l :
  ids_follow_creation l -> ids_follow_creation (List.filter f l).
Proof.
  intros Hfol a b Ha Hb. apply List.filter_In in Ha as [Ha _], Hb as [Hb _]. auto.
Qed.

(** The rows of a system after the sweep of any system are a filter of
    its rows before. *)
Lemma select_eq_cleanup_is_filter k system_key t :
  exists f, select_eq k (cleanup_system order system_key t)
            = List.filter f (select_eq k t).
Proof.
  destruct (cleanup_system_is_filter system_key t) as (f & -> & _).
  exists f. unfold select_eq. apply filter_filter_comm.
Qed.

Lemma cleanup_system_count system_key t :
  List.NoDup (List.map id (select_eq system_key t)) ->
  ids_follow_creation (select_eq system_key t) ->
  length (select_eq system_key (cleanup_system order system_key t))
  = Nat.min 1000 (length (select_eq system_key t)).
Proof.
  intros Hnd Hfol.
  destruct (Nat.le_gt_cases (length (select_eq system_key t)) 1000) as [Hle|Hlen].
  { rewrite (proj2 (proj2 (proj2 (cleanup_only_deletes_rows_of_its_system
                                     system_key t))) Hle). lia. }
  set (L := select_eq system_key t) in *.
  pose proof (order_Permutation L) as Hperm.
  assert (Hsorted : StronglySorted (fun a b => id b < id a) (order L)).
  { apply newest_first_by_id.
    - eapply Permutation_NoDup; [|exact Hnd]. apply Permutation_map. now symmetry.
    - intros a b Ha Hb. apply Hfol; eapply Permutation_in; eauto.
    - apply order_newest_first. }
  destruct (nth_error (order L) 999) as [r|] eqn:Hr.
  2:{ apply List.nth_error_None in Hr. apply Permutation_length in Hperm. lia. }
  destruct (List.nth_error_split _ _ Hr) as (l1 & l2 & HS & Hl1).
  rewrite HS in Hsorted. apply StronglySorted_middle in Hsorted as [H1 H2].
  assert (Hrun : cleanup_system order system_key t = delete_lt system_key (id r) t).
  { unfold cleanup_system. fold L. rewrite Hr.
    destruct (Z.gtb_spec (Z.of_nat (length L)) 1000); [reflexivity|lia]. }
  rewrite Hrun, select_eq_delete_lt. fold L.
  rewrite <- (Permutation_length
                (filter_Permutation' (fun x => negb (id x <? id r)) _ _ Hperm)).
  rewrite HS, (filter_from_cutoff l1 l2 r H1 H2), List.length_app, Hl1.
  rewrite Nat.min_l by lia. reflexivity.
Qed.

Lemma sweep_counts ks : forall t k,
  (forall k', List.NoDup (List.map id (select_eq k' t))
              /\ ids_follow_creation (select_eq k' t)) ->
  length (select_eq k (fold_left (fun t' k' => cleanup_system order k' t') ks t))
  = if in_dec string_dec k ks
    then Nat.min 1000 (length (select_eq k t))
    else length (select_eq k t).
Proof.
  induction ks as [|k0 ks IH]; intros t k Hok; [reflexivity|].
  cbn [fold_left].
  assert (Hok1 : forall k', List.NoDup (List.map id
                                (select_eq k' (cleanup_system order k0 t)))
                            /\ ids_follow_creation
                                 (select_eq k' (cleanup_system order k0 t))).
  { intros k'. destruct (select_eq_cleanup_is_filter k' k0 t) as [f ->].
    destruct (Hok k') as [Hnd Hfol].
    split; [now apply NoDup_map_filter|now apply ids_follow_creation_filter]. }
  rewrite (IH _ k Hok1).
  destruct (string_dec k0 k) as [<-|Hne].
  - rewrite (cleanup_system_count k0 t) by apply Hok.
    destruct (in_dec string_dec k0 ks), (in_dec string_dec k0 (k0 :: ks)) as [|Hn];
      try lia; exfalso; apply Hn; now left.
  - rewrite (select_eq_cleanup_other k0 k t) by congruence.
    destruct (in_dec string_dec k ks) as [Hin|Hin],
             (in_dec string_dec k (k0 :: ks)) as [Hin'|Hin']; try reflexivity.
    + exfalso. apply Hin'. now right.
    + exfalso. destruct Hin' as [|]; [congruence|contradiction].
Qed.

Lemma sweep_idle ks : forall t,
  (forall k, In k ks -> (length (select_eq k t) <= 1000)%nat) ->
  fold_left (fun t' k => cleanup_system order k t') ks t = t.
Proof.
  induction ks as [|k0 ks IH]; intros t Hsmall; [reflexivity|].
  cbn [fold_left].
  rewrite (proj2 (proj2 (proj2 (cleanup_only_deletes_rows_of_its_system k0 t))))
    by (apply Hsmall; now left).
  apply IH. intros k Hk. apply Hsmall. now right.
Qed.

(** X20: on a table in which, system by system, identities are distinct
    and follow the creation times, the nightly sweep leaves every
    registered system with its 1000 newest rows at most (all of its rows
    when it had no more than 1000), and running the sweep again changes
    nothing. *)
Theorem sweep_caps_every_registered_system env t :
  (forall k, List.NoDup (List.map id (select_eq k t))
             /\ ids_follow_creation (select_eq k t)) ->
  (forall k, In k (Registry.keys env) ->
     length (select_eq k (cleanup_old_data order env t))
     = Nat.min 1000 (length (select_eq k t)))
  /\ cleanup_old_data order env (cleanup_old_data order env t)
     = cleanup_old_data order env t.
Proof.
  intros Hok.
  assert (Hcount : forall k, In k (Registry.keys env) ->
     length (select_eq k (cleanup_old_data order env t))
     = Nat.min 1000 (length (select_eq k t))).
  { intros k Hk. unfold cleanup_old_data. rewrite (sweep_counts _ t k Hok).
    destruct (in_dec string_dec k (Registry.keys env)); [reflexivity|contradiction]. }
  split; [exact Hcount|].
  unfold cleanup_old_data at 1. apply sweep_idle.
  intros k Hk. rewrite (Hcount k Hk). lia.
Qed.

End SweepFacts.

(** ** More on the statistics *)

Lemma filter_split_length {A} (f : A -> bool) (l : list A) :
  (length (List.filter f l) + length (List.filter (fun x => negb (f x)) l)
   = length l)%nat.
Proof.
  induction l as [|x l IH]; [reflexivity|]. cbn.
  destruct (f x); cbn; lia.
Qed.

Lemma filter_and_length {A} (f g : A -> bool) (l : list A) :
  (length (List.filter (fun x => f x && g x) l) <= length (List.filter f l))%nat.
Proof.
  induction l as [|x l IH]; [reflexivity|]. cbn.
  destruct (f x), (g x); cbn; lia.
Qed.

Lemma ratio_is_a_percentage (h n : Z) :
  0 <= h <= n -> 0 < n ->
  (0 <= inject_Z h / inject_Z n * 100 <= 100)%Q.
Proof.
  intros [H0 Hn] Hpos.
  assert (Hq : (0 < inject_Z n)%Q)
    by (change 0%Q with (inject_Z 0); rewrite <- Zlt_Qlt; exact Hpos).
  assert (Hh0 : (0 <= inject_Z h)%Q)
    by (change 0%Q with (inject_Z 0); rewrite <- Zle_Qle; exact H0).
  assert (Hhn : (inject_Z h <= inject_Z n)%Q) by (rewrite <- Zle_Qle; exact Hn).
  assert (Hlo : (0 <= inject_Z h / inject_Z n)%Q).
  { apply Qle_shift_div_l; [exact Hq|]. lra. }
  assert (Hhi : (inject_Z h / inject_Z n <= 1)%Q).
  { apply Qle_shift_div_r; [exact Hq|]. lra. }
  split; lra.
Qed.

Section StatsInvariants.

Import Stats.

(** X21: every entry of the dictionary that [generate_recommendations]
    builds counts each record of its system once, as healthy or as
    unhealthy: [healthy + unhealthy = total], with [total] positive; it
    holds at most one error message per unhealthy record and at most one
    latency per record; and a system has an entry exactly when the window
    holds a record of it. *)
Theorem counters_add_up (window : list record) (s : string) :
  match system_stats window !! s with
  | Some st =>
      healthy st + unhealthy st = total st
      /\ 0 <= healthy st /\ 0 <= unhealthy st /\ 0 < total st
      /\ total st = Z.of_nat (length (of_system s window))
      /\ Z.of_nat (length (errors st)) <= unhealthy st
      /\ Z.of_nat (length (response_times st)) <= total st
  | None => forall r, In r window -> system_name r <> s
  end.
Proof.
  rewrite system_stats_lookup. unfold entry_of.
  destruct (of_system s window) as [|r0 l] eqn:Hl.
  - intros r Hr Hs.
    assert (Hin : In r (of_system s window)).
    { apply List.filter_In. split; [exact Hr|]. now apply String.eqb_eq. }
    rewrite Hl in Hin. destruct Hin.
  - rewrite <- Hl. unfold summary_of. cbn [total healthy unhealthy errors response_times].
    pose proof (filter_split_length is_healthy (of_system s window)) as Hsplit.
    assert (Hpos : (0 < length (of_system s window))%nat) by (rewrite Hl; cbn; lia).
    assert (Herr : (length (error_messages (of_system s window))
                    <= length (List.filter (fun r => negb (is_healthy r))
                                 (of_system s window)))%nat).
    { unfold error_messages. rewrite List.length_map.
      apply (filter_and_length (fun r => negb (is_healthy r))). }
    assert (Hlat : (length (latencies (of_system s window))
                    <= length (of_system s window))%nat).
    { unfold latencies. rewrite List.length_map. apply List.filter_length_le. }
    repeat split; lia.
Qed.

(** X22: the uptime of every entry of the summary is a percentage,
    between 0 and 100; so is, before rounding, the [uptime_24h] that
    [get_performance_metrics] reports for a system with records, which
    never has more healthy checks than checks. *)
Theorem uptime_is_a_percentage (round2 : Q -> Q) (window : list record) :
  (forall s st, system_stats window !! s = Some st ->
     (0 <= uptime st <= 100)%Q)
  /\ (forall m, performance_metrics round2 window = Some m ->
        0 <= healthy_checks m <= total_checks m
        /\ exists x, uptime_24h m = round2 x /\ (0 <= x <= 100)%Q).
Proof.
  split.
  - intros s st Hst.
    pose proof (counters_add_up window s) as Hc. rewrite Hst in Hc.
    destruct Hc as (Hsum & Hh & Hu & Hpos & _).
    unfold uptime. destruct (Z.gtb_spec (total st) 0); [|lia].
    apply ratio_is_a_percentage; lia.
  - intros m Hm. destruct window as [|r data]; [discriminate|].
    unfold performance_metrics in Hm. injection Hm as <-.
    cbn [healthy_checks total_checks uptime_24h].
    assert (Hle : (length (List.filter is_healthy (r :: data))
                   <= length (r :: data))%nat) by apply List.filter_length_le.
    change (length (r :: data)) with (S (length data)) in Hle.
    unfold healthy_count. split; [lia|].
    eexists. split; [reflexivity|]. unfold len.
    change (length (r :: data)) with (S (length data)).
    apply ratio_is_a_percentage; lia.
Qed.

End StatsInvariants.

(** ** More on the generator's reply *)

Section SearchFacts.

Import Reply Url.

Lemma from_open_bracket_Some text s :
  from_open_bracket text = Some s ->
  exists pre rest, text = pre +:+ s /\ has "[" pre = false /\ s = String "[" rest.
Proof.
  induction text as [|c text IH]; [discriminate|]. cbn.
  destruct (Ascii.eqb_spec c "[") as [->|Hc].
  - intros [= <-]. exists EmptyString, text. auto.
  - intros Hs. destruct (IH Hs) as (pre & rest & -> & Hpre & ->).
    exists (String c pre), rest. repeat split.
    cbn. apply Ascii.eqb_neq in Hc. now rewrite Hc.
Qed.

Lemma upto_last_close_Some rest p :
  upto_last_close rest = Some p ->
  exists post, rest = p +:+ post /\ has "]" post = false /\ last_char p = Some "]"%char.
Proof.
  revert p. induction rest as [|c rest IH]; [discriminate|]. intros p. cbn.
  destruct (upto_last_close rest) as [p'|] eqn:Hp'.
  - intros [= <-]. destruct (IH p' eq_refl) as (post & -> & Hpost & Hlast).
    exists post. repeat split; [exact Hpost|].
    destruct p'; [discriminate|exact Hlast].
  - destruct (Ascii.eqb_spec c "]") as [->|Hc]; [|discriminate].
    intros [= <-]. exists rest. repeat split.
    clear IH. induction rest as [|c' rest IH']; [reflexivity|].
    cbn in Hp' |- *. destruct (upto_last_close rest); [discriminate|].
    destruct (Ascii.eqb c' "]"); [discriminate|]. now apply IH'.
Qed.

Lemma upto_last_close_app a b : is_Some (upto_last_close (a +:+ String "]" b)).
Proof.
  induction a as [|c a IH].
  - change (EmptyString +:+ String "]" b) with (String "]"%char b). cbn.
    destruct (upto_last_close b); eauto.
  - change (String c a +:+ String "]" b) with (String c (a +:+ String "]" b)). cbn.
    destruct IH as [p ->]. eauto.
Qed.

Lemma from_open_bracket_app pre x :
  exists a, from_open_bracket (pre +:+ String "[" x) = Some (String "[" (a +:+ x)).
Proof.
  induction pre as [|c pre IH].
  - exists EmptyString. reflexivity.
  - change (String c pre +:+ String "[" x) with (String c (pre +:+ String "[" x)).
    cbn. destruct (Ascii.eqb_spec c "[") as [->|_].
    + exists (pre +:+ String "[" EmptyString).
      f_equal. f_equal. clear. induction pre as [|c pre IH]; [reflexivity|].
      change (String c pre +:+ String "[" x) with (String c (pre +:+ String "[" x)).
      change ((String c pre +:+ String "[" EmptyString) +:+ x)
        with (String c ((pre +:+ String "[" EmptyString) +:+ x)).
      now rewrite IH.
    + exact IH.
Qed.

(** X25: [re.search(r'\[[\s\S]*\]', text)].  A match is the part of the
    text from its first ["["] to its last ["]"]: the text is a prefix
    without ["["], the match, and a suffix without ["]"], and the match
    starts with ["["] and ends with ["]"].  There is a match whenever
    some ["["] of the text is followed, anywhere later, by a ["]"]. *)
Theorem re_search_is_first_open_to_last_close (text : string) :
  (forall m,
     re_search text = Some m ->
     exists pre body post,
       text = pre +:+ m +:+ post
       /\ has "[" pre = false
       /\ has "]" post = false
       /\ m = String "[" body
       /\ last_char m = Some "]"%char)
  /\ (forall pre mid post,
        text = pre +:+ String "[" (mid +:+ String "]" post) ->
        is_Some (re_search text)).
Proof.
  split.
  - intros m. unfold re_search.
    destruct (from_open_bracket text) as [s|] eqn:Hs; [|discriminate].
    destruct (from_open_bracket_Some text s Hs) as (pre & rest & -> & Hpre & ->).
    destruct (upto_last_close rest) as [p|] eqn:Hp; [|discriminate].
    intros [= <-].
    destruct (upto_last_close_Some rest p Hp) as (post & -> & Hpost & Hlast).
    exists pre, p, post. repeat split; try assumption.
    destruct p; [discriminate|exact Hlast].
  - intros pre mid post ->. unfold re_search.
    destruct (from_open_bracket_app pre (mid +:+ String "]" post)) as [a ->].
    assert (Hsome : is_Some (upto_last_close (a +:+ mid +:+ String "]" post))).
    { replace (a +:+ mid +:+ String "]" post) with ((a +:+ mid) +:+ String "]" post).
      - apply upto_last_close_app.
      - clear. induction a as [|c a IH]; [reflexivity|].
        change ((String c a +:+ mid) +:+ String "]" post)
          with (String c ((a +:+ mid) +:+ String "]" post)).
        now rewrite IH. }
    destruct Hsome as [p ->]. eauto.
Qed.

End SearchFacts.

Section ParseFacts.

Import Reply.

Variable json_loads : string -> loads.
Variable t : Q.

Lemma format_recs_objects objs :
  exists recs,
    format_recs t (List.map JObj objs) = Some recs
    /\ Forall2 (fun o r => format_rec t (JObj o) = Some r) objs recs.
Proof.
  induction objs as [|o objs (recs & Hrecs & Hall)].
  - exists []. split; [reflexivity|constructor].
  - cbn [List.map format_recs]. cbn [format_rec]. rewrite Hrecs.
    eexists. split; [reflexivity|]. constructor; [reflexivity|exact Hall].
Qed.

(** X26: when the bracketed text of the reply decodes to a list of
    objects, [generate_recommendations] returns one record per object, in
    order, each the formatting of its object with [status = active] and
    the fixed source; the fallback record is not used, and an empty list
    gives no record at all. *)
Theorem objects_give_one_record_each text m objs :
  re_search text = Some m ->
  json_loads m = Decoded (JArr (List.map JObj objs)) ->
  Forall2 (fun o r => format_rec t (JObj o) = Some r) objs
    (parse_reply json_loads t text)
  /\ length (parse_reply json_loads t text) = length objs
  /\ Forall (fun r => status r = "active" /\ actionable r = true
                      /\ source (metadata r) = "claude_sonnet_4")
       (parse_reply json_loads t text)
  /\ (objs = [] -> parse_reply json_loads t text = []).
Proof.
  intros Hm Hj. unfold parse_reply. rewrite Hm, Hj.
  destruct (format_recs_objects objs) as (recs & -> & Hall).
  split; [exact Hall|]. split; [symmetry; eapply Forall2_length; eauto|]. split.
  - clear -Hall. induction Hall as [|o r objs recs Hr _ IH]; constructor; [|exact IH].
    cbn in Hr. injection Hr as <-. auto.
  - intros ->. now inversion Hall.
Qed.

Lemma format_recs_not_object items v :
  In v items -> (forall f, v <> JObj f) -> format_recs t items = None.
Proof.
  induction items as [|x items IH]; [contradiction|].
  intros [->|Hin] Hv; cbn.
  - destruct v; try reflexivity. now destruct (Hv fields).
  - destruct (format_rec t x); [|reflexivity]. now rewrite (IH Hin Hv).
Qed.

(** X27: when the bracketed text decodes to a list in which some item is
    not an object, [generate_recommendations] returns the empty list:
    the records of the items that are objects are dropped with it, and
    the reply is not kept in a fallback record either. *)
Theorem non_object_item_discards_everything text m items v :
  re_search text = Some m ->
  json_loads m = Decoded (JArr items) ->
  In v items ->
  (forall f, v <> JObj f) ->
  parse_reply json_loads t text = [].
Proof.
  intros Hm Hj Hin Hv. unfold parse_reply.
  now rewrite Hm, Hj, (format_recs_not_object items v Hin Hv).
Qed.

End ParseFacts.

(** X26, witness: a reply with two empty objects gives two records with
    the default title. *)
Lemma objects_give_one_record_each_witness :
  Reply.re_search "Here you go: [{}, {}]. Good luck." = Some "[{}, {}]"
  /\ length (Reply.parse_reply Scenario.decodes_two_objects 0
               "Here you go: [{}, {}]. Good luck.")
     = length ([[]; []] : list (list (string * Reply.jval)))
  /\ List.map Reply.title
       (Reply.parse_reply Scenario.decodes_two_objects 0
          "Here you go: [{}, {}]. Good luck.")
     = [Reply.JStr "System Recommendation"; Reply.JStr "System Recommendation"].
Proof.
  split; [reflexivity|]. split; [|reflexivity].
  exact (proj1 (proj2 (objects_give_one_record_each Scenario.decodes_two_objects 0
                         "Here you go: [{}, {}]. Good luck." "[{}, {}]" [[]; []]
                         eq_refl eq_refl))).
Defined.

(** X27, witness: a list that holds a number. *)
Lemma non_object_item_discards_everything_witness :
  Reply.re_search "Scores: [1]" = Some "[1]"
  /\ Reply.parse_reply Reply.decodes_one 0 "Scores: [1]" = [].
Proof.
  split; [reflexivity|].
  apply (non_object_item_discards_everything Reply.decodes_one 0 "Scores: [1]" "[1]"
           [Reply.JNum 1] (Reply.JNum 1) eq_refl eq_refl).
  - now left.
  - discriminate.
Defined.

(** ** Storing the recommendations *)

Section SynthesisFacts.

Import Reply Synthesis.

Context {V : Type}.
Variable store_up : nat -> bool.

Abbreviation quietly := (store_quietly V store_up).
Abbreviation daily := (generate_daily_recommendations V store_up).
Abbreviation trigger := (trigger_recommendations V store_up).

Lemma store_quietly_folds recs : forall st : state V,
  cache (fold_left quietly recs st) = cache st
  /\ exists rows,
       ai_recommendations (db (fold_left quietly recs st))
       = ai_recommendations (db st) ++ rows
       /\ rows `sublist_of` recs
       /\ ((forall k, store_up k = true) -> rows = recs).
Proof.
  induction recs as [|r recs IH]; intros st.
  - split; [reflexivity|]. exists []. rewrite List.app_nil_r. auto.
  - cbn [fold_left]. destruct (IH (quietly st r)) as (Hc & rows & Hrows & Hsub & Hall).
    unfold store_quietly, insert_recommendation in *.
    destruct (store_up (requests (db st))) eqn:Hup; cbn in *.
    + split; [exact Hc|]. exists (r :: rows). rewrite Hrows, <- List.app_assoc.
      split; [reflexivity|]. split; [now apply sublist_skip|].
      intros Hk. now rewrite (Hall Hk).
    + split; [exact Hc|]. exists rows. split; [exact Hrows|].
      split; [now apply sublist_cons|].
      intros Hk. rewrite Hk in Hup. discriminate.
Qed.

(** X28: the daily job clears the recommendations entry of the cache
    whatever the store does: it returns normally, the entry has
    [data = None], and the table has grown by those of the records whose
    insert went through, in order (by all of them when the store is up);
    a record that cannot be stored is skipped. *)
Theorem daily_job_always_clears_the_cache recs (st : state V) :
  is_Some (cache st !! "recommendations") ->
  fst (daily recs st) = inr tt
  /\ recommendations_cleared (cache (snd (daily recs st)))
  /\ exists rows,
       ai_recommendations (db (snd (daily recs st)))
       = ai_recommendations (db st) ++ rows
       /\ rows `sublist_of` recs
       /\ ((forall k, store_up k = true) -> rows = recs).
Proof.
  intros [e He]. unfold generate_daily_recommendations.
  destruct (store_quietly_folds recs st) as (Hc & rows & Hrows & Hsub & Hall).
  unfold Cache.clear_data. rewrite Hc, He. cbn.
  split; [reflexivity|]. split.
  - eexists. split; [apply lookup_insert_eq|reflexivity].
  - eauto.
Qed.

Lemma store_all_up recs : forall st : state V,
  (forall i, (i < length recs)%nat -> store_up (requests (db st) + i) = true) ->
  store_all V store_up recs st
  = (inr tt,
     {| cache := cache st;
        db := {| ai_recommendations := ai_recommendations (db st) ++ recs;
                 requests := requests (db st) + length recs |} |}).
Proof.
  induction recs as [|r recs IH]; intros st Hup.
  - cbn. rewrite List.app_nil_r, Nat.add_0_r. now destruct st as [c [a n]].
  - cbn [store_all]. unfold insert_recommendation.
    rewrite <- (Nat.add_0_r (requests (db st))) at 1.
    rewrite (Hup 0%nat) by (cbn; lia).
    rewrite IH.
    + cbn. rewrite <- List.app_assoc. do 3 f_equal. lia.
    + intros i Hi. cbn. rewrite <- Nat.add_succ_r. apply Hup. cbn. lia.
Qed.

Lemma store_all_app before after : forall st : state V,
  (forall i, (i < length before)%nat -> store_up (requests (db st) + i) = true) ->
  store_all V store_up (before ++ after) st
  = store_all V store_up after
      {| cache := cache st;
         db := {| ai_recommendations := ai_recommendations (db st) ++ before;
                  requests := requests (db st) + length before |} |}.
Proof.
  induction before as [|r before IH]; intros st Hup.
  - cbn. rewrite List.app_nil_r, Nat.add_0_r. now destruct st as [c [a n]].
  - cbn [List.app store_all]. unfold insert_recommendation.
    rewrite <- (Nat.add_0_r (requests (db st))) at 1.
    rewrite (Hup 0%nat) by (cbn; lia).
    rewrite IH.
    + cbn. rewrite <- List.app_assoc. do 4 f_equal. lia.
    + intros i Hi. cbn. rewrite <- Nat.add_succ_r. apply Hup. cbn. lia.
Qed.


End SynthesisFacts.

(** X28, witness: the store is down; the job returns, nothing is stored
    and the cached recommendations are cleared. *)
Lemma daily_job_always_clears_the_cache_witness :
  is_Some (Synthesis.cache Scenario.before_synthesis !! "recommendations")
  /\ fst (Synthesis.generate_daily_recommendations nat Fanout.store_down
            [Reply.fallback 0 "a"; Reply.fallback 0 "b"] Scenario.before_synthesis)
     = inr tt
  /\ Synthesis.recommendations_cleared
       (Synthesis.cache
          (snd (Synthesis.generate_daily_recommendations nat Fanout.store_down
                  [Reply.fallback 0 "a"; Reply.fallback 0 "b"]
                  Scenario.before_synthesis)))
  /\ Synthesis.ai_recommendations
       (Synthesis.db
          (snd (Synthesis.generate_daily_recommendations nat Fanout.store_down
                  [Reply.fallback 0 "a"; Reply.fallback 0 "b"]
                  Scenario.before_synthesis))) = [].
Proof.
  assert (Hp : is_Some (Synthesis.cache Scenario.before_synthesis !! "recommendations"))
    by (eexists; reflexivity).
  destruct (daily_job_always_clears_the_cache Fanout.store_down
              [Reply.fallback 0 "a"; Reply.fallback 0 "b"]
              Scenario.before_synthesis Hp) as (Hr & Hc & _).
  split; [exact Hp|]. split; [exact Hr|]. split; [exact Hc|]. reflexivity.
Defined.


(** X18, witness: the 1500 rows of the steady history, with the
    insertion sort as the store's ordering. *)
Lemma cleanup_keeps_the_cutoff_row_witness :
  (1000 < length (Retention.select_eq "svc" Retention.steady_history))%nat
  /\ exists r,
       nth_error (Retention.sort_created_at_desc
                    (Retention.select_eq "svc" Retention.steady_history)) 999
       = Some r
       /\ In r (Retention.select_eq "svc"
                  (Retention.cleanup_system Retention.sort_created_at_desc "svc"
                     Retention.steady_history)).
Proof.
  assert (Hlen : (1000 < length (Retention.select_eq "svc" Retention.steady_history))%nat)
    by (vm_compute; lia).
  split; [exact Hlen|].
  destruct (cleanup_keeps_the_cutoff_row Retention.sort_created_at_desc
              sort_created_at_desc_Permutation "svc" Retention.steady_history Hlen)
    as (r & Hr & Hin & _).
  exists r. split; assumption.
Defined.

(** X20, witness: a table with 1500 rows of one registered system. *)
Lemma sweep_caps_every_registered_system_witness :
  In "story_grid_pro" (Registry.keys Scenario.no_env)
  /\ length (Retention.select_eq "story_grid_pro" Scenario.registered_history)
     = 1500%nat
  /\ length (Retention.select_eq "story_grid_pro"
               (Retention.cleanup_old_data Retention.sort_created_at_desc
                  Scenario.no_env Scenario.registered_history))
     = Nat.min 1000
         (length (Retention.select_eq "story_grid_pro" Scenario.registered_history))
  /\ Retention.cleanup_old_data Retention.sort_created_at_desc Scenario.no_env
       (Retention.cleanup_old_data Retention.sort_created_at_desc Scenario.no_env
          Scenario.registered_history)
     = Retention.cleanup_old_data Retention.sort_created_at_desc Scenario.no_env
         Scenario.registered_history.
Proof.
  assert (Hkey : In "story_grid_pro" (Registry.keys Scenario.no_env)) by now left.
  assert (Hnd : List.NoDup (List.map Retention.id Scenario.registered_history)).
  { apply NoDup_ListNoDup. apply (bool_decide_unpack _). vm_compute. exact I. }
  assert (Hfol : Retention.ids_follow_creation Scenario.registered_history).
  { apply in_step_ids_follow_creation. vm_compute. reflexivity. }
  assert (Hok : forall k,
             List.NoDup (List.map Retention.id
                           (Retention.select_eq k Scenario.registered_history))
             /\ Retention.ids_follow_creation
                  (Retention.select_eq k Scenario.registered_history)).
  { intros k. split.
    - now apply NoDup_map_filter.
    - now apply ids_follow_creation_filter. }
  destruct (sweep_caps_every_registered_system Retention.sort_created_at_desc
              sort_created_at_desc_Permutation sort_created_at_desc_newest_first
              Scenario.no_env Scenario.registered_history Hok) as [Hcount Hagain].
  split; [exact Hkey|]. split; [vm_compute; reflexivity|].
  split; [exact (Hcount _ Hkey)|exact Hagain].
Defined.

(** ** The read endpoints *)

Section EndpointFacts.

Import Endpoints.

Variable order : list row -> list row.
Variable round1 : Q -> Q.
Variable now : Q.

Lemma overview_keys env t :
  List.map fst (systems (get_health_overview order now env t)) = Registry.keys env.
Proof.
  unfold get_health_overview, Registry.keys. cbn [systems].
  now rewrite List.map_map.
Qed.

(** The overview has one entry for every registered system, in the
    order of [SYSTEMS], whatever the table holds; its [overall_health] is
    ["<n>/<m>"] with [m] the number of registered systems and [n] the
    number of entries whose status is ["healthy"], so that a system
    without rows, shown as ["unknown"], is not counted as healthy. *)
Lemma overview_lists_every_registered_system env t :
  List.map fst (systems (get_health_overview order now env t)) = Registry.keys env
  /\ length (systems (get_health_overview order now env t)) = 6%nat
  /\ exists n,
       (n <= 6)%nat
       /\ n = length (List.filter
                        (fun kv => String.eqb (o_status (snd kv)) "healthy")
                        (systems (get_health_overview order now env t)))
       /\ overall_health (get_health_overview order now env t)
          = pretty (Z.of_nat n) +:+ "/6".
Proof.
  split; [apply overview_keys|]. split; [reflexivity|].
  eexists. split; [|split; [reflexivity|reflexivity]].
  etransitivity; [apply List.filter_length_le|]. reflexivity.
Qed.

Lemma head_is_newest l r rest :
  Permutation (order l) l -> newest_first (order l) ->
  order l = r :: rest ->
  In r l /\ forall x, In x l -> created_at x <= created_at r.
Proof.
  intros Hperm Hs Ho. unfold newest_first in Hs.
  rewrite Ho in Hperm, Hs. split.
  - eapply Permutation_in; [exact Hperm|]. now left.
  - intros x Hx. symmetry in Hperm.
    apply (Permutation_in _ Hperm) in Hx as [<-|Hx]; [lia|].
    apply StronglySorted_inv in Hs as [_ Hall].
    rewrite List.Forall_forall in Hall. now apply Hall.
Qed.

Lemma order_nil l : Permutation (order l) l -> (order l = [] <-> l = []).
Proof.
  intros Hperm. split; intros H.
  - rewrite H in Hperm. now apply Permutation_nil.
  - subst l. symmetry in Hperm. now apply Permutation_nil.
Qed.

(** X16: for each system the overview shows its newest row: when the
    system has rows, the status, latency and check time of the entry are
    those of one of its rows, and no row of the system has a later
    [created_at]; when it has none, the status is ["unknown"] and the
    entry has no latency and no check time. *)
Theorem overview_shows_the_newest_row system_key info t :
  Permutation (order (rows_of system_key t)) (rows_of system_key t) ->
  newest_first (order (rows_of system_key t)) ->
  (rows_of system_key t = [] ->
   o_status (overview_of order system_key info t) = "unknown"
   /\ o_details (overview_of order system_key info t) = None)
  /\ (rows_of system_key t <> [] ->
      exists r,
        In r (rows_of system_key t)
        /\ (forall x, In x (rows_of system_key t) -> created_at x <= created_at r)
        /\ o_status (overview_of order system_key info t) = status r
        /\ o_details (overview_of order system_key info t)
           = Some (response_time_ms r, last_check r)).
Proof.
  intros Hperm Hsorted.
  pose proof (order_nil _ Hperm) as Hnil_iff.
  unfold overview_of, latest. fold (rows_of system_key t).
  destruct (order (rows_of system_key t)) as [|r rest] eqn:Ho.
  - pose proof (proj1 Hnil_iff eq_refl) as Hnil. split; [auto|].
    intros Hne. exfalso. apply Hne, Hnil.
  - split.
    + intros Hnil. apply (proj2 Hnil_iff) in Hnil. discriminate.
    + intros _. rewrite <- Ho in Hperm, Hsorted.
      destruct (head_is_newest _ _ _ Hperm Hsorted Ho) as [Hin Hmax].
      exists r. cbn. auto.
Qed.

(** X24: the detailed view of a system has an entry exactly when the
    system has rows.  The entry then holds between 1 and 10 rows, all of
    that system, its [current_status] is the first of them and no row of
    the system is newer, and its uptime is, before rounding, a percentage
    between 0 and 100 computed over those rows only. *)
Theorem detailed_view_is_the_last_ten_rows system_key info t :
  Permutation (order (rows_of system_key t)) (rows_of system_key t) ->
  newest_first (order (rows_of system_key t)) ->
  (detailed_of order round1 system_key info t = None <-> rows_of system_key t = [])
  /\ forall d,
       detailed_of order round1 system_key info t = Some d ->
       (1 <= length (recent_history d) <= 10)%nat
       /\ recent_history d = firstn 10 (order (rows_of system_key t))
       /\ List.hd_error (recent_history d) = Some (current_status d)
       /\ (forall x, In x (recent_history d) -> system_name x = system_key)
       /\ (forall x, In x (rows_of system_key t) ->
             created_at x <= created_at (current_status d))
       /\ exists u,
            uptime_percentage d = round1 u
            /\ (0 <= u <= 100)%Q
            /\ u = (inject_Z (Z.of_nat (length (List.filter is_healthy
                                                  (recent_history d))))
                    / inject_Z (Z.of_nat (length (recent_history d))) * 100)%Q.
Proof.
  intros Hperm Hsorted.
  pose proof (order_nil _ Hperm) as Hnil_iff.
  unfold detailed_of, latest. fold (rows_of system_key t).
  destruct (order (rows_of system_key t)) as [|r rest] eqn:Ho.
  - split; [split; [intros _; exact (proj1 Hnil_iff eq_refl)|reflexivity]|].
    intros d. cbn. discriminate.
  - split.
    + split; [cbn; discriminate|]. intros Hnil.
      apply (proj2 Hnil_iff) in Hnil. discriminate.
    + intros d.
      change (firstn 10 (r :: rest)) with (r :: firstn 9 rest).
      intros [= <-]. cbn [recent_history current_status uptime_percentage].
      assert (Hlen : (length (firstn 9 rest) <= 9)%nat) by apply List.firstn_le_length.
      pose proof Hperm as Hperm'. rewrite <- Ho in Hperm', Hsorted.
      destruct (head_is_newest _ _ _ Hperm' Hsorted Ho) as [Hin Hmax].
      split; [cbn [length]; lia|]. split; [reflexivity|]. split; [reflexivity|].
      split; [|split; [exact Hmax|]].
      * intros x Hx.
        assert (Hx' : In x (r :: rest)).
        { destruct Hx as [<-|Hx]; [now left|].
          right. apply list_elem_of_In. apply list_elem_of_In in Hx.
          now apply (subseteq_take 9 rest). }
        apply (Permutation_in _ Hperm) in Hx'.
        apply List.filter_In in Hx' as [_ Hk]. now apply String.eqb_eq.
      * eexists. split; [reflexivity|]. split; [|reflexivity].
        pose proof (List.filter_length_le is_healthy (r :: firstn 9 rest)) as Hle.
        change (length (r :: firstn 9 rest)) with (S (length (firstn 9 rest))) in *.
        cbn [List.filter] in Hle.
        apply ratio_is_a_percentage; lia.
Qed.

End EndpointFacts.

(** X16, witness: two rows of one system, the newer one healthy. *)
Lemma overview_shows_the_newest_row_witness :
  Endpoints.rows_of "story_grid_pro" Endpoints.recent_rows <> []
  /\ exists r,
       In r (Endpoints.rows_of "story_grid_pro" Endpoints.recent_rows)
       /\ Endpoints.o_status
            (Endpoints.overview_of Endpoints.as_listed "story_grid_pro" Probe.svc
               Endpoints.recent_rows)
          = Endpoints.status r
       /\ Endpoints.o_status
            (Endpoints.overview_of Endpoints.as_listed "story_grid_pro" Probe.svc
               Endpoints.recent_rows)
          = "healthy".
Proof.
  assert (Hne : Endpoints.rows_of "story_grid_pro" Endpoints.recent_rows <> [])
    by discriminate.
  assert (Hs : Endpoints.newest_first
                 (Endpoints.as_listed
                    (Endpoints.rows_of "story_grid_pro" Endpoints.recent_rows))).
  { repeat constructor; cbn; lia. }
  split; [exact Hne|].
  destruct (proj2 (overview_shows_the_newest_row Endpoints.as_listed
                     "story_grid_pro" Probe.svc Endpoints.recent_rows
                     (Permutation_refl _) Hs) Hne) as (r & Hin & _ & Hst & _).
  exists r. split; [exact Hin|]. split; [exact Hst|]. reflexivity.
Defined.

(** X24, witness: the same two rows; one of the two is healthy. *)
Lemma detailed_view_is_the_last_ten_rows_witness :
  exists d,
    Endpoints.detailed_of Endpoints.as_listed Probe.keep "story_grid_pro" Probe.svc
      Endpoints.recent_rows = Some d
    /\ (1 <= length (Endpoints.recent_history d) <= 10)%nat
    /\ (Endpoints.uptime_percentage d == 50)%Q.
Proof.
  assert (Hs : Endpoints.newest_first
                 (Endpoints.as_listed
                    (Endpoints.rows_of "story_grid_pro" Endpoints.recent_rows))).
  { repeat constructor; cbn; lia. }
  eexists. split; [reflexivity|].
  split; [|reflexivity].
  exact (proj1 (proj2 (detailed_view_is_the_last_ten_rows Endpoints.as_listed
                         Probe.keep "story_grid_pro" Probe.svc
                         Endpoints.recent_rows (Permutation_refl _) Hs) _ eq_refl)).
Defined.

(** X15, witness: the invalidation of the filled overview entry. *)
Lemma invalidate_clears_data_only_witness :
  exists s',
    Cache.invalidate "health_overview"
      {| Cache.CACHE := Cache.filled_CACHE; Cache.calls := 0 |} = inr s'
    /\ Cache.calls s' = 0%nat
    /\ Cache.cache_hit (Cache.CACHE s') "health_overview" 60 1001 = None.
Proof.
  destruct (proj2 (invalidate_clears_data_only "health_overview"
                     {| Cache.CACHE := Cache.filled_CACHE; Cache.calls := 0 |})
              _ eq_refl) as (s' & Hs & _ & Hc & _ & Hmiss).
  exists s'. split; [exact Hs|]. split; [exact Hc|]. apply Hmiss.
Defined.

(** X17, witness: the sweep of one system leaves the rows of another
    system alone. *)
Lemma cleanup_only_deletes_rows_of_its_system_witness :
  Retention.select_eq "iaj_social_main"
    (Retention.cleanup_system Retention.sort_created_at_desc "story_grid_pro"
       Scenario.registered_history)
  = Retention.select_eq "iaj_social_main" Scenario.registered_history.
Proof.
  exact (proj1 (proj2 (cleanup_only_deletes_rows_of_its_system
                         Retention.sort_created_at_desc "story_grid_pro"
                         Scenario.registered_history))
           "iaj_social_main" ltac:(discriminate)).
Defined.

(** X19, witness: the row of a system that is not registered survives
    the nightly sweep. *)
Lemma sweep_spares_unregistered_systems_witness :
  In (Scenario.row_of "legacy" 1504)
     (Retention.cleanup_old_data Retention.sort_created_at_desc Scenario.no_env
        Scenario.registered_history).
Proof.
  apply (proj2 (sweep_spares_unregistered_systems Retention.sort_created_at_desc
                  Scenario.no_env Scenario.registered_history)).
  - unfold Scenario.registered_history.
    apply List.in_or_app. right. apply List.in_or_app. right. now left.
  - cbn. intuition discriminate.
Defined.

(** X22, witness: the window of the specification's example. *)
Lemma uptime_is_a_percentage_witness :
  (0 <= Stats.uptime (Stats.summary_of Stats.example_window) <= 100)%Q.
Proof.
  apply (proj1 (uptime_is_a_percentage Probe.keep Stats.example_window) "svc").
  vm_compute. reflexivity.
Defined.

(** X25, witness: a reply with text around the bracketed part. *)
Lemma re_search_is_first_open_to_last_close_witness :
  Reply.re_search "Scores: [1] and [2], done" = Some "[1] and [2]"
  /\ exists pre body post,
       "Scores: [1] and [2], done" = pre +:+ "[1] and [2]" +:+ post
       /\ Url.has "[" pre = false
       /\ Url.has "]" post = false
       /\ "[1] and [2]" = String "[" body
       /\ Url.last_char "[1] and [2]" = Some "]"%char.
Proof.
  split; [reflexivity|].
  exact (proj1 (re_search_is_first_open_to_last_close "Scores: [1] and [2], done")
           "[1] and [2]" eq_refl).
Defined.
